(** * MailerSlave: the campaign send pipeline

    A shallow embedding of the backend's campaign fan-out
    ([backend/routes/campaigns.py], [backend/routes/templates.py],
    [backend/services/template_service.py],
    [backend/services/email_sender.py],
    [backend/services/ollama_service.py]) and the properties of it that
    the specification states.

    Conventions.
    - A Python [str] is a [string]; one [ascii] stands for one character.
      The template grammar only inspects ASCII characters.
    - A Python [int] is a [Z]; a [datetime] is a [Z] (a clock reading).
    - A Mongo collection keyed by [_id] is a [gmap N _]; an [ObjectId] is
      the number its 24 hexadecimal digits denote.
    - Code that can raise returns an [outcome]; code that also touches the
      database, the network or the clock lives in the monad [M].
    - [logger] calls have no effect on the modelled state and are left out. *)

From Stdlib Require Import ZArith Ascii String List.
From stdpp Require Import base option list strings gmap fin_maps.

Local Open Scope string_scope.

(** ** Exceptions and outcomes *)

Inductive exn : Type :=
  | HTTPException (status_code : nat) (detail : string)
  | PyError (cls : string) (msg : string).

(** [str(e)] for the exceptions that are turned into messages. *)
Definition exn_str (e : exn) : string :=
  match e with
  | HTTPException _ detail => detail
  | PyError _ msg => msg
  end.

Inductive outcome (A : Type) : Type :=
  | Return (a : A)
  | Raise (e : exn).
Arguments Return {A} a.
Arguments Raise {A} e.

Definition outcome_bind {A B} (o : outcome A) (k : A → outcome B) : outcome B :=
  match o with
  | Return a => k a
  | Raise e => Raise e
  end.

(** ** Python values that reach the renderer *)

Inductive pyval : Type :=
  | PyNone
  | PyStr (s : string).

(** [str(v)] *)
Definition py_str (v : pyval) : string :=
  match v with
  | PyNone => "None"
  | PyStr s => s
  end.

(** Truthiness of an [Optional[str]] argument. *)
Definition truthy (o : option string) : bool :=
  match o with
  | Some (String _ _) => true
  | _ => false
  end.

(** [s[:n]] *)
Definition slice_to (n : nat) (s : string) : string := substring 0 n s.

(** [s[n:]] *)
Fixpoint drop_chars (n : nat) (s : string) : string :=
  match n, s with
  | S n', String _ s' => drop_chars n' s'
  | _, _ => s
  end.

(** [s.startswith(c)] for a single character *)
Definition starts_with (c : ascii) (s : string) : bool :=
  match s with
  | String c' _ => Ascii.eqb c' c
  | EmptyString => false
  end.

(** ** Identifiers: a letter or underscore, then letters, digits, underscores *)

Definition in_range (lo hi : nat) (c : ascii) : bool :=
  (lo <=? nat_of_ascii c)%nat && (nat_of_ascii c <=? hi)%nat.

Definition is_id_start (c : ascii) : bool :=
  Ascii.eqb c "_" || in_range 97 122 c || in_range 65 90 c.

Definition is_id_char (c : ascii) : bool :=
  is_id_start c || in_range 48 57 c.

(** The longest run of identifier characters at the head of [s]. *)
Fixpoint id_tail (s : string) : string :=
  match s with
  | String c s' => if is_id_char c then String c (id_tail s') else ""
  | EmptyString => ""
  end.

(** The identifier pattern anchored at the head of [s]; it is greedy and
    nothing can make it give characters back, so it takes the longest run. *)
Definition match_id (s : string) : option string :=
  match s with
  | String c s' => if is_id_start c then Some (String c (id_tail s')) else None
  | EmptyString => None
  end.

(** ** [string.Template] (Python standard library)

    [render_template] delegates to [Template(...).safe_substitute], so the
    library's pattern and its [convert] callback are transcribed here:
<<
    $(?: (?P<escaped>$) | (?P<named>id) | {(?P<braced>id)} | (?P<invalid>) )
>>
    where [id] is an ASCII identifier (the library's [idpattern] under
    [re.IGNORECASE]). *)

Module Template.

(** A match object of the pattern: the whole match and its groups. *)
Record match_obj : Type := MatchObj {
  group : string;
  escaped : option string;
  named : option string;
  braced : option string;
  invalid : option string;
}.

(** The pattern tried at a delimiter; [rest] is the text after the [$].
    The alternatives are tried in order and the last one (empty) always
    matches. *)
Definition match_at (rest : string) : match_obj :=
  let no_match := MatchObj "$" None None None (Some "") in
  if starts_with "$" rest then MatchObj "$$" (Some "$") None None None
  else
    match match_id rest with
    | Some name => MatchObj ("$" +:+ name) None (Some name) None None
    | None =>
      if starts_with "{" rest then
        match match_id (drop_chars 1 rest) with
        | Some name =>
          if starts_with "}" (drop_chars (1 + String.length name) rest)
          then MatchObj ("${" +:+ name +:+ "}") None None (Some name) None
          else no_match
        | None => no_match
        end
      else no_match
    end.

(** [pattern.sub(repl, s)]: text outside matches is copied, each match is
    replaced by [repl mo], and scanning resumes after the match. [skip]
    counts the characters of the current match not yet passed over. *)
Fixpoint sub_from (repl : match_obj → outcome string) (skip : nat) (s : string)
  : outcome string :=
  match s with
  | EmptyString => Return ""
  | String c rest =>
    match skip with
    | S k => sub_from repl k rest
    | O =>
      if Ascii.eqb c "$" then
        let mo := match_at rest in
        outcome_bind (repl mo) (λ r,
        outcome_bind (sub_from repl (String.length (group mo) - 1) rest) (λ out,
        Return (r +:+ out)))
      else
        outcome_bind (sub_from repl 0 rest) (λ out, Return (String c out))
    end
  end.

Definition sub (repl : match_obj → outcome string) (s : string) : outcome string :=
  sub_from repl 0 s.

(** [mo.group('named') or mo.group('braced')] *)
Definition named_or_braced (mo : match_obj) : option string :=
  match named mo with
  | Some (String c n) => Some (String c n)
  | _ => braced mo
  end.

(** The [convert] closure of [safe_substitute]. *)
Definition convert (mapping : gmap string pyval) (mo : match_obj) : outcome string :=
  match named_or_braced mo with
  | Some name =>
    match mapping !! name with
    | Some v => Return (py_str v)
    | None => Return (group mo)        (* except KeyError *)
    end
  | None =>
    match escaped mo with
    | Some _ => Return "$"
    | None =>
      match invalid mo with
      | Some _ => Return (group mo)
      | None => Raise (PyError "ValueError" "Unrecognized named group in pattern")
      end
    end
  end.

Definition safe_substitute (template : string) (mapping : gmap string pyval)
  : outcome string :=
  sub (convert mapping) template.

End Template.

(** ** [backend/services/template_service.py] *)

Module TemplateService.

Definition render_template (template_content : string)
    (variables : gmap string pyval) : outcome string :=
  match Template.safe_substitute template_content variables with
  | Return s => Return s
  | Raise e =>
      Raise (PyError "ValueError" ("Error rendering template: " +:+ exn_str e))
  end.

(** One attempt of the source's pattern (a [$], an optional [{], a
    captured identifier, an optional [}]) at a [$]; [rest] is the text
    after it. Gives the captured name and how many characters
    of [rest] the match covers. When [{] is taken and no identifier
    follows, giving the [{] back does not help: the identifier would
    have to start at the [{]. *)
Definition placeholder_at (rest : string) : option (string * nat) :=
  let open := if starts_with "{" rest then 1%nat else 0%nat in
  match match_id (drop_chars open rest) with
  | Some name =>
    let n := (open + String.length name)%nat in
    if starts_with "}" (drop_chars n rest)
    then Some (name, S n)
    else Some (name, n)
  | None => None
  end.

(** [re.findall(pattern, s)] for that pattern: the captured names of the
    successive non-overlapping matches. *)
Fixpoint findall_from (skip : nat) (s : string) : list string :=
  match s with
  | EmptyString => []
  | String c rest =>
    match skip with
    | S k => findall_from k rest
    | O =>
      if Ascii.eqb c "$" then
        match placeholder_at rest with
        | Some (name, n) => name :: findall_from n rest
        | None => findall_from 0 rest
        end
      else findall_from 0 rest
    end
  end.

(** [list(set(placeholders))]: the distinct names, in the order the set
    enumerates them. *)
Definition extract_placeholders (template_content : string) : list string :=
  elements (list_to_set (findall_from 0 template_content) : gset string).

End TemplateService.


(** ** [backend/models.py] *)

Inductive CampaignStatus : Type :=
  | DRAFT | SCHEDULED | IN_PROGRESS | COMPLETED | FAILED | PAUSED.

Inductive EmailStatus : Type :=
  | EMAIL_PENDING | EMAIL_SENT | EMAIL_FAILED | EMAIL_BOUNCED.

(** [CampaignStatus.X.value] *)
Definition status_value (s : CampaignStatus) : string :=
  match s with
  | DRAFT => "draft"
  | SCHEDULED => "scheduled"
  | IN_PROGRESS => "in_progress"
  | COMPLETED => "completed"
  | FAILED => "failed"
  | PAUSED => "paused"
  end.

(** A stored status in an f-string: the string, or [None] for null. *)
Definition status_str (st : option CampaignStatus) : string :=
  match st with
  | Some st => status_value st
  | None => "None"
  end.

Global Instance CampaignStatus_eq_dec : EqDecision CampaignStatus.
Proof. solve_decision. Defined.

Global Instance EmailStatus_eq_dec : EqDecision EmailStatus.
Proof. solve_decision. Defined.

(** A contact document. [first_name] and [last_name] are stored as [None]
    when the client left them out. [custom_fields] holds a dictionary, or
    null ([None] here) once an update has set it to null:
    [model_dump(exclude_unset=True)] keeps a field the client set, also to
    null, and [$set] stores it. *)
Record Contact : Type := mkContact {
  email : string;
  first_name : pyval;
  last_name : pyval;
  custom_fields : option (gmap string string);
  tags : list string;
  active : bool;
}.

(** A template document. *)
Record TemplateDoc : Type := mkTemplate {
  t_name : string;
  t_subject : string;
  t_content : string;
  t_description : option string;
  t_placeholders : list string;
  t_use_llm : bool;
  t_created_at : Z;
  t_updated_at : Z;
}.

(** [TemplateCreate]: the request body of a template creation. *)
Record TemplateCreate : Type := mkTemplateCreate {
  tc_name : string;
  tc_subject : string;
  tc_content : string;
  tc_description : option string;
  tc_placeholders : list string;
  tc_use_llm : bool;
}.

(** [TemplateUpdate]: every field optional; [None] is a field the request
    did not set, which [model_dump(exclude_unset=True)] leaves out. *)
Record TemplateUpdate : Type := mkTemplateUpdate {
  tu_name : option string;
  tu_subject : option string;
  tu_content : option string;
  tu_description : option string;
  tu_placeholders : option (list string);
  tu_use_llm : option bool;
}.

(** A campaign document. [create_campaign] stores a name, a template id
    and a status; each of the three holds null ([None] here) once an
    update has set it to null. *)
Record CampaignDoc : Type := mkCampaign {
  c_name : option string;
  template_id : option string;
  contact_ids : list string;
  c_description : option string;
  scheduled_at : option Z;
  status : option CampaignStatus;
  created_at : Z;
  updated_at : Z;
  started_at : option Z;
  completed_at : option Z;
  total_emails : Z;
  sent_count : Z;
  failed_count : Z;
}.

(** A row of the [email_logs] collection. *)
Record EmailLog : Type := mkEmailLog {
  log_campaign_id : option string;
  log_contact_id : option string;
  log_template_id : option string;
  log_subject : string;
  log_body : string;
  log_status : EmailStatus;
  log_sent_at : option Z;
  log_error_message : option string;
  log_created_at : Z;
}.

(** [CampaignCreate]: the request body of a campaign creation. *)
Record CampaignCreate : Type := mkCampaignCreate {
  cc_name : string;
  cc_template_id : string;
  cc_contact_ids : list string;
  cc_description : option string;
  cc_scheduled_at : option Z;
}.

(** A field of an update request whose fields are all [Optional]: the
    client left it out, set it to null, or set it to a value.
    [model_dump(exclude_unset=True)] leaves out the first kind only. *)
Inductive update_field (A : Type) : Type :=
  | Unset
  | SetNull
  | SetTo (a : A).
Arguments Unset {A}.
Arguments SetNull {A}.
Arguments SetTo {A} a.

(** What [$set] makes of a field that can hold null. *)
Definition set_nullable {A} (f : update_field A) (old : option A) : option A :=
  match f with
  | Unset => old
  | SetNull => None
  | SetTo a => Some a
  end.

(** [CampaignUpdate] *)
Record CampaignUpdate : Type := mkCampaignUpdate {
  cu_name : update_field string;
  cu_template_id : update_field string;
  cu_contact_ids : update_field (list string);
  cu_description : update_field string;
  cu_scheduled_at : update_field Z;
  cu_status : update_field CampaignStatus;
}.

(** [CampaignSendRequest] *)
Record CampaignSendRequest : Type := mkSendRequest {
  dry_run : bool;
}.

(** The dictionary [send_campaign] answers with. *)
Record SendResponse : Type := mkSendResponse {
  message : string;
  resp_campaign_id : string;
  resp_dry_run : bool;
}.

(** ** [backend/config.py] *)

Record Settings : Type := mkSettings {
  smtp_host : string;
  smtp_port : Z;
  smtp_username : string;
  smtp_password : string;
  smtp_use_tls : bool;
  smtp_from_email : option string;
  ollama_model : string;
  ollama_host : option string;
}.

(** ** The world outside the process *)

(** The message handed to [smtplib]. *)
Record Message : Type := mkMessage {
  msg_subject : string;
  msg_from : string;
  msg_to : string;
  msg_body : string;
  msg_mime_type : string;
}.

(** What goes over the network: the SMTP dialogue and the calls to the
    text-generation service. *)
Inductive net_event : Type :=
  | SmtpConnect (host : string) (port : Z)
  | SmtpStartTls
  | SmtpLogin (username password : string)
  | SmtpSendMessage (msg : Message)
  | SmtpQuit
  | OllamaChat (model : string) (template : string)
               (recipient_data : gmap string pyval).

(** The mutable state: the four collections, the network traffic so far,
    the tasks FastAPI will run after the response, and the number of
    interactions with the outside so far. *)
Record World : Type := mkWorld {
  contacts : gmap N Contact;
  templates : gmap N TemplateDoc;
  campaigns : gmap N CampaignDoc;
  email_logs : list EmailLog;
  network : list net_event;
  background_tasks : list (string * bool);
  ticks : nat;
}.

(** What the outside does, as a function of the interaction number: the
    clock reading, whether the database, the mail server or the
    text-generation service fails (and with which message), what the
    text-generation service answers, and the id [ObjectId()] makes up. *)
Record Env : Type := mkEnv {
  settings : Settings;
  clock : nat → Z;
  fault : nat → option string;
  llm_reply : nat → string;
  generated_id : nat → N;
}.

Definition step (w : World) : World :=
  mkWorld (contacts w) (templates w) (campaigns w) (email_logs w)
          (network w) (background_tasks w) (S (ticks w)).

Definition set_templates (t : gmap N TemplateDoc) (w : World) : World :=
  mkWorld (contacts w) t (campaigns w) (email_logs w)
          (network w) (background_tasks w) (ticks w).

Definition set_campaigns (c : gmap N CampaignDoc) (w : World) : World :=
  mkWorld (contacts w) (templates w) c (email_logs w)
          (network w) (background_tasks w) (ticks w).

Definition set_email_logs (l : list EmailLog) (w : World) : World :=
  mkWorld (contacts w) (templates w) (campaigns w) l
          (network w) (background_tasks w) (ticks w).

Definition set_network (n : list net_event) (w : World) : World :=
  mkWorld (contacts w) (templates w) (campaigns w) (email_logs w)
          n (background_tasks w) (ticks w).

Definition set_background_tasks (b : list (string * bool)) (w : World) : World :=
  mkWorld (contacts w) (templates w) (campaigns w) (email_logs w)
          (network w) b (ticks w).

(** ** The monad of effectful code

    State persists when an exception is raised, as in Python. *)

Definition M (A : Type) : Type := Env → World → outcome A * World.

Global Instance M_ret : MRet M := λ A a env w, (Return a, w).

Global Instance M_bind : MBind M := λ A B k m env w,
  match m env w with
  | (Return a, w1) => k a env w1
  | (Raise e, w1) => (Raise e, w1)
  end.

Definition raise {A} (e : exn) : M A := λ env w, (Raise e, w).

(** Lifts pure code that can raise. *)
Definition lift {A} (o : outcome A) : M A := λ env w, (o, w).

(** [try: m  except Exception as e: h e] *)
Definition try_except {A} (m : M A) (h : exn → M A) : M A := λ env w,
  match m env w with
  | (Return a, w1) => (Return a, w1)
  | (Raise e, w1) => h e env w1
  end.

(** [settings] *)
Definition get_settings : M Settings := λ env w, (Return (settings env), w).

(** [datetime.utcnow()] *)
Definition utcnow : M Z := λ env w, (Return (clock env (ticks w)), step w).

(** A call into the database driver: it fails when the outside says so,
    and acts on the collections otherwise. *)
Definition db_call {A} (act : World → A * World) : M A := λ env w,
  match fault env (ticks w) with
  | Some msg => (Raise (PyError "PyMongoError" msg), step w)
  | None => let '(a, w1) := act (step w) in (Return a, w1)
  end.

(** A call over the network: the attempt is traffic whether or not it
    fails. *)
Definition net_call (cls : string) (ev : net_event) : M nat := λ env w,
  let w1 := set_network (network w ++ [ev]) (step w) in
  match fault env (ticks w) with
  | Some msg => (Raise (PyError cls msg), w1)
  | None => (Return (ticks w), w1)
  end.

(** ** [bson.ObjectId] *)

Definition hex_digit (c : ascii) : option N :=
  let n := N_of_ascii c in
  if (48 <=? n)%N && (n <=? 57)%N then Some (n - 48)%N
  else if (97 <=? n)%N && (n <=? 102)%N then Some (n - 87)%N
  else if (65 <=? n)%N && (n <=? 70)%N then Some (n - 55)%N
  else None.

(** ASCII whitespace, as [bytes.fromhex] skips it: tab, line feed,
    vertical tab, form feed, carriage return and space. *)
Definition is_space (c : ascii) : bool :=
  let n := N_of_ascii c in
  ((9 <=? n)%N && (n <=? 13)%N) || (n =? 32)%N.

(** [bytes.fromhex(s)]: the bytes written as pairs of hexadecimal digits;
    whitespace may stand between two pairs, not inside one. [None] is the
    [ValueError]. *)
Fixpoint fromhex (s : string) : option (list N) :=
  match s with
  | EmptyString => Some []
  | String c s' =>
    if is_space c then fromhex s'
    else
      match hex_digit c, s' with
      | Some top, String c' s'' =>
        match hex_digit c' with
        | Some bot => cons (16 * top + bot)%N <$> fromhex s''
        | None => None
        end
      | _, _ => None
      end
  end.

(** The number a byte string is, most significant byte first. *)
Definition big_endian (bs : list N) : N :=
  fold_left (λ acc b, 256 * acc + b)%N bs 0%N.

(** The key an id has in the collections below. An [ObjectId] is equal to
    another when their byte strings are; twelve bytes are keyed by their
    number, and the shorter byte strings a 24-character string with
    whitespace gives are set apart by their length, so that none of them is
    the key of a twelve-byte id. *)
Definition oid_key (bs : list N) : N :=
  (big_endian bs + 2 ^ 96 * N.of_nat (12 - length bs))%N.

(** [ObjectId(s)] on a string: 24 characters that [bytes.fromhex] accepts,
    or [InvalidId]. *)
Definition ObjectId (s : string) : outcome N :=
  if (String.length s =? 24)%nat then
    match fromhex s with
    | Some bs => Return (oid_key bs)
    | None => Raise (PyError "InvalidId" s)
    end
  else Raise (PyError "InvalidId" s).

(** [ObjectId(x)] on a stored field: a string goes through the check
    above, and on null the constructor makes up a new id. *)
Definition ObjectId_of (x : option string) : M N :=
  match x with
  | Some s => lift (ObjectId s)
  | None => λ env w, (Return (generated_id env (ticks w)), step w)
  end.

(** ** The collections ([backend/database.py] hands out the handle) *)

Module db.

Definition find_one_contact (oid : N) : M (option Contact) :=
  db_call (λ w, (contacts w !! oid, w)).

Definition find_one_template (oid : N) : M (option TemplateDoc) :=
  db_call (λ w, (templates w !! oid, w)).

Definition find_one_campaign (oid : N) : M (option CampaignDoc) :=
  db_call (λ w, (campaigns w !! oid, w)).

(** [update_one({"_id": oid}, {"$set": ...})]: no document, no change. *)
Definition update_one_campaign (oid : N) (set : CampaignDoc → CampaignDoc) : M unit :=
  db_call (λ w, (tt, set_campaigns (alter set oid (campaigns w)) w)).

Definition update_one_template (oid : N) (set : TemplateDoc → TemplateDoc) : M unit :=
  db_call (λ w, (tt, set_templates (alter set oid (templates w)) w)).

(** [insert_one]: the driver picks an [_id] no document has. *)
Definition insert_one_template (t : TemplateDoc) : M N :=
  db_call (λ w, let oid := fresh (dom (templates w)) in
                (oid, set_templates (<[oid := t]> (templates w)) w)).

Definition insert_one_email_log (row : EmailLog) : M unit :=
  db_call (λ w, (tt, set_email_logs (email_logs w ++ [row]) w)).

Definition insert_one_campaign (c : CampaignDoc) : M N :=
  db_call (λ w, let oid := fresh (dom (campaigns w)) in
                (oid, set_campaigns (<[oid := c]> (campaigns w)) w)).

(** [delete_one({"_id": oid})]; the answer is [deleted_count]. *)
Definition delete_one_campaign (oid : N) : M nat :=
  db_call (λ w, (match campaigns w !! oid with Some _ => 1%nat | None => 0%nat end,
                 set_campaigns (delete oid (campaigns w)) w)).

Definition delete_one_template (oid : N) : M nat :=
  db_call (λ w, (match templates w !! oid with Some _ => 1%nat | None => 0%nat end,
                 set_templates (delete oid (templates w)) w)).

End db.

(** ** [backend/services/email_sender.py] *)

Module AsyncEmailSender.

Record t : Type := mk {
  host : string;
  port : Z;
  username : string;
  password : string;
  use_tls : bool;
  from_email : string;
}.

(** [x or y] on strings *)
Definition str_or (x : option string) (y : string) : string :=
  if truthy x then default y x else y.

(** [AsyncEmailSender()]: every argument left out, so every field comes
    from the settings. *)
Definition init : M t :=
  s ← get_settings;
  mret (mk (smtp_host s) (smtp_port s) (smtp_username s) (smtp_password s)
           (smtp_use_tls s) (str_or (smtp_from_email s) (smtp_username s))).

(** Leaving a [with smtplib.SMTP(...)] block sends QUIT, also when the body
    raised; an exception of the QUIT replaces the body's. *)
Definition quit_after (body : M unit) : M unit := λ env w,
  match body env w with
  | (Return _, w1) =>
      (net_call "SMTPException" SmtpQuit;; mret tt) env w1
  | (Raise e, w1) =>
      (net_call "SMTPException" SmtpQuit;; raise e) env w1
  end.

(** [with smtplib.SMTP(host, port) as server: body] *)
Definition with_SMTP (host : string) (port : Z) (body : M unit) : M unit :=
  net_call "SMTPException" (SmtpConnect host port);;
  quit_after body.

(** The transmission proper: lines 65-81 of the source. *)
Definition transmit (self : t) (to_email subject body : string) (html : bool)
  : M unit :=
  let mime_type := if html then "html" else "plain" in
  let msg := mkMessage subject (from_email self) to_email body mime_type in
  with_SMTP (host self) (port self)
    ((if use_tls self
      then net_call "SMTPException" SmtpStartTls;; mret tt
      else mret tt);;
     net_call "SMTPAuthenticationError" (SmtpLogin (username self) (password self));;
     net_call "SMTPException" (SmtpSendMessage msg);;
     mret tt).

Definition _log_email (campaign_id contact_id template_id : option string)
    (subject body : string) (status : EmailStatus)
    (error_message : option string) : M unit :=
  try_except
    (sent_at ← (if decide (status = EMAIL_SENT)
                then t ← utcnow; mret (Some t)
                else mret None);
     created_at ← utcnow;
     db.insert_one_email_log
       (mkEmailLog campaign_id contact_id template_id subject body status
                   sent_at error_message created_at))
    (λ e, mret tt).

Definition send_email (self : t) (to_email subject body : string)
    (html log_to_db : bool) (campaign_id contact_id template_id : option string)
  : M (bool * option string) :=
  try_except
    (transmit self to_email subject body html;;
     (if log_to_db && truthy campaign_id && truthy contact_id
      then _log_email campaign_id contact_id template_id subject body
                      EMAIL_SENT None
      else mret tt);;
     mret (true, None))
    (λ e,
     let error_msg := exn_str e in
     (if log_to_db && truthy campaign_id && truthy contact_id
      then _log_email campaign_id contact_id template_id subject body
                      EMAIL_FAILED (Some error_msg)
      else mret tt);;
     mret (false, Some error_msg)).

(** [test_connection]: connect, STARTTLS, login, leave; [False] on any
    exception. *)
Definition test_connection (self : t) : M bool :=
  try_except
    (with_SMTP (host self) (port self)
       ((if use_tls self
         then net_call "SMTPException" SmtpStartTls;; mret tt
         else mret tt);;
        net_call "SMTPAuthenticationError" (SmtpLogin (username self) (password self));;
        mret tt);;
     mret true)
    (λ e, mret false).

End AsyncEmailSender.

Module DryRunEmailSender.

Record t : Type := mk {
  from_email : string;
}.

(** [DryRunEmailSender()] *)
Definition init : M t := mret (mk "test@example.com").

Definition send_email (self : t) (to_email subject body : string)
    (html log_to_db : bool) (campaign_id contact_id template_id : option string)
  : M (bool * option string) :=
  (if log_to_db && truthy campaign_id && truthy contact_id
   then
     try_except
       (sent_at ← utcnow;
        created_at ← utcnow;
        db.insert_one_email_log
          (mkEmailLog campaign_id contact_id template_id subject
                      (slice_to 500 body) EMAIL_SENT (Some sent_at) None
                      created_at))
       (λ e, mret tt)
   else mret tt);;
  mret (true, None).

Definition test_connection (self : t) : M bool := mret true.

End DryRunEmailSender.

(** [email_sender] in the campaign runner is one or the other. *)
Inductive email_sender : Type :=
  | RealSender (s : AsyncEmailSender.t)
  | NullSender (s : DryRunEmailSender.t).

Definition email_sender_send_email (self : email_sender)
    (to_email subject body : string) (html log_to_db : bool)
    (campaign_id contact_id template_id : option string)
  : M (bool * option string) :=
  match self with
  | RealSender s =>
      AsyncEmailSender.send_email s to_email subject body html log_to_db
        campaign_id contact_id template_id
  | NullSender s =>
      DryRunEmailSender.send_email s to_email subject body html log_to_db
        campaign_id contact_id template_id
  end.

(** ** [backend/services/ollama_service.py] *)

Module OllamaService.

Record t : Type := mk {
  model : string;
  host : option string;
}.

(** [OllamaService()] *)
Definition init : M t :=
  s ← get_settings;
  mret (mk (ollama_model s) (ollama_host s)).

(** [response["message"]["content"]] of the chat call numbered [n] *)
Definition chat_content (n : nat) : M string := λ env w, (Return (llm_reply env n), w).

(** [generate_email]. The prompt is a function of the template and the
    recipient data, which is what the traffic records; the answer is
    whatever the service says. *)
Definition generate_email (self : t) (template : string)
    (recipient_data : gmap string pyval) : M string :=
  try_except
    (n ← net_call "ResponseError" (OllamaChat (model self) template recipient_data);
     chat_content n)
    (λ e, raise (PyError "RuntimeError" ("Failed to generate email: " +:+ exn_str e))).

End OllamaService.

(** ** [backend/routes/templates.py] *)

Module templates_routes.

(** [{"$set": update_data}] on a template document. *)
Definition set_fields (update_data : TemplateUpdate) (updated_at : Z)
    (d : TemplateDoc) : TemplateDoc :=
  mkTemplate
    (default (t_name d) (tu_name update_data))
    (default (t_subject d) (tu_subject update_data))
    (default (t_content d) (tu_content update_data))
    (match tu_description update_data with
     | Some x => Some x
     | None => t_description d
     end)
    (default (t_placeholders d) (tu_placeholders update_data))
    (default (t_use_llm d) (tu_use_llm update_data))
    (t_created_at d)
    updated_at.

(** [update_data["placeholders"] = ...] *)
Definition with_placeholders (p : list string) (u : TemplateUpdate) : TemplateUpdate :=
  mkTemplateUpdate (tu_name u) (tu_subject u) (tu_content u) (tu_description u)
                   (Some p) (tu_use_llm u).

(** [doc["_id"] = str(doc["_id"])] on what [find_one] gave *)
Definition response_of {A} (oid : N) (doc : option A) : M (N * A) :=
  match doc with
  | Some d => mret (oid, d)
  | None => raise (PyError "TypeError" "'NoneType' object does not support item assignment")
  end.

Definition create_template (template : TemplateCreate) : M (N * TemplateDoc) :=
  let placeholders := TemplateService.extract_placeholders (tc_content template) in
  created_at ← utcnow;
  updated_at ← utcnow;
  inserted_id ← db.insert_one_template
    (mkTemplate (tc_name template) (tc_subject template) (tc_content template)
                (tc_description template) placeholders (tc_use_llm template)
                created_at updated_at);
  created_template ← db.find_one_template inserted_id;
  response_of inserted_id created_template.

Definition update_template (template_id : string) (template_update : TemplateUpdate)
  : M (N * TemplateDoc) :=
  existing ← try_except
    (oid ← lift (ObjectId template_id); db.find_one_template oid)
    (λ e, raise (HTTPException 400 "Invalid template ID"));
  match existing with
  | None => raise (HTTPException 404 "Template not found")
  | Some _ =>
    let update_data :=
      match tu_content template_update with
      | Some content =>
          with_placeholders (TemplateService.extract_placeholders content)
                            template_update
      | None => template_update
      end in
    updated_at ← utcnow;
    oid ← lift (ObjectId template_id);
    db.update_one_template oid (set_fields update_data updated_at);;
    oid' ← lift (ObjectId template_id);
    updated_template ← db.find_one_template oid';
    response_of oid' updated_template
  end.

(** The document comes back under the [_id] it was looked up with. *)
Definition get_template (template_id : string) : M (N * TemplateDoc) :=
  '(oid, template) ← try_except
    (oid ← lift (ObjectId template_id);
     template ← db.find_one_template oid;
     mret (oid, template))
    (λ e, raise (HTTPException 400 "Invalid template ID"));
  match template with
  | None => raise (HTTPException 404 "Template not found")
  | Some _ => response_of oid template
  end.

Definition delete_template (template_id : string) : M unit :=
  deleted_count ← try_except
    (oid ← lift (ObjectId template_id); db.delete_one_template oid)
    (λ e, raise (HTTPException 400 "Invalid template ID"));
  if (deleted_count =? 0)%nat
  then raise (HTTPException 404 "Template not found")
  else mret tt.

End templates_routes.

(** ** [backend/routes/campaigns.py] *)

Module campaigns_routes.

(** [doc["key"]] on what [find_one] gave *)
Definition subscript {A} (doc : option A) : M A :=
  match doc with
  | Some d => mret d
  | None => raise (PyError "TypeError" "'NoneType' object is not subscriptable")
  end.

(** [{"status": IN_PROGRESS, "started_at": ..., "updated_at": ...}] *)
Definition set_started (started updated : Z) (c : CampaignDoc) : CampaignDoc :=
  mkCampaign (c_name c) (template_id c) (contact_ids c) (c_description c)
             (scheduled_at c) (Some IN_PROGRESS) (created_at c) updated
             (Some started) (completed_at c)
             (total_emails c) (sent_count c) (failed_count c).

(** [{"status": COMPLETED, "sent_count": ..., "failed_count": ...,
      "completed_at": ..., "updated_at": ...}] *)
Definition set_completed (sent failed completed updated : Z) (c : CampaignDoc)
  : CampaignDoc :=
  mkCampaign (c_name c) (template_id c) (contact_ids c) (c_description c)
             (scheduled_at c) (Some COMPLETED) (created_at c) updated
             (started_at c) (Some completed)
             (total_emails c) sent failed.

(** [{"status": FAILED, "updated_at": ...}] *)
Definition set_failed (updated : Z) (c : CampaignDoc) : CampaignDoc :=
  mkCampaign (c_name c) (template_id c) (contact_ids c) (c_description c)
             (scheduled_at c) (Some FAILED) (created_at c) updated
             (started_at c) (completed_at c)
             (total_emails c) (sent_count c) (failed_count c).

(** [background_tasks.add_task(_send_campaign_emails, campaign_id=..., dry_run=...)] *)
Definition add_task (campaign_id : string) (dry : bool) : M unit := λ env w,
  (Return tt, set_background_tasks (background_tasks w ++ [(campaign_id, dry)]) w).

Definition send_campaign (campaign_id : string) (send_request : CampaignSendRequest)
  : M SendResponse :=
  campaign ← try_except
    (oid ← lift (ObjectId campaign_id); db.find_one_campaign oid)
    (λ e, raise (HTTPException 400 "Invalid campaign ID"));
  match campaign with
  | None => raise (HTTPException 404 "Campaign not found")
  | Some campaign =>
    if negb (bool_decide (status campaign ∈ [Some DRAFT; Some PAUSED])) then
      raise (HTTPException 400
               ("Cannot send campaign with status: " +:+ status_str (status campaign)))
    else
      oid ← lift (ObjectId campaign_id);
      started ← utcnow;
      updated ← utcnow;
      db.update_one_campaign oid (set_started started updated);;
      add_task campaign_id (dry_run send_request);;
      mret (mkSendResponse "Campaign started" campaign_id (dry_run send_request))
  end.

(** The dictionary built for one recipient: the three reserved keys, then
    the custom fields, which win on a clash. The key [custom_fields] is in
    every contact document, so the default of [.get] is never used; on a
    stored null the [**] of the dict display raises. *)
Definition recipient_data_of (contact : Contact) : outcome (gmap string pyval) :=
  match custom_fields contact with
  | Some fields =>
      Return ((PyStr <$> fields) ∪
              {[ "email" := PyStr (email contact);
                 "first_name" := first_name contact;
                 "last_name" := last_name contact ]})
  | None => Raise (PyError "TypeError" "'NoneType' object is not a mapping")
  end.

(** The [try] block of one iteration of the loop. The tallies are the
    runner's locals [sent_count] and [failed_count]; every path changes
    them in its last statement, so the handler below sees them as they
    were when the iteration began. *)
Definition send_one (email_sender : email_sender)
    (ollama_service : option OllamaService.t)
    (campaign_id : string) (campaign : CampaignDoc) (template : TemplateDoc)
    (contact_id : string) (counts : Z * Z) : M (Z * Z) :=
  oid ← lift (ObjectId contact_id);
  contact ← db.find_one_contact oid;
  match contact with
  | None => mret (counts.1, counts.2 + 1)%Z          (* continue *)
  | Some contact =>
    recipient_data ← lift (recipient_data_of contact);
    body ← match ollama_service with
           | Some svc =>
               OllamaService.generate_email svc (t_content template) recipient_data
           | None =>
               lift (TemplateService.render_template (t_content template) recipient_data)
           end;
    '(success, error) ← email_sender_send_email email_sender
        (email contact) (t_subject template) body false true
        (Some campaign_id) (Some contact_id) (template_id campaign);
    if (success : bool)
    then mret (counts.1 + 1, counts.2)%Z
    else mret (counts.1, counts.2 + 1)%Z
  end.

(** [for contact_id in campaign["contact_ids"]: try: ... except Exception:
    failed_count += 1] *)
Fixpoint send_loop (email_sender : email_sender)
    (ollama_service : option OllamaService.t)
    (campaign_id : string) (campaign : CampaignDoc) (template : TemplateDoc)
    (ids : list string) (counts : Z * Z) : M (Z * Z) :=
  match ids with
  | [] => mret counts
  | contact_id :: rest =>
    counts' ← try_except
      (send_one email_sender ollama_service campaign_id campaign template
                contact_id counts)
      (λ e, mret (counts.1, counts.2 + 1)%Z);
    send_loop email_sender ollama_service campaign_id campaign template
              rest counts'
  end.

(** The outer [try] block of [_send_campaign_emails]. *)
Definition run_campaign (campaign_id : string) (dry : bool) : M unit :=
  oid ← lift (ObjectId campaign_id);
  campaign ← db.find_one_campaign oid;
  campaign ← subscript campaign;
  tid ← ObjectId_of (template_id campaign);
  template ← db.find_one_template tid;
  email_sender ← (if dry
                  then s ← DryRunEmailSender.init; mret (NullSender s)
                  else s ← AsyncEmailSender.init; mret (RealSender s));
  template ← match template with
             | Some t => mret t
             | None => raise (PyError "AttributeError"
                                "'NoneType' object has no attribute 'get'")
             end;
  ollama_service ← (if t_use_llm template
                    then s ← OllamaService.init; mret (Some s)
                    else mret None);
  '(sent_count, failed_count) ← send_loop email_sender ollama_service
      campaign_id campaign template (contact_ids campaign) (0, 0)%Z;
  oid ← lift (ObjectId campaign_id);
  completed ← utcnow;
  updated ← utcnow;
  db.update_one_campaign oid (set_completed sent_count failed_count completed updated).

Definition _send_campaign_emails (campaign_id : string) (dry : bool) : M unit :=
  try_except
    (run_campaign campaign_id dry)
    (λ e,
     oid ← lift (ObjectId campaign_id);
     updated ← utcnow;
     db.update_one_campaign oid (set_failed updated)).

(** [doc["_id"] = str(doc["_id"])], then [CampaignResponse] on the fields
    of the document: the model wants a name, a template id and a status, so
    that a document holding null in one of them is a [ValidationError]. *)
Definition campaign_response (oid : N) (doc : option CampaignDoc)
  : M (N * CampaignDoc) :=
  match doc with
  | Some d =>
      match c_name d, template_id d, status d with
      | Some _, Some _, Some _ => mret (oid, d)
      | _, _, _ => raise (PyError "ValidationError" "CampaignResponse")
      end
  | None => raise (PyError "TypeError"
                     "'NoneType' object does not support item assignment")
  end.

(** The validation loop of [create_campaign]. The 404 is raised inside the
    [try], so the [except Exception] clause catches it too. *)
Fixpoint validate_contacts (contact_ids : list string) : M (list Contact) :=
  match contact_ids with
  | [] => mret []
  | contact_id :: rest =>
    contact ← try_except
      (oid ← lift (ObjectId contact_id);
       contact ← db.find_one_contact oid;
       match contact with
       | None => raise (HTTPException 404
                          ("Contact " +:+ contact_id +:+ " not found"))
       | Some contact => mret contact
       end)
      (λ e, raise (HTTPException 400 ("Invalid contact ID: " +:+ contact_id)));
    contact_objects ← validate_contacts rest;
    mret (contact :: contact_objects)
  end.

Definition create_campaign (campaign : CampaignCreate) : M (N * CampaignDoc) :=
  template ← try_except
    (tid ← lift (ObjectId (cc_template_id campaign)); db.find_one_template tid)
    (λ e, raise (HTTPException 400 "Invalid template ID"));
  match template with
  | None => raise (HTTPException 404 "Template not found")
  | Some _ =>
    validate_contacts (cc_contact_ids campaign);;
    created_at ← utcnow;
    updated_at ← utcnow;
    inserted_id ← db.insert_one_campaign
      (mkCampaign (Some (cc_name campaign)) (Some (cc_template_id campaign))
                  (cc_contact_ids campaign) (cc_description campaign)
                  (cc_scheduled_at campaign) (Some DRAFT) created_at updated_at
                  None None
                  (Z.of_nat (length (cc_contact_ids campaign))) 0 0);
    created_campaign ← db.find_one_campaign inserted_id;
    campaign_response inserted_id created_campaign
  end.

(** The document comes back under the [_id] it was looked up with. *)
Definition get_campaign (campaign_id : string) : M (N * CampaignDoc) :=
  '(oid, campaign) ← try_except
    (oid ← lift (ObjectId campaign_id);
     campaign ← db.find_one_campaign oid;
     mret (oid, campaign))
    (λ e, raise (HTTPException 400 "Invalid campaign ID"));
  match campaign with
  | None => raise (HTTPException 404 "Campaign not found")
  | Some _ => campaign_response oid campaign
  end.

(** [{"$set": update_data}] on a campaign document. [total_emails] is in
    [update_data] exactly when [contact_ids] is; with [contact_ids] set to
    null [len] has raised and there is no [$set]. *)
Definition set_update (update_data : CampaignUpdate) (updated_at : Z)
    (c : CampaignDoc) : CampaignDoc :=
  mkCampaign
    (set_nullable (cu_name update_data) (c_name c))
    (set_nullable (cu_template_id update_data) (template_id c))
    (match cu_contact_ids update_data with
     | SetTo ids => ids
     | _ => contact_ids c
     end)
    (set_nullable (cu_description update_data) (c_description c))
    (set_nullable (cu_scheduled_at update_data) (scheduled_at c))
    (set_nullable (cu_status update_data) (status c))
    (created_at c)
    updated_at
    (started_at c)
    (completed_at c)
    (match cu_contact_ids update_data with
     | SetTo ids => Z.of_nat (length ids)
     | _ => total_emails c
     end)
    (sent_count c)
    (failed_count c).

Definition update_campaign (campaign_id : string) (campaign_update : CampaignUpdate)
  : M (N * CampaignDoc) :=
  existing ← try_except
    (oid ← lift (ObjectId campaign_id); db.find_one_campaign oid)
    (λ e, raise (HTTPException 400 "Invalid campaign ID"));
  match existing with
  | None => raise (HTTPException 404 "Campaign not found")
  | Some existing =>
    if bool_decide (status existing ∈ [Some IN_PROGRESS; Some COMPLETED]) then
      raise (HTTPException 400
               "Cannot update campaign that is in progress or completed")
    else
      (* update_data["total_emails"] = len(update_data["contact_ids"]) *)
      match cu_contact_ids campaign_update with
      | SetNull => raise (PyError "TypeError" "object of type 'NoneType' has no len()")
      | _ => mret tt
      end;;
      updated_at ← utcnow;
      oid ← lift (ObjectId campaign_id);
      db.update_one_campaign oid (set_update campaign_update updated_at);;
      oid' ← lift (ObjectId campaign_id);
      updated_campaign ← db.find_one_campaign oid';
      campaign_response oid' updated_campaign
  end.

Definition delete_campaign (campaign_id : string) : M unit :=
  campaign ← try_except
    (oid ← lift (ObjectId campaign_id); db.find_one_campaign oid)
    (λ e, raise (HTTPException 400 "Invalid campaign ID"));
  match campaign with
  | None => raise (HTTPException 404 "Campaign not found")
  | Some campaign =>
    if bool_decide (status campaign = Some IN_PROGRESS) then
      raise (HTTPException 400 "Cannot delete campaign that is in progress")
    else
      oid ← lift (ObjectId campaign_id);
      db.delete_one_campaign oid;;
      mret tt
  end.

(** The recipient resolver of the specification: the contacts the
    references still point to, in reference order, the others skipped. The
    source has no such function; the loop above looks each reference up
    itself. *)
Definition resolve (w : World) (refs : list string) : list Contact :=
  omap (λ ref, match ObjectId ref with
               | Return oid => contacts w !! oid
               | Raise _ => None
               end) refs.

End campaigns_routes.

(** * Vocabulary of the specification *)

(** ** Placeholders of a template

    A template is a sequence of segments: literal characters, the escape
    [$$], the placeholders [$name] and [${name}], and a [$] that starts
    none of these. *)

Inductive segment : Type :=
  | Lit (c : ascii)
  | Escaped
  | Named (name : string)
  | Braced (name : string)
  | Lone.

(** The text of a segment as it stands in the template. *)
Definition source (s : segment) : string :=
  match s with
  | Lit c => String c ""
  | Escaped => "$$"
  | Named name => "$" +:+ name
  | Braced name => "${" +:+ name +:+ "}"
  | Lone => "$"
  end.

(** What a segment becomes under the variables [V]: a placeholder whose
    name is a key becomes the value, any other placeholder stays as it is
    written. *)
Definition rendered (V : gmap string string) (s : segment) : string :=
  match s with
  | Lit c => String c ""
  | Escaped => "$"
  | Named name | Braced name =>
      match V !! name with
      | Some v => v
      | None => source s
      end
  | Lone => "$"
  end.

Fixpoint concat_strings (l : list string) : string :=
  match l with
  | [] => ""
  | s :: l' => s +:+ concat_strings l'
  end.

Definition is_identifier (s : string) : Prop := match_id s = Some s.

(** No identifier character at the head of [s]. *)
Definition ends_identifier (s : string) : Prop :=
  match s with
  | String c _ => is_id_char c = false
  | EmptyString => True
  end.

(** A literal is never the delimiter and a placeholder name is an
    identifier. *)
Definition segment_ok (s : segment) : Prop :=
  match s with
  | Lit c => c ≠ "$"%char
  | Named name | Braced name => is_identifier name
  | Escaped | Lone => True
  end.

(** The segment a match of the template pattern stands for. *)
Definition segment_of (mo : Template.match_obj) : segment :=
  match Template.escaped mo, Template.named mo, Template.braced mo with
  | Some _, _, _ => Escaped
  | None, Some name, _ => Named name
  | None, None, Some name => Braced name
  | None, None, None => Lone
  end.

(** The segments of a template, found by the scan [Template.sub_from]
    makes: at each [$] outside a match the pattern is tried. *)
Fixpoint segments_from (skip : nat) (s : string) : list segment :=
  match s with
  | EmptyString => []
  | String c rest =>
    match skip with
    | S k => segments_from k rest
    | O =>
      if Ascii.eqb c "$" then
        let mo := Template.match_at rest in
        segment_of mo :: segments_from (String.length (Template.group mo) - 1) rest
      else Lit c :: segments_from 0 rest
    end
  end.

Definition segments (template : string) : list segment := segments_from 0 template.

(** ** Runs of the campaign runner *)

(** A run terminates normally when the outer [try] block of
    [_send_campaign_emails] runs to its end. *)
Definition terminates_normally (campaign_id : string) (dry : bool)
    (env : Env) (w : World) : Prop :=
  (campaigns_routes.run_campaign campaign_id dry env w).1 = Return tt.

(** The SMTP part of the traffic. *)
Definition is_smtp (ev : net_event) : bool :=
  match ev with
  | OllamaChat _ _ _ => false
  | _ => true
  end.

(** ** What a piece of code leaves alone *)

(** [frame R m]: whatever the outside does, running [m] takes a world to
    one related to it by [R]. *)
Definition frame (R : relation World) {A} (m : M A) : Prop :=
  ∀ env w, R w (m env w).2.

(** The three collections the runner only reads. *)
Definition same_documents (w w' : World) : Prop :=
  contacts w' = contacts w ∧ templates w' = templates w ∧
  campaigns w' = campaigns w.

(** No row written. *)
Definition same_logs (w w' : World) : Prop :=
  email_logs w' = email_logs w.

(** Nothing sent over the network. *)
Definition same_network (w w' : World) : Prop :=
  network w' = network w.

(** No new SMTP traffic. *)
Definition same_smtp (w w' : World) : Prop :=
  filter (λ ev, is_smtp ev = true) (network w')
  = filter (λ ev, is_smtp ev = true) (network w).

(** ** Log rows *)

(** The row a successful send writes for a campaign recipient, given the
    two clock readings taken while building it. *)
Definition sent_row (campaign_id contact_id template_id : option string)
    (subject body : string) (sent_at created_at : Z) : EmailLog :=
  mkEmailLog campaign_id contact_id template_id subject body EMAIL_SENT
             (Some sent_at) None created_at.

(** A body of [n] characters. *)
Fixpoint filler (n : nat) : string :=
  match n with
  | O => ""
  | S n' => String "x" (filler n')
  end.

(** ** More vocabulary *)

(** The names of the placeholders among the segments of a template. *)
Definition placeholder_names (segs : list segment) : list string :=
  omap (λ seg, match seg with
               | Named name | Braced name => Some name
               | _ => None
               end) segs.

(** No delimiter in the text. *)
Fixpoint dollar_free (s : string) : Prop :=
  match s with
  | EmptyString => True
  | String c s' => c ≠ "$"%char ∧ dollar_free s'
  end.

(** No delimiter among the first [n] characters. *)
Fixpoint prefix_dollar_free (n : nat) (s : string) : Prop :=
  match n, s with
  | S k, String c s' => c ≠ "$"%char ∧ prefix_dollar_free k s'
  | _, _ => True
  end.

(** The rendering of a template under a dictionary of Python values: each
    value goes through [str]. *)
Definition render_body (template : string) (variables : gmap string pyval) : string :=
  concat_strings (rendered (py_str <$> variables) <$> segments template).

(** The database, the mail server and the text-generation service never
    fail. *)
Definition healthy (env : Env) : Prop := ∀ n, fault env n = None.

(** [total_emails] is the number of contact references, for every stored
    campaign. *)
Definition totals_consistent (w : World) : Prop :=
  ∀ oid c, campaigns w !! oid = Some c →
           total_emails c = Z.of_nat (length (contact_ids c)).

(** The references a run can serve, each with the dictionary built for
    the contact it resolves to: the reference is an id, a contact has that
    id, and the custom fields of the contact are a dictionary. *)
Definition served (w : World) (refs : list string)
  : list (string * gmap string pyval) :=
  omap (λ ref, match ObjectId ref with
               | Return oid =>
                   match contacts w !! oid with
                   | Some contact =>
                       match campaigns_routes.recipient_data_of contact with
                       | Return data => Some (ref, data)
                       | Raise _ => None
                       end
                   | None => None
                   end
               | Raise _ => None
               end) refs.

(** What the log shows of a row, clock readings apart. *)
Definition row_summary (row : EmailLog)
  : option string * option string * string * EmailStatus :=
  (log_campaign_id row, log_contact_id row, log_body row, log_status row).

(** Nothing is written and nothing is sent: the two worlds differ at most
    in the number of interactions. *)
Definition untouched (w w' : World) : Prop :=
  contacts w' = contacts w ∧ templates w' = templates w
  ∧ campaigns w' = campaigns w ∧ email_logs w' = email_logs w
  ∧ network w' = network w ∧ background_tasks w' = background_tasks w.

(** Running a piece of code cannot break [totals_consistent]. *)
Definition keeps_totals (w w' : World) : Prop :=
  totals_consistent w → totals_consistent w'.

(** What a dry run is expected to log for a served reference: the
    campaign, the reference, the first 500 characters of the rendered
    template, status sent. *)
Definition dry_summary (campaign_id : string) (template : TemplateDoc)
    (pair : string * gmap string pyval)
  : option string * option string * string * EmailStatus :=
  (Some campaign_id, Some pair.1,
   slice_to 500 (render_body (t_content template) pair.2),
   EMAIL_SENT).

(** The messages handed to the mail server, among the traffic. *)
Definition messages_sent (w : World) : list Message :=
  omap (λ ev, match ev with
              | SmtpSendMessage msg => Some msg
              | _ => None
              end) (network w).

(** No message handed to the mail server and no log row written. *)
Definition nothing_delivered (w w' : World) : Prop :=
  messages_sent w' = messages_sent w ∧ email_logs w' = email_logs w.

(** How many rows of the log carry the status [st]. *)
Definition rows_with (st : EmailStatus) (w : World) : nat :=
  length (filter (λ row, log_status row = st) (email_logs w)).

(** From one world to a later one the log got at most one more row, and
    such a row has status [st]. *)
Definition at_most_one_row (st : EmailStatus) (w w' : World) : Prop :=
  email_logs w' = email_logs w
  ∨ ∃ row, email_logs w' = (email_logs w ++ [row])%list ∧ log_status row = st.

(** A campaign document [CampaignResponse] accepts: none of the name, the
    template id and the status is null. *)
Definition presentable (c : CampaignDoc) : Prop :=
  is_Some (c_name c) ∧ is_Some (template_id c) ∧ is_Some (status c).

(** ** The histories of the campaigns collection *)

(** A request to one of the routes that write the campaigns collection. *)
Inductive campaign_request : Type :=
  | CreateCampaign (campaign : CampaignCreate)
  | UpdateCampaign (campaign_id : string) (campaign_update : CampaignUpdate)
  | DeleteCampaign (campaign_id : string)
  | SendCampaign (campaign_id : string) (send_request : CampaignSendRequest).

(** The world a request leaves, whatever it answers. *)
Definition after_request (r : campaign_request) (env : Env) (w : World) : World :=
  match r with
  | CreateCampaign campaign =>
      (campaigns_routes.create_campaign campaign env w).2
  | UpdateCampaign campaign_id campaign_update =>
      (campaigns_routes.update_campaign campaign_id campaign_update env w).2
  | DeleteCampaign campaign_id =>
      (campaigns_routes.delete_campaign campaign_id env w).2
  | SendCampaign campaign_id send_request =>
      (campaigns_routes.send_campaign campaign_id send_request env w).2
  end.

(** FastAPI runs a task that [add_task] has added once, after the
    response: the task leaves the list and [_send_campaign_emails] runs
    with the arguments it was added with. *)
Definition after_task (pre post : list (string * bool)) (task : string * bool)
    (env : Env) (w : World) : World :=
  (campaigns_routes._send_campaign_emails task.1 task.2 env
     (set_background_tasks (pre ++ post) w)).2.

(** The worlds the program gets to from a database without campaigns. A
    request is one step and a background run is one step: two of them are
    not interleaved inside their awaits. The requests to the other routes
    (contacts, templates, email logs, dashboard) write no campaign and add
    no task; a restart of the process loses the tasks not yet run. *)
Inductive reachable : World → Prop :=
  | reachable_start w :
      campaigns w = ∅ → background_tasks w = [] → reachable w
  | reachable_request r env w :
      reachable w → reachable (after_request r env w)
  | reachable_task pre task post env w :
      reachable w →
      background_tasks w = (pre ++ task :: post)%list →
      reachable (after_task pre post task env w)
  | reachable_elsewhere w w' :
      reachable w →
      campaigns w' = campaigns w →
      background_tasks w' = background_tasks w →
      reachable w'
  | reachable_restart w w' :
      reachable w →
      campaigns w' = campaigns w →
      background_tasks w' = [] →
      reachable w'.

(** Counters are written together with the status completed only. *)
Definition counters_fresh (w : World) : Prop :=
  ∀ oid c, campaigns w !! oid = Some c → status c ≠ Some COMPLETED →
           sent_count c = 0%Z ∧ failed_count c = 0%Z.

(** The ids of the campaigns whose run is still to come. *)
Definition task_oids (tasks : list (string * bool)) : list N :=
  omap (λ task : string * bool,
          match ObjectId task.1 with
          | Return oid => Some oid
          | Raise _ => None
          end) tasks.

(** A run still to come is the run of a campaign in progress. *)
Definition tasks_in_progress (w : World) : Prop :=
  ∀ task, task ∈ background_tasks w →
          ∃ oid c, ObjectId task.1 = Return oid
                   ∧ campaigns w !! oid = Some c
                   ∧ status c = Some IN_PROGRESS.

(** What every reachable world satisfies. *)
Definition run_invariant (w : World) : Prop :=
  counters_fresh w ∧ tasks_in_progress w ∧ NoDup (task_oids (background_tasks w)).

(** No task added, none run. *)
Definition same_tasks (w w' : World) : Prop :=
  background_tasks w' = background_tasks w.

(** ** Worlds and environments of the scenarios *)

(** The defaults of [backend/config.py]. *)
Definition default_settings : Settings :=
  mkSettings "smtp.gmail.com" 587 "" "" true None "llama2" None.

(** An outside where nothing fails; the clock reads the interaction number. *)
Definition quiet_env : Env :=
  mkEnv default_settings (λ n, Z.of_nat n) (λ _, None) (λ _, "generated body")
        (λ n, N.of_nat n).

(** An outside where exactly the interaction numbered [k] fails. *)
Definition failing_at (k : nat) (msg : string) : Env :=
  mkEnv default_settings (λ n, Z.of_nat n)
        (λ n, if (n =? k)%nat then Some msg else None)
        (λ _, "generated body") (λ n, N.of_nat n).

Definition ana : Contact :=
  mkContact "ana@example.com" (PyStr "Ana") PyNone (Some ∅) [] true.

(** The dictionary the runner builds for [ana]. *)
Definition ana_data : gmap string pyval :=
  {[ "email" := PyStr "ana@example.com";
     "first_name" := PyStr "Ana";
     "last_name" := PyNone ]}.

Definition bob : Contact :=
  mkContact "bob@example.com" (PyStr "Bob") (PyStr "Stone")
            (Some {[ "company" := "Acme" ]}) [] true.

(** A template as [create_template] stores it. *)
Definition welcome : TemplateDoc :=
  mkTemplate "welcome" "Hello" "Hi $first_name, from $company" None
             (TemplateService.extract_placeholders "Hi $first_name, from $company")
             false 0 0.

Definition welcome_llm : TemplateDoc :=
  mkTemplate "welcome" "Hello" "Hi $first_name, from $company" None
             (TemplateService.extract_placeholders "Hi $first_name, from $company")
             true 0 0.

(** An update request that sets nothing but the placeholder list. *)
Definition placeholders_only (p : list string) : TemplateUpdate :=
  mkTemplateUpdate None None None None (Some p) None.

Definition id_ana : string := "0000000000000000000000a1".
Definition id_gone : string := "0000000000000000000000a2".
Definition id_bob : string := "0000000000000000000000a3".
Definition id_template : string := "0000000000000000000000b1".
Definition id_campaign : string := "0000000000000000000000c1".

(** An id of 24 characters with whitespace between the pairs of digits. *)
Definition id_spaced : string := "00 00 00 00 00 00 00 00 ".

(** A campaign with three contact references. *)
Definition spring (st : CampaignStatus) (sent failed : Z) : CampaignDoc :=
  mkCampaign (Some "spring") (Some id_template) [id_ana; id_gone; id_bob] None None
             (Some st) 0 0 None None 3 sent failed.

(** The second contact of the campaign has been deleted. *)
Definition scenario_world (t : TemplateDoc) (c : CampaignDoc) : World :=
  mkWorld {[ 161%N := ana; 163%N := bob ]}
          {[ 177%N := t ]}
          {[ 193%N := c ]}
          [] [] [] 0.

(** [AsyncEmailSender()] under the default settings. *)
Definition default_sender : AsyncEmailSender.t :=
  AsyncEmailSender.mk "smtp.gmail.com" 587 "" "" true "".

Definition null_sender : DryRunEmailSender.t :=
  DryRunEmailSender.mk "test@example.com".

(** An outside where every interaction from the one numbered [k] on fails. *)
Definition failing_from (k : nat) (msg : string) : Env :=
  mkEnv default_settings (λ n, Z.of_nat n)
        (λ n, if (k <=? n)%nat then Some msg else None)
        (λ _, "generated body") (λ n, N.of_nat n).

(** The scenario world after [n] interactions. *)
Definition later_world (n : nat) : World :=
  mkWorld {[ 161%N := ana; 163%N := bob ]}
          {[ 177%N := welcome ]}
          {[ 193%N := spring IN_PROGRESS 0 0 ]}
          [] [] [] n.

(** The scenario world once [default_sender] has transmitted [msg]
    without a failure: five interactions, all of them SMTP traffic. *)
Definition transmitted_world (msg : Message) : World :=
  mkWorld {[ 161%N := ana; 163%N := bob ]}
          {[ 177%N := welcome ]}
          {[ 193%N := spring IN_PROGRESS 0 0 ]}
          []
          [SmtpConnect "smtp.gmail.com" 587; SmtpStartTls; SmtpLogin "" "";
           SmtpSendMessage msg; SmtpQuit]
          [] 5.

(** The world [later_world 3] once [default_sender] has tried to transmit
    and the login and the QUIT have failed. *)
Definition login_failed_world : World :=
  mkWorld {[ 161%N := ana; 163%N := bob ]}
          {[ 177%N := welcome ]}
          {[ 193%N := spring IN_PROGRESS 0 0 ]}
          []
          [SmtpConnect "smtp.gmail.com" 587; SmtpStartTls; SmtpLogin "" "";
           SmtpQuit]
          [] 7.

(** A contact stored without a first name, and one whose custom fields
    carry a key of their own called [email]. *)
Definition nameless : Contact :=
  mkContact "nn@example.com" PyNone PyNone (Some ∅) [] true.

Definition shadowed : Contact :=
  mkContact "real@example.com" (PyStr "Eve") PyNone
            (Some {[ "email" := "custom@example.com" ]}) [] true.

(** A campaign in progress whose template has been deleted. *)
Definition orphan : CampaignDoc :=
  mkCampaign (Some "orphan") (Some id_gone) [id_ana] None None
             (Some IN_PROGRESS) 0 0 None None 1 0 0.

(** An update request that sets the contact references only. *)
Definition only_bob : CampaignUpdate :=
  mkCampaignUpdate Unset Unset (SetTo [id_bob]) Unset Unset Unset.

(** The scenario world with the second contact still there, its custom
    fields set to null by an update. *)
Definition nulled : Contact :=
  mkContact "gus@example.com" (PyStr "Gus") PyNone None [] true.

Definition nulled_world : World :=
  mkWorld {[ 161%N := ana; 162%N := nulled; 163%N := bob ]}
          {[ 177%N := welcome ]}
          {[ 193%N := spring IN_PROGRESS 0 0 ]}
          [] [] [] 0.

(** A history: a database with two contacts and a template and no
    campaign; a campaign is created, sent as a dry run, the run fails at
    the lookup of the template, and the failed campaign is set to paused. *)
Definition id_first : string := "000000000000000000000000".

Definition autumn : CampaignCreate :=
  mkCampaignCreate "autumn" id_template [id_ana; id_bob] None None.

Definition pause : CampaignUpdate :=
  mkCampaignUpdate Unset Unset Unset Unset Unset (SetTo PAUSED).

Definition no_campaign_world : World :=
  mkWorld {[ 161%N := ana; 163%N := bob ]} {[ 177%N := welcome ]} ∅ [] [] [] 0.

Definition created_world : World :=
  after_request (CreateCampaign autumn) quiet_env no_campaign_world.

Definition sent_world : World :=
  after_request (SendCampaign id_first (mkSendRequest true)) quiet_env created_world.

Definition failed_world : World :=
  after_task [] [] (id_first, true) (failing_at 12 "connection reset") sent_world.

Definition paused_world : World :=
  after_request (UpdateCampaign id_first pause) quiet_env failed_world.
(** * Sanity checks of the embedding on concrete inputs *)

Example render_scenario :
  TemplateService.render_template "Hi $first_name, from $company"
    {[ "first_name" := PyStr "Ana" ]}
  = Return "Hi Ana, from $company".
Proof. vm_compute. reflexivity. Qed.

Example render_forms :
  TemplateService.render_template "${a}b $$a $a_1$ ${a $ab"
    {[ "a" := PyStr "X"; "ab" := PyNone ]}
  = Return "Xb $a $a_1$ ${a None".
Proof. vm_compute. reflexivity. Qed.

Example extract_scenario :
  TemplateService.extract_placeholders "Hi $first_name, ${first_name} $$x ${ $9"
  = ["first_name"; "x"] ∨
  TemplateService.extract_placeholders "Hi $first_name, ${first_name} $$x ${ $9"
  = ["x"; "first_name"].
Proof. vm_compute. auto. Qed.

(** The assertion of [tests/test_modules.py] on the same substitution. *)
Example render_test_modules :
  TemplateService.render_template "Hello $name, welcome to $company!"
    {[ "name" := PyStr "John"; "company" := PyStr "Acme" ]}
  = Return "Hello John, welcome to Acme!".
Proof. vm_compute. reflexivity. Qed.

Example segments_scenario :
  segments "Hi ${first_name}, $$5 $"
  = [Lit "H"; Lit "i"; Lit " "; Braced "first_name"; Lit ","; Lit " ";
     Escaped; Lit "5"; Lit " "; Lone].
Proof. vm_compute. reflexivity. Qed.

Example ObjectId_valid : ObjectId "0000000000000000000000C1" = Return 193%N.
Proof. vm_compute. reflexivity. Qed.

Example ObjectId_invalid : ObjectId "c1" = Raise (PyError "InvalidId" "c1").
Proof. vm_compute. reflexivity. Qed.

(** Whitespace between the pairs is skipped: the string is accepted and
    stands for eight bytes, which no stored id is. *)
Example ObjectId_whitespace :
  ObjectId "00 00 00 00 00 00 00 00 " = Return (2 ^ 98)%N
  ∧ ObjectId "0 000000000000000000000a" = Raise (PyError "InvalidId" "0 000000000000000000000a").
Proof. vm_compute. auto. Qed.

(** The recipient dictionary: custom fields shadow the reserved keys. *)
Example recipient_data_shadow :
  outcome_bind
    (campaigns_routes.recipient_data_of
       (mkContact "a@example.com" (PyStr "A") PyNone
                  (Some {[ "first_name" := "Z" ]}) [] true))
    (λ data, Return (data !! "first_name"))
  = Return (Some (PyStr "Z")).
Proof. vm_compute. reflexivity. Qed.

(** A contact whose custom fields were set to null has no dictionary. *)
Example recipient_data_null :
  campaigns_routes.recipient_data_of
    (mkContact "a@example.com" (PyStr "A") PyNone None [] true)
  = Raise (PyError "TypeError" "'NoneType' object is not a mapping").
Proof. reflexivity. Qed.

(** The scenario of the specification, as a real run: three references,
    the second contact deleted, both sends going through. *)
Example scenario_real_run :
  let w' := (campaigns_routes._send_campaign_emails id_campaign false quiet_env
               (scenario_world welcome (spring IN_PROGRESS 0 0))).2 in
  (sent_count <$> campaigns w' !! 193%N) = Some 2%Z
  ∧ (failed_count <$> campaigns w' !! 193%N) = Some 1%Z
  ∧ (status <$> campaigns w' !! 193%N) = Some (Some COMPLETED)
  ∧ log_body <$> email_logs w' = ["Hi Ana, from $company"; "Hi Bob, from Acme"]
  ∧ length (network w') = 10%nat.
Proof. vm_compute. auto. Qed.

(** A run whose campaign does not exist ends in the handler, which has
    nothing to mark as failed. *)
Example run_without_campaign :
  campaigns_routes._send_campaign_emails id_template true quiet_env (later_world 0)
  = (Return tt, later_world 3).
Proof. vm_compute. reflexivity. Qed.

(** A dry run over a contact whose custom fields are null: the contact is
    counted failed and gets no row. *)
Example dry_run_null_custom_fields :
  let w' := (campaigns_routes._send_campaign_emails id_campaign true quiet_env
               nulled_world).2 in
  (sent_count <$> campaigns w' !! 193%N) = Some 2%Z
  ∧ (failed_count <$> campaigns w' !! 193%N) = Some 1%Z
  ∧ log_contact_id <$> email_logs w' = [Some id_ana; Some id_bob].
Proof. vm_compute. auto. Qed.

(** The history above, step by step. *)
Example history_statuses :
  (status <$> campaigns created_world !! 0%N) = Some (Some DRAFT)
  ∧ (status <$> campaigns sent_world !! 0%N) = Some (Some IN_PROGRESS)
  ∧ background_tasks sent_world = [(id_first, true)]
  ∧ (status <$> campaigns failed_world !! 0%N) = Some (Some FAILED)
  ∧ background_tasks failed_world = []
  ∧ (status <$> campaigns paused_world !! 0%N) = Some (Some PAUSED)
  ∧ ticks paused_world = 19%nat.
Proof. vm_compute. auto 10. Qed.

(** [delete_template] on the id with whitespace: 404, not 400. *)
Example delete_template_spaced :
  (templates_routes.delete_template id_spaced quiet_env (later_world 0)).1
  = Raise (HTTPException 404 "Template not found").
Proof. vm_compute. reflexivity. Qed.

(** An update that sets the name to null stores the null and then fails to
    build its answer; one that sets the contact references to null fails
    before it writes. *)
Example update_campaign_nulls :
  let w := scenario_world welcome (spring DRAFT 0 0) in
  let r := campaigns_routes.update_campaign id_campaign
             (mkCampaignUpdate SetNull Unset Unset Unset Unset Unset) quiet_env w in
  let r' := campaigns_routes.update_campaign id_campaign
              (mkCampaignUpdate Unset Unset SetNull Unset Unset Unset) quiet_env w in
  r.1 = Raise (PyError "ValidationError" "CampaignResponse")
  ∧ (c_name <$> campaigns r.2 !! 193%N) = Some None
  ∧ r'.1 = Raise (PyError "TypeError" "object of type 'NoneType' has no len()")
  ∧ campaigns r'.2 = campaigns w.
Proof. vm_compute. auto. Qed.

(** * The keys of the ids *)

Section ObjectIdKeys.

Lemma big_endian_snoc (bs : list N) (b : N) :
  big_endian (bs ++ [b]) = (256 * big_endian bs + b)%N.
Proof. unfold big_endian. by rewrite fold_left_app. Qed.

Lemma big_endian_bound (bs : list N) :
  Forall (λ b, (b < 256)%N) bs → (big_endian bs < 256 ^ N.of_nat (length bs))%N.
Proof.
  induction bs as [|b bs IH] using rev_ind; intros Hbs.
  - unfold big_endian. simpl. lia.
  - apply Forall_app in Hbs as [Hbs Hb]. apply Forall_inv in Hb.
    rewrite big_endian_snoc, length_app. simpl.
    replace (N.of_nat (length bs + 1)) with (N.succ (N.of_nat (length bs))) by lia.
    rewrite N.pow_succ_r'. specialize (IH Hbs).
    lia.
Qed.

Lemma big_endian_inj (bs bs' : list N) :
  Forall (λ b, (b < 256)%N) bs → Forall (λ b, (b < 256)%N) bs' →
  length bs = length bs' → big_endian bs = big_endian bs' → bs = bs'.
Proof.
  revert bs'. induction bs as [|b bs IH] using rev_ind; intros bs' Hbs Hbs' Hlen Heq.
  - destruct bs'; [done|discriminate].
  - destruct bs' as [|b' bs' _] using rev_ind.
    { rewrite length_app in Hlen. simpl in Hlen. lia. }
    apply Forall_app in Hbs as [Hbs Hb]. apply Forall_inv in Hb.
    apply Forall_app in Hbs' as [Hbs' Hb']. apply Forall_inv in Hb'.
    rewrite !big_endian_snoc in Heq. rewrite !length_app in Hlen. simpl in Hlen.
    assert (big_endian bs = big_endian bs' ∧ b = b') as [Hx ->] by lia.
    f_equal. apply IH; [done | done | lia | done].
Qed.

Lemma key_arith (P v v' a a' : N) :
  (v < P)%N → (v' < P)%N → (v + P * a = v' + P * a')%N → a = a' ∧ v = v'.
Proof.
  intros Hv Hv' Heq.
  assert (a = a') as ->; [|split; [done|lia]].
  destruct (N.lt_trichotomy a a') as [Hlt|[?|Hlt]]; [|done|].
  - assert (P * a + P ≤ P * a')%N by nia. lia.
  - assert (P * a' + P ≤ P * a)%N by nia. lia.
Qed.

(** Two byte strings of at most twelve bytes with the same key are the
    same byte string. *)
Lemma oid_key_inj (bs bs' : list N) :
  Forall (λ b, (b < 256)%N) bs → Forall (λ b, (b < 256)%N) bs' →
  (length bs ≤ 12)%nat → (length bs' ≤ 12)%nat →
  oid_key bs = oid_key bs' → bs = bs'.
Proof.
  intros Hbs Hbs' Hlen Hlen' Heq. unfold oid_key in Heq.
  pose proof (big_endian_bound bs Hbs) as Hb.
  pose proof (big_endian_bound bs' Hbs') as Hb'.
  assert (256 ^ N.of_nat (length bs) ≤ 2 ^ 96)%N as Hp.
  { change (2 ^ 96)%N with (256 ^ 12)%N. apply N.pow_le_mono_r; lia. }
  assert (256 ^ N.of_nat (length bs') ≤ 2 ^ 96)%N as Hp'.
  { change (2 ^ 96)%N with (256 ^ 12)%N. apply N.pow_le_mono_r; lia. }
  apply key_arith in Heq as [Ha Hv];
    [|eapply N.lt_le_trans; eassumption..].
  apply big_endian_inj; [done | done | lia | done].
Qed.

Lemma hex_digit_bound (c : ascii) (d : N) : hex_digit c = Some d → (d < 16)%N.
Proof.
  unfold hex_digit.
  repeat match goal with
         | |- context [if ?b then _ else _] =>
             let H := fresh in
             destruct b eqn:H;
             [apply andb_true_iff in H as [?%N.leb_le ?%N.leb_le];
              intros [= <-]; lia|]
         end.
  done.
Qed.

(** What [bytes.fromhex] reads: bytes, at most one for two characters. *)
Lemma fromhex_bytes (s : string) (bs : list N) :
  fromhex s = Some bs →
  Forall (λ b, (b < 256)%N) bs ∧ (2 * length bs ≤ String.length s)%nat.
Proof.
  remember (String.length s) as n eqn:Hn.
  revert s bs Hn. induction n as [n IH] using lt_wf_ind. intros s bs Hn.
  destruct s as [|c s]; simpl.
  { intros [= <-]. split; [done|simpl; lia]. }
  destruct (is_space c).
  { intros Hs. simpl in Hn.
    destruct (IH (String.length s) ltac:(lia) s bs eq_refl Hs) as [? ?].
    split; [done|lia]. }
  destruct (hex_digit c) as [top|] eqn:Htop; [|done].
  destruct s as [|c' s]; [done|].
  destruct (hex_digit c') as [bot|] eqn:Hbot; [|done].
  destruct (fromhex s) as [rest|] eqn:Hs; [|done].
  simpl. intros [= <-]. simpl in Hn.
  destruct (IH (String.length s) ltac:(lia) s rest eq_refl Hs) as [? ?].
  apply hex_digit_bound in Htop, Hbot.
  split; [constructor; [lia|done] | simpl; lia].
Qed.

(** Two strings [ObjectId] gives the same key stand for the same bytes. *)
Lemma ObjectId_same_key (s s' : string) (k : N) :
  ObjectId s = Return k → ObjectId s' = Return k → fromhex s = fromhex s'.
Proof.
  unfold ObjectId.
  destruct (String.length s =? 24)%nat eqn:Hs; [|done].
  destruct (String.length s' =? 24)%nat eqn:Hs'; [|done].
  apply Nat.eqb_eq in Hs, Hs'.
  destruct (fromhex s) as [bs|] eqn:Hbs; [|done].
  destruct (fromhex s') as [bs'|] eqn:Hbs'; [|done].
  intros [= <-] [= Hk].
  destruct (fromhex_bytes s bs Hbs) as [? ?].
  destruct (fromhex_bytes s' bs' Hbs') as [? ?].
  f_equal. symmetry. apply oid_key_inj; try done; lia.
Qed.

End ObjectIdKeys.

(** * The renderer *)

Section Identifiers.

Lemma append_cons (c : ascii) (a b : string) : String c a +:+ b = String c (a +:+ b).
Proof. reflexivity. Qed.

Lemma append_nil (b : string) : "" +:+ b = b.
Proof. reflexivity. Qed.

Lemma append_assoc (a b c : string) : (a +:+ b) +:+ c = a +:+ (b +:+ c).
Proof.
  induction a as [|x a IH]; [done|].
  rewrite !append_cons. by f_equal.
Qed.

Lemma length_append (a b : string) :
  String.length (a +:+ b) = (String.length a + String.length b)%nat.
Proof.
  induction a as [|x a IH]; [done|].
  rewrite append_cons. simpl. by f_equal.
Qed.

Lemma drop_chars_app (p r : string) : drop_chars (String.length p) (p +:+ r) = r.
Proof. induction p as [|c p IH]; [by destruct r | exact IH]. Qed.

Lemma starts_with_true (c : ascii) (s : string) :
  starts_with c s = true → s = String c (drop_chars 1 s).
Proof.
  destruct s as [|c' s]; simpl; [done|].
  by intros ->%Ascii.eqb_eq.
Qed.

Lemma id_tail_prefix (s : string) :
  s = id_tail s +:+ drop_chars (String.length (id_tail s)) s.
Proof.
  induction s as [|c s IH]; simpl; [done|].
  destruct (is_id_char c); simpl; [rewrite append_cons; f_equal; exact IH | done].
Qed.

Lemma id_tail_idem (s : string) : id_tail (id_tail s) = id_tail s.
Proof.
  induction s as [|c s IH]; simpl; [done|].
  destruct (is_id_char c) eqn:E; simpl; [by rewrite E, IH | done].
Qed.

Lemma match_id_prefix (rest name : string) :
  match_id rest = Some name →
  rest = name +:+ drop_chars (String.length name) rest.
Proof.
  destruct rest as [|c s]; simpl; [done|].
  destruct (is_id_start c); [|done].
  intros [= <-]. simpl. rewrite append_cons. f_equal. apply id_tail_prefix.
Qed.

Lemma match_id_identifier (rest name : string) :
  match_id rest = Some name → is_identifier name.
Proof.
  destruct rest as [|c s]; simpl; [done|].
  destruct (is_id_start c) eqn:E; [|done].
  intros [= <-]. unfold is_identifier. simpl. by rewrite E, id_tail_idem.
Qed.

Lemma match_id_nonempty (rest name : string) :
  match_id rest = Some name → ∃ c n, name = String c n.
Proof.
  destruct rest as [|c s]; simpl; [done|].
  destruct (is_id_start c); [|done]. intros [= <-]. eauto.
Qed.

End Identifiers.

Section Pattern.

(** What [Template.match_at] finds: the delimiter and a prefix [p] of the
    text after it; the match is the source text of the segment it stands
    for, and a placeholder's name is an identifier. *)
Lemma match_at_shape (rest : string) :
  ∃ p r, Template.group (Template.match_at rest) = String "$" p
     ∧ rest = p +:+ r
     ∧ source (segment_of (Template.match_at rest))
       = Template.group (Template.match_at rest)
     ∧ segment_ok (segment_of (Template.match_at rest)).
Proof.
  unfold Template.match_at.
  destruct (starts_with "$" rest) eqn:Hd.
  { exists "$", (drop_chars 1 rest). apply starts_with_true in Hd.
    by repeat split. }
  destruct (match_id rest) as [name|] eqn:Hn.
  { exists name, (drop_chars (String.length name) rest).
    repeat split; [by apply match_id_prefix|].
    by apply (match_id_identifier rest). }
  assert (Hlone : ∃ p r,
    Template.group (Template.MatchObj "$" None None None (Some "")) = String "$" p
    ∧ rest = p +:+ r
    ∧ source (segment_of (Template.MatchObj "$" None None None (Some "")))
      = Template.group (Template.MatchObj "$" None None None (Some ""))
    ∧ segment_ok (segment_of (Template.MatchObj "$" None None None (Some "")))).
  { exists "", rest. by repeat split. }
  destruct rest as [|c rest]; [exact Hlone|].
  simpl starts_with. simpl drop_chars.
  destruct (Ascii.eqb c "{") eqn:Hb; [|exact Hlone].
  apply Ascii.eqb_eq in Hb as ->.
  destruct (match_id rest) as [name|] eqn:Hm; [|exact Hlone].
  destruct (starts_with "}" _) eqn:Hc; [|exact Hlone].
  apply starts_with_true in Hc.
  pose proof (match_id_prefix _ _ Hm) as Hp.
  exists ("{" +:+ name +:+ "}"),
         (drop_chars 1 (drop_chars (String.length name) rest)).
  repeat split; [|by apply (match_id_identifier rest)].
  rewrite Hp at 1. rewrite Hc at 1.
  rewrite !append_cons, append_nil. f_equal.
  by rewrite append_assoc.
Qed.

Lemma segments_from_skip (p r : string) :
  segments_from (String.length p) (p +:+ r) = segments_from 0 r.
Proof. induction p as [|c p IH]; [by destruct r | exact IH]. Qed.

Lemma segments_from_ok (skip : nat) (s : string) :
  Forall segment_ok (segments_from skip s).
Proof.
  revert skip. induction s as [|c s IH]; intros skip; simpl; [constructor|].
  destruct skip; [|apply IH].
  destruct (Ascii.eqb c "$") eqn:E.
  - constructor; [|apply IH].
    destruct (match_at_shape s) as (p & r & _ & _ & _ & Hok). exact Hok.
  - constructor; [|apply IH]. simpl. by apply Ascii.eqb_neq.
Qed.

Lemma source_segments_bounded (n : nat) (s : string) :
  (String.length s ≤ n)%nat →
  concat_strings (source <$> segments_from 0 s) = s.
Proof.
  revert s. induction n as [|n IH]; intros [|c s] Hlen; simpl in *;
    try done; try lia.
  destruct (Ascii.eqb c "$") eqn:E.
  - apply Ascii.eqb_eq in E as ->.
    destruct (match_at_shape s) as (p & r & Hg & Hp & Hsrc & _).
    rewrite fmap_cons. simpl concat_strings. rewrite Hsrc, Hg.
    rewrite append_cons. f_equal.
    replace (String.length (String "$" p) - 1)%nat with (String.length p)
      by (simpl; lia).
    rewrite Hp. rewrite segments_from_skip.
    rewrite IH; [done|].
    rewrite Hp, length_append in Hlen. lia.
  - rewrite fmap_cons. simpl. f_equal. apply IH. lia.
Qed.

(** The callback of [safe_substitute] on a match of the pattern gives what
    the segment becomes, and never raises. *)
Lemma convert_match_at (V : gmap string string) (rest : string) :
  Template.convert (PyStr <$> V) (Template.match_at rest)
  = Return (rendered V (segment_of (Template.match_at rest))).
Proof.
  unfold Template.match_at.
  destruct (starts_with "$" rest); [done|].
  destruct (match_id rest) as [name|] eqn:Hn.
  { destruct (match_id_nonempty _ _ Hn) as (c & n & ->).
    unfold Template.convert, segment_of. simpl.
    rewrite lookup_fmap. by destruct (V !! String c n). }
  destruct (starts_with "{" rest); [|done].
  destruct (match_id (drop_chars 1 rest)) as [name|] eqn:Hm; [|done].
  destruct (starts_with "}" _); [|done].
  unfold Template.convert, segment_of. simpl.
  rewrite lookup_fmap. by destruct (V !! name).
Qed.

Lemma sub_from_segments (V : gmap string string) (skip : nat) (s : string) :
  Template.sub_from (Template.convert (PyStr <$> V)) skip s
  = Return (concat_strings (rendered V <$> segments_from skip s)).
Proof.
  revert skip. induction s as [|c s IH]; intros skip; simpl; [done|].
  destruct skip; [|apply IH].
  destruct (Ascii.eqb c "$") eqn:E.
  - rewrite convert_match_at. simpl. by rewrite IH.
  - by rewrite IH.
Qed.

End Pattern.

Section Placeholders.

Lemma id_tail_app (n s : string) :
  id_tail n = n → ends_identifier s → id_tail (n +:+ s) = n.
Proof.
  intros Hn Hs. induction n as [|c n IH].
  - rewrite append_nil. destruct s as [|c s]; [done|]. simpl in *. by rewrite Hs.
  - rewrite append_cons. simpl in *.
    destruct (is_id_char c); [|done].
    f_equal. apply IH. congruence.
Qed.

Lemma match_id_app (n s : string) :
  is_identifier n → ends_identifier s → match_id (n +:+ s) = Some n.
Proof.
  unfold is_identifier. intros Hn Hs.
  destruct n as [|c n]; [done|].
  rewrite append_cons. simpl in *.
  destruct (is_id_start c); [|done].
  do 2 f_equal. apply id_tail_app; [congruence | done].
Qed.

Lemma identifier_head (n : string) :
  is_identifier n → ∃ c n', n = String c n' ∧ is_id_start c = true.
Proof.
  unfold is_identifier. destruct n as [|c n]; [done|]. simpl.
  destruct (is_id_start c) eqn:E; [eauto | done].
Qed.

Lemma id_start_not_delimiter (c : ascii) :
  is_id_start c = true → Ascii.eqb c "$" = false ∧ Ascii.eqb c "{" = false.
Proof.
  intros H. split; apply Ascii.eqb_neq; intros ->; by vm_compute in H.
Qed.

(** [$name] followed by something that cannot continue the name is the
    placeholder [name]. *)
Lemma segments_named (n s : string) :
  is_identifier n → ends_identifier s →
  segments ("$" +:+ n +:+ s) = Named n :: segments s.
Proof.
  intros Hn Hs. unfold segments. rewrite append_cons, append_nil.
  simpl segments_from.
  destruct (identifier_head n Hn) as (c & n' & -> & Hc).
  destruct (id_start_not_delimiter c Hc) as [Hd _].
  unfold Template.match_at.
  rewrite append_cons at 1. simpl starts_with. rewrite Hd.
  rewrite (match_id_app _ _ Hn Hs).
  unfold segment_of. simpl. f_equal.
  apply segments_from_skip.
Qed.

(** [${name}] is the placeholder [name], whatever follows. *)
Lemma segments_braced (n s : string) :
  is_identifier n →
  segments ("${" +:+ n +:+ "}" +:+ s) = Braced n :: segments s.
Proof.
  intros Hn. unfold segments. rewrite !append_cons, !append_nil.
  simpl segments_from.
  assert (Hm : match_id (n +:+ String "}" s) = Some n)
    by (by apply match_id_app).
  assert (Hdrop : drop_chars (String.length n) (n +:+ String "}" s) = String "}" s)
    by apply drop_chars_app.
  assert (Hat : Template.match_at (String "{" (n +:+ String "}" s))
                = Template.MatchObj ("${" +:+ n +:+ "}") None None (Some n) None).
  { unfold Template.match_at. simpl starts_with. simpl drop_chars.
    simpl match_id. by rewrite Hm, Hdrop. }
  rewrite Hat. unfold segment_of. simpl. f_equal.
  rewrite append_nil.
  replace (n +:+ String "}" s) with ((n +:+ "}") +:+ s)
    by (by rewrite append_assoc).
  apply segments_from_skip.
Qed.

(** Any other character is a literal. *)
Lemma segments_literal (c : ascii) (s : string) :
  c ≠ "$"%char → segments (String c s) = Lit c :: segments s.
Proof.
  intros Hc. unfold segments. simpl.
  by apply Ascii.eqb_neq in Hc as ->.
Qed.

(** A placeholder whose name is a key is replaced by the value, and the
    rest of the template is rendered on its own. *)
Lemma render_named_present (V : gmap string string) (n v s : string) :
  is_identifier n → ends_identifier s → V !! n = Some v →
  TemplateService.render_template ("$" +:+ n +:+ s) (PyStr <$> V)
  = outcome_bind (TemplateService.render_template s (PyStr <$> V))
                 (λ out, Return (v +:+ out)).
Proof.
  intros Hn Hs Hv.
  unfold TemplateService.render_template, Template.safe_substitute, Template.sub.
  rewrite !sub_from_segments.
  fold (segments ("$" +:+ n +:+ s)). rewrite segments_named by done.
  rewrite fmap_cons. simpl. by rewrite Hv.
Qed.

(** A placeholder whose name is not a key stays as it is written. *)
Lemma render_named_absent (V : gmap string string) (n s : string) :
  is_identifier n → ends_identifier s → V !! n = None →
  TemplateService.render_template ("$" +:+ n +:+ s) (PyStr <$> V)
  = outcome_bind (TemplateService.render_template s (PyStr <$> V))
                 (λ out, Return (("$" +:+ n) +:+ out)).
Proof.
  intros Hn Hs Hv.
  unfold TemplateService.render_template, Template.safe_substitute, Template.sub.
  rewrite !sub_from_segments.
  fold (segments ("$" +:+ n +:+ s)). rewrite segments_named by done.
  rewrite fmap_cons. simpl. by rewrite Hv.
Qed.

Lemma render_braced_present (V : gmap string string) (n v s : string) :
  is_identifier n → V !! n = Some v →
  TemplateService.render_template ("${" +:+ n +:+ "}" +:+ s) (PyStr <$> V)
  = outcome_bind (TemplateService.render_template s (PyStr <$> V))
                 (λ out, Return (v +:+ out)).
Proof.
  intros Hn Hv.
  unfold TemplateService.render_template, Template.safe_substitute, Template.sub.
  rewrite !sub_from_segments.
  fold (segments ("${" +:+ n +:+ "}" +:+ s)). rewrite segments_braced by done.
  rewrite fmap_cons. simpl. by rewrite Hv.
Qed.

Lemma render_braced_absent (V : gmap string string) (n s : string) :
  is_identifier n → V !! n = None →
  TemplateService.render_template ("${" +:+ n +:+ "}" +:+ s) (PyStr <$> V)
  = outcome_bind (TemplateService.render_template s (PyStr <$> V))
                 (λ out, Return (("${" +:+ n +:+ "}") +:+ out)).
Proof.
  intros Hn Hv.
  unfold TemplateService.render_template, Template.safe_substitute, Template.sub.
  rewrite !sub_from_segments.
  fold (segments ("${" +:+ n +:+ "}" +:+ s)). rewrite segments_braced by done.
  rewrite fmap_cons. simpl. by rewrite Hv.
Qed.

End Placeholders.

(** C2. For every template [T] and every variable mapping [V],
    [render_template] returns (it does not raise) the template with each of
    its segments rendered once, in place: a placeholder [$name] or
    [${name}] whose name is a key of [V] becomes the value, a placeholder
    whose name is not a key stays as it is written. The segments are
    exactly the text of [T] and their placeholder names are identifiers;
    [$name] up to the end of the name and [${name}] are placeholders
    wherever the scan meets them. *)
Theorem render_template_placeholders (T : string) (V : gmap string string) :
  TemplateService.render_template T (PyStr <$> V)
    = Return (concat_strings (rendered V <$> segments T))
  ∧ concat_strings (source <$> segments T) = T
  ∧ Forall segment_ok (segments T)
  ∧ (∀ n s, is_identifier n → ends_identifier s →
       segments ("$" +:+ n +:+ s) = Named n :: segments s)
  ∧ (∀ n s, is_identifier n →
       segments ("${" +:+ n +:+ "}" +:+ s) = Braced n :: segments s).
Proof.
  split_and!.
  - unfold TemplateService.render_template, Template.safe_substitute, Template.sub.
    by rewrite sub_from_segments.
  - by apply (source_segments_bounded (String.length T)).
  - apply segments_from_ok.
  - apply segments_named.
  - apply segments_braced.
Qed.

(** C2 on the scenario of the specification: [$first_name] is a key and is
    replaced, [$company] is not and stays. *)
Lemma render_template_placeholders_witness :
  TemplateService.render_template "Hi $first_name, from $company"
    (PyStr <$> {[ "first_name" := "Ana" ]})
  = Return "Hi Ana, from $company"
  ∧ segments "$company" = [Named "company"]
  ∧ segments "${company}" = [Braced "company"].
Proof.
  destruct (render_template_placeholders "Hi $first_name, from $company"
              {[ "first_name" := "Ana" ]})
    as (Hrender & _ & _ & Hnamed & Hbraced).
  split; [|split].
  - rewrite Hrender. vm_compute. reflexivity.
  - apply (Hnamed "company" ""); vm_compute; reflexivity.
  - apply (Hbraced "company" ""). vm_compute. reflexivity.
Defined.

(** * Frame rules *)

Section Frames.

Context (R : relation World) `{!PreOrder R}.

Lemma frame_ret {A} (a : A) : frame R (mret a).
Proof. intros env w. reflexivity. Qed.

Lemma frame_raise {A} (e : exn) : frame R (raise (A:=A) e).
Proof. intros env w. reflexivity. Qed.

Lemma frame_lift {A} (o : outcome A) : frame R (lift o).
Proof. intros env w. reflexivity. Qed.

Lemma frame_get_settings : frame R get_settings.
Proof. intros env w. reflexivity. Qed.

Lemma frame_bind {A B} (m : M A) (k : A → M B) :
  frame R m → (∀ a, frame R (k a)) → frame R (m ≫= k).
Proof.
  intros Hm Hk env w. unfold mbind, M_bind.
  specialize (Hm env w). destruct (m env w) as [[a|e] w1]; simpl in *; [|done].
  etrans; [exact Hm | apply Hk].
Qed.

Lemma frame_try_except {A} (m : M A) (h : exn → M A) :
  frame R m → (∀ e, frame R (h e)) → frame R (try_except m h).
Proof.
  intros Hm Hh env w. unfold try_except.
  specialize (Hm env w). destruct (m env w) as [[a|e] w1]; simpl in *; [done|].
  etrans; [exact Hm | apply Hh].
Qed.

Lemma frame_if {A} (b : bool) (m1 m2 : M A) :
  frame R m1 → frame R m2 → frame R (if b then m1 else m2).
Proof. by destruct b. Qed.

(** A primitive is framed as soon as each of its elementary moves is. *)
Hypothesis R_step : ∀ w, R w (step w).

Lemma frame_utcnow : frame R utcnow.
Proof. intros env w. apply R_step. Qed.

Lemma frame_ObjectId_of (x : option string) : frame R (ObjectId_of x).
Proof. destruct x; intros env w; [reflexivity | apply R_step]. Qed.

Lemma frame_db_call {A} (act : World → A * World) :
  (∀ w, R w (act w).2) → frame R (db_call act).
Proof.
  intros Hact env w. unfold db_call.
  destruct (fault env (ticks w)); simpl; [apply R_step|].
  specialize (Hact (step w)). destruct (act (step w)) as [a w1]. simpl in *.
  etrans; [apply R_step | exact Hact].
Qed.

Lemma frame_net_call (cls : string) (ev : net_event) :
  (∀ w, R w (set_network (network w ++ [ev]) w)) →
  frame R (net_call cls ev).
Proof.
  intros Hnet env w. unfold net_call.
  assert (R w (set_network (network w ++ [ev]) (step w)))
    by (etrans; [apply R_step | apply (Hnet (step w))]).
  by destruct (fault env (ticks w)).
Qed.

End Frames.

Global Instance same_documents_preorder : PreOrder same_documents.
Proof.
  split.
  - by intros w.
  - intros w1 w2 w3 (?&?&?) (?&?&?). repeat split; congruence.
Qed.

Global Instance same_logs_preorder : PreOrder same_logs.
Proof. split; [by intros w | intros w1 w2 w3; unfold same_logs; congruence]. Qed.

Global Instance same_network_preorder : PreOrder same_network.
Proof. split; [by intros w | intros w1 w2 w3; unfold same_network; congruence]. Qed.

Global Instance same_smtp_preorder : PreOrder same_smtp.
Proof. split; [by intros w | intros w1 w2 w3; unfold same_smtp; congruence]. Qed.

Ltac frame_step :=
  match goal with
  | |- frame _ (mret _) => apply frame_ret
  | |- frame _ (raise _) => apply frame_raise
  | |- frame _ (lift _) => apply frame_lift
  | |- frame _ get_settings => apply frame_get_settings
  | |- frame _ (_ ≫= _) => apply frame_bind; [apply _ | | intros ?]
  | |- frame _ (try_except _ _) => apply frame_try_except; [apply _ | | intros ?]
  | |- frame _ utcnow => apply frame_utcnow
  | |- frame _ (ObjectId_of _) => apply frame_ObjectId_of
  | |- frame _ (db_call _) => apply frame_db_call
  | |- frame _ (net_call _ _) => apply frame_net_call
  | |- frame _ (if _ then _ else _) => apply frame_if
  | |- frame _ (match ?x with _ => _ end) => destruct x
  | |- PreOrder _ => apply _
  | |- ∀ _ : World, _ => assumption
  | |- ∀ _ : World, _ => solve [eauto]
  end.

Ltac frame_auto := repeat frame_step; try done.

Section FramesOfTheCode.

Context (R : relation World) `{!PreOrder R}.
Hypothesis R_step : ∀ w, R w (step w).

Lemma frame_quit_after (body : M unit) :
  frame R body →
  (∀ w, R w (set_network (network w ++ [SmtpQuit]) w)) →
  frame R (AsyncEmailSender.quit_after body).
Proof.
  intros Hbody Hquit env w. unfold AsyncEmailSender.quit_after.
  assert (Hok : frame R (net_call "SMTPException" SmtpQuit;; mret tt))
    by frame_auto.
  assert (Hko : ∀ e, frame R (net_call "SMTPException" SmtpQuit;; raise (A:=unit) e))
    by (intros e; frame_auto).
  specialize (Hbody env w). destruct (body env w) as [[a|e] w1]; simpl in *.
  - etrans; [exact Hbody | apply Hok].
  - etrans; [exact Hbody | apply Hko].
Qed.

(** Code that only talks to the mail server and appends log rows. *)
Hypothesis R_network : ∀ ev w, R w (set_network (network w ++ [ev]) w).
Hypothesis R_log : ∀ row w, R w (set_email_logs (email_logs w ++ [row]) w).

Lemma frame_log_email cid kid tid subject body st err :
  frame R (AsyncEmailSender._log_email cid kid tid subject body st err).
Proof.
  unfold AsyncEmailSender._log_email, db.insert_one_email_log.
  frame_auto.
Qed.

Lemma frame_transmit self to_email subject body html :
  frame R (AsyncEmailSender.transmit self to_email subject body html).
Proof.
  unfold AsyncEmailSender.transmit, AsyncEmailSender.with_SMTP.
  frame_step; [frame_auto|].
  apply frame_quit_after; [|done]. frame_auto.
Qed.

Lemma frame_real_send_email self to_email subject body html log cid kid tid :
  frame R (AsyncEmailSender.send_email self to_email subject body html log
             cid kid tid).
Proof.
  unfold AsyncEmailSender.send_email.
  frame_step.
  - frame_step; [apply frame_transmit|].
    frame_step; [|frame_auto].
    frame_step; [apply frame_log_email | frame_auto].
  - frame_step; [|frame_auto].
    frame_step; [apply frame_log_email | frame_auto].
Qed.

Lemma frame_null_send_email self to_email subject body html log cid kid tid :
  frame R (DryRunEmailSender.send_email self to_email subject body html log
             cid kid tid).
Proof.
  unfold DryRunEmailSender.send_email, db.insert_one_email_log.
  frame_auto.
Qed.

Lemma frame_send_email self to_email subject body html log cid kid tid :
  frame R (email_sender_send_email self to_email subject body html log
             cid kid tid).
Proof.
  destruct self; [apply frame_real_send_email | apply frame_null_send_email].
Qed.

Lemma frame_generate_email self template data :
  frame R (OllamaService.generate_email self template data).
Proof.
  unfold OllamaService.generate_email.
  frame_step; [|frame_auto].
  frame_step; [frame_auto|]. by intros env w.
Qed.

Lemma frame_find_one_contact oid : frame R (db.find_one_contact oid).
Proof. unfold db.find_one_contact. frame_auto. Qed.

(** One iteration of the runner's loop, with its handler. *)
Lemma frame_send_one es os cid c t kid counts :
  frame R (campaigns_routes.send_one es os cid c t kid counts).
Proof.
  unfold campaigns_routes.send_one.
  apply frame_bind; [apply _ | frame_auto | intros oid].
  apply frame_bind; [apply _ | apply frame_find_one_contact | intros contact].
  destruct contact as [contact|]; [|frame_auto].
  apply frame_bind; [apply _ | frame_auto | intros recipient_data].
  apply frame_bind; [apply _ | | intros body].
  - destruct os; [apply frame_generate_email | frame_auto].
  - apply frame_bind; [apply _ | apply frame_send_email | intros [[] error]];
      frame_auto.
Qed.

Lemma frame_send_loop es os cid c t ids counts :
  frame R (campaigns_routes.send_loop es os cid c t ids counts).
Proof.
  revert counts. induction ids as [|kid ids IH]; intros counts; simpl.
  - frame_auto.
  - frame_step; [|apply IH].
    frame_step; [apply frame_send_one | frame_auto].
Qed.

End FramesOfTheCode.

(** * The campaign runner *)

Section Runner.

Lemma documents_step (w : World) : same_documents w (step w).
Proof. done. Qed.

Lemma documents_network ev (w : World) :
  same_documents w (set_network (network w ++ [ev]) w).
Proof. done. Qed.

Lemma documents_log row (w : World) :
  same_documents w (set_email_logs (email_logs w ++ [row]) w).
Proof. done. Qed.

Lemma send_loop_documents es os cid c t ids counts :
  frame same_documents (campaigns_routes.send_loop es os cid c t ids counts).
Proof.
  apply frame_send_loop;
    auto using documents_step, documents_network, documents_log with typeclass_instances.
Qed.

Lemma send_one_documents es os cid c t kid counts :
  frame same_documents (campaigns_routes.send_one es os cid c t kid counts).
Proof.
  apply frame_send_one;
    auto using documents_step, documents_network, documents_log with typeclass_instances.
Qed.

(** When the [try] block of an iteration runs to its end, it has counted
    the recipient once: as sent only if the reference resolved, as failed
    otherwise. *)
Lemma send_one_returns es os cid c t kid counts env w counts' w' :
  campaigns_routes.send_one es os cid c t kid counts env w = (Return counts', w') →
  (counts' = (counts.1 + 1, counts.2)%Z
   ∧ ∃ oid contact, ObjectId kid = Return oid ∧ contacts w !! oid = Some contact)
  ∨ counts' = (counts.1, counts.2 + 1)%Z.
Proof.
  unfold campaigns_routes.send_one, mbind, M_bind, lift,
    db.find_one_contact, db_call.
  destruct (ObjectId kid) as [oid|] eqn:Hoid; [|done].
  destruct (fault env (ticks w)); [done|]. simpl.
  destruct (contacts w !! oid) as [contact|] eqn:Hc;
    [|intros [= <- _]; by right].
  destruct (campaigns_routes.recipient_data_of contact) as [data|]; [|done].
  match goal with |- context [match ?m env (step w) with _ => _ end] =>
    destruct (m env (step w)) as [[body|] w2] end; [|done].
  match goal with |- context [match ?m env w2 with _ => _ end] =>
    destruct (m env w2) as [[[[] err]|] w3] end; [| |done].
  - intros [= <- _]. left. eauto.
  - intros [= <- _]. by right.
Qed.

(** An iteration with its handler never raises and counts the recipient
    exactly once. *)
Lemma iteration_tally es os cid c t kid counts env w :
  ∃ counts',
    (try_except (campaigns_routes.send_one es os cid c t kid counts)
                (λ e, mret (counts.1, counts.2 + 1)%Z) env w).1 = Return counts'
    ∧ ((counts' = (counts.1 + 1, counts.2)%Z
        ∧ length (campaigns_routes.resolve w [kid]) = 1%nat)
       ∨ counts' = (counts.1, counts.2 + 1)%Z).
Proof.
  unfold try_except.
  destruct (campaigns_routes.send_one es os cid c t kid counts env w)
    as [[counts'|e] w'] eqn:E.
  - exists counts'. split; [done|].
    destruct (send_one_returns _ _ _ _ _ _ _ _ _ _ _ E)
      as [(-> & oid & contact & Hoid & Hc) | ->]; [left | by right].
    split; [done|]. unfold campaigns_routes.resolve. simpl.
    by rewrite Hoid, Hc.
  - eexists. split; [done|]. by right.
Qed.

Lemma resolve_cons w kid ids :
  length (campaigns_routes.resolve w (kid :: ids))
  = (length (campaigns_routes.resolve w [kid])
     + length (campaigns_routes.resolve w ids))%nat.
Proof.
  unfold campaigns_routes.resolve. simpl.
  by destruct (match ObjectId kid with Return oid => _ | Raise _ => _ end).
Qed.

Lemma resolve_same_contacts w w' ids :
  contacts w' = contacts w →
  campaigns_routes.resolve w' ids = campaigns_routes.resolve w ids.
Proof. unfold campaigns_routes.resolve. by intros ->. Qed.

Lemma resolve_le w ids :
  (length (campaigns_routes.resolve w ids) ≤ length ids)%nat.
Proof.
  induction ids as [|kid ids IH]; [done|].
  rewrite resolve_cons. cbn [length].
  assert (length (campaigns_routes.resolve w [kid]) ≤ 1)%nat; [|lia].
  unfold campaigns_routes.resolve. simpl.
  destruct (match ObjectId kid with Return oid => _ | Raise _ => _ end); simpl; lia.
Qed.

(** The loop never raises; it counts every reference exactly once, and
    counts as sent only references that resolved. *)
Lemma send_loop_tally es os cid c t ids counts env w :
  ∃ counts',
    (campaigns_routes.send_loop es os cid c t ids counts env w).1 = Return counts'
    ∧ (counts'.1 + counts'.2 = counts.1 + counts.2 + Z.of_nat (length ids))%Z
    ∧ (counts.1 ≤ counts'.1
       ≤ counts.1 + Z.of_nat (length (campaigns_routes.resolve w ids)))%Z.
Proof.
  revert counts env w. induction ids as [|kid ids IH]; intros counts env w.
  - exists counts. simpl. repeat split; lia.
  - simpl campaigns_routes.send_loop. unfold mbind, M_bind.
    destruct (iteration_tally es os cid c t kid counts env w)
      as (c1 & Hret & Hc1).
    pose proof (frame_try_except same_documents _ _
                  (send_one_documents es os cid c t kid counts)
                  (λ e, frame_ret same_documents (counts.1, counts.2 + 1)%Z)
                  env w) as (Hcontacts & _).
    destruct (try_except _ _ env w) as [o w1]. simpl in Hret, Hcontacts. subst o.
    destruct (IH c1 env w1) as (c2 & Hret2 & Hsum & Hsent).
    exists c2. split; [done|].
    rewrite (resolve_same_contacts _ _ _ Hcontacts) in Hsent.
    rewrite resolve_cons.
    destruct Hc1 as [[-> Hone] | ->]; simpl in *; split; lia.
Qed.

End Runner.

Section CampaignRun.

(** The id of the template, read off the campaign: the collections are
    not touched. *)
Lemma ObjectId_of_documents (x : option string) : frame same_documents (ObjectId_of x).
Proof. apply frame_ObjectId_of; [apply _ | apply documents_step]. Qed.

Lemma run_campaign_returns cid dry env w w' :
  campaigns_routes.run_campaign cid dry env w = (Return tt, w') →
  ∃ oid c sent failed completed updated,
    ObjectId cid = Return oid ∧ campaigns w !! oid = Some c
    ∧ campaigns w' = <[oid := campaigns_routes.set_completed sent failed completed updated c]> (campaigns w)
    ∧ (sent + failed = Z.of_nat (length (contact_ids c)))%Z
    ∧ (0 ≤ sent ≤ Z.of_nat (length (campaigns_routes.resolve w (contact_ids c))))%Z.
Proof.
  unfold campaigns_routes.run_campaign, mbind, M_bind, lift.
  destruct (ObjectId cid) as [oid|] eqn:Hoid; [|done].
  unfold db.find_one_campaign at 1, db_call at 1.
  destruct (fault env (ticks w)); [done|]. simpl.
  destruct (campaigns w !! oid) as [c|] eqn:Hc; [|done]. simpl.
  pose proof (ObjectId_of_documents (template_id c) env (step w))
    as (Hcontacts1 & _ & Hcampaigns1).
  destruct (ObjectId_of (template_id c) env (step w)) as [[tid|] w1]; [|done].
  simpl in Hcontacts1, Hcampaigns1.
  unfold db.find_one_template, db_call at 1.
  destruct (fault env (ticks w1)); [done|]. simpl.
  destruct (templates w1 !! tid) as [t|]; [|by destruct dry].
  assert (∀ es os,
    (let (o, wl) := campaigns_routes.send_loop es os cid c t (contact_ids c)
                      (0, 0)%Z env (step w1) in
     match o with
     | Return a2 =>
         (let '(sent_count, failed_count) := a2 in
          λ (env0 : Env) (w0 : World),
            db.update_one_campaign oid
              (campaigns_routes.set_completed sent_count failed_count
                 (clock env0 (ticks w0)) (clock env0 (S (ticks w0))))
              env0 (step (step w0))) env wl
     | Raise e => (Raise e, wl)
     end) = (Return tt, w') →
    ∃ oid0 c0 sent failed completed updated,
      Return oid = Return oid0 ∧ campaigns w !! oid0 = Some c0
      ∧ campaigns w' = <[oid0 := campaigns_routes.set_completed sent failed completed updated c0]> (campaigns w)
      ∧ (sent + failed = Z.of_nat (length (contact_ids c0)))%Z
      ∧ (0 ≤ sent ≤ Z.of_nat (length (campaigns_routes.resolve w (contact_ids c0))))%Z)
    as Hloop.
  { intros es os.
    destruct (send_loop_tally es os cid c t (contact_ids c) (0, 0)%Z env (step w1))
      as ([sent failed] & Hret & Hsum & Hsent).
    pose proof (send_loop_documents es os cid c t (contact_ids c) (0, 0)%Z
                  env (step w1)) as (Hcontacts & _ & Hcampaigns).
    destruct (campaigns_routes.send_loop _ _ _ _ _ _ _ env (step w1))
      as [o wl].
    simpl in Hret, Hcontacts, Hcampaigns, Hsum, Hsent. subst o.
    unfold db.update_one_campaign, db_call. simpl.
    destruct (fault env (S (S (ticks wl)))); [done|].
    intros [= <-]. simpl.
    exists oid, c, sent, failed, (clock env (ticks wl)), (clock env (S (ticks wl))).
    repeat split; try done; try lia.
    - rewrite Hcampaigns, Hcampaigns1. apply map_eq. intros i.
      rewrite lookup_alter, lookup_insert.
      case_decide; [subst i; by rewrite Hc | done].
    - rewrite <- (resolve_same_contacts w (step w1)) by done. lia. }
  destruct dry; simpl; destruct (t_use_llm t); simpl; apply Hloop.
Qed.

End CampaignRun.

(** C1, as the code has it. For every campaign run that terminates
    normally, the single final update sets the status to completed and
    writes counters with [sent_count + failed_count] equal to the number of
    contact references of the campaign: every reference is counted exactly
    once. [sent_count] is at most the number of references that resolve, so
    every reference to a missing contact is among the failed. *)
Theorem normal_run_counts_every_reference campaign_id dry env w :
  terminates_normally campaign_id dry env w →
  ∃ oid c c',
    ObjectId campaign_id = Return oid
    ∧ campaigns w !! oid = Some c
    ∧ campaigns (campaigns_routes._send_campaign_emails campaign_id dry env w).2 !! oid
      = Some c'
    ∧ status c' = Some COMPLETED
    ∧ (sent_count c' + failed_count c' = Z.of_nat (length (contact_ids c)))%Z
    ∧ (0 ≤ sent_count c'
       ≤ Z.of_nat (length (campaigns_routes.resolve w (contact_ids c))))%Z
    ∧ (length (campaigns_routes.resolve w (contact_ids c))
       ≤ length (contact_ids c))%nat.
Proof.
  unfold terminates_normally, campaigns_routes._send_campaign_emails, try_except.
  destruct (campaigns_routes.run_campaign campaign_id dry env w)
    as [[[]|e] w'] eqn:Hrun; simpl; [intros _ | done].
  destruct (run_campaign_returns _ _ _ _ _ Hrun)
    as (oid & c & sent & failed & completed & updated
        & Hoid & Hc & Hw' & Hsum & Hsent).
  exists oid, c, (campaigns_routes.set_completed sent failed completed updated c).
  rewrite Hw', lookup_insert_eq.
  split_and!; simpl; try done; try lia.
  apply resolve_le.
Qed.

(** C1 on the scenario of the specification, as a dry run: the run
    terminates normally. *)
Lemma normal_run_counts_every_reference_witness :
  ∃ oid c c',
    ObjectId id_campaign = Return oid
    ∧ campaigns (scenario_world welcome (spring IN_PROGRESS 0 0)) !! oid = Some c
    ∧ campaigns (campaigns_routes._send_campaign_emails id_campaign true quiet_env
                   (scenario_world welcome (spring IN_PROGRESS 0 0))).2 !! oid
      = Some c'
    ∧ status c' = Some COMPLETED
    ∧ (sent_count c' + failed_count c' = Z.of_nat (length (contact_ids c)))%Z
    ∧ (0 ≤ sent_count c'
       ≤ Z.of_nat (length (campaigns_routes.resolve
                             (scenario_world welcome (spring IN_PROGRESS 0 0))
                             (contact_ids c))))%Z
    ∧ (length (campaigns_routes.resolve
                 (scenario_world welcome (spring IN_PROGRESS 0 0)) (contact_ids c))
       ≤ length (contact_ids c))%nat.
Proof.
  apply (normal_run_counts_every_reference id_campaign true quiet_env
           (scenario_world welcome (spring IN_PROGRESS 0 0))).
  vm_compute. reflexivity.
Defined.

(** C1 as stated fails. In the scenario of the specification (three
    contact references, the second contact deleted, both sends going
    through) the run terminates normally with status completed, 2 sent and
    1 failed, while the resolver yields 2 recipients: the counters add up
    to the 3 references, not to the 2 recipients resolved. *)
Lemma resolved_count_counterexample :
  let w := scenario_world welcome (spring IN_PROGRESS 0 0) in
  let w' := (campaigns_routes._send_campaign_emails id_campaign true quiet_env w).2 in
  terminates_normally id_campaign true quiet_env w
  ∧ campaigns_routes.resolve w [id_ana; id_gone; id_bob] = [ana; bob]
  ∧ ∃ c', campaigns w' !! 193%N = Some c'
        ∧ status c' = Some COMPLETED
        ∧ total_emails c' = 3%Z
        ∧ sent_count c' = 2%Z
        ∧ failed_count c' = 1%Z
        ∧ (sent_count c' + failed_count c')%Z
          ≠ Z.of_nat (length (campaigns_routes.resolve w [id_ana; id_gone; id_bob])).
Proof.
  split; [vm_compute; reflexivity|].
  split; [vm_compute; reflexivity|].
  exists (campaigns_routes.set_completed 2 1 11 12 (spring IN_PROGRESS 0 0)).
  split_and!; try (vm_compute; reflexivity).
  vm_compute. discriminate.
Qed.

(** * The transports *)

Section Transports.

Lemma logs_step (w : World) : same_logs w (step w).
Proof. done. Qed.

Lemma logs_network ev (w : World) :
  same_logs w (set_network (network w ++ [ev]) w).
Proof. done. Qed.

Lemma network_step (w : World) : same_network w (step w).
Proof. done. Qed.

Lemma network_log row (w : World) :
  same_network w (set_email_logs (email_logs w ++ [row]) w).
Proof. done. Qed.

(** Transmitting writes no log row. *)
Lemma transmit_logs self to_email subject body html :
  frame same_logs (AsyncEmailSender.transmit self to_email subject body html).
Proof.
  apply frame_transmit; auto using logs_step, logs_network with typeclass_instances.
Qed.

(** [_log_email] swallows whatever goes wrong inside it. *)
Lemma log_email_returns cid kid tid subject body st err env w :
  (AsyncEmailSender._log_email cid kid tid subject body st err env w).1 = Return tt.
Proof.
  unfold AsyncEmailSender._log_email, try_except, mbind, M_bind, utcnow,
    db.insert_one_email_log, db_call.
  destruct (decide (st = EMAIL_SENT)); simpl;
    by match goal with |- context [fault env ?n] => destruct (fault env n) end.
Qed.

(** The row [_log_email] writes when the insert goes through. *)
Lemma log_email_sent_row cid kid tid subject body env w :
  fault env (S (S (ticks w))) = None →
  email_logs (AsyncEmailSender._log_email cid kid tid subject body EMAIL_SENT None env w).2
  = (email_logs w ++ [sent_row cid kid tid subject body
                        (clock env (ticks w)) (clock env (S (ticks w)))])%list.
Proof.
  intros Hf.
  unfold AsyncEmailSender._log_email, try_except, mbind, M_bind, utcnow,
    db.insert_one_email_log, db_call.
  simpl. by rewrite Hf.
Qed.

(** No row is written when the insert fails. *)
Lemma log_email_insert_fails cid kid tid subject body env w :
  is_Some (fault env (S (S (ticks w)))) →
  email_logs (AsyncEmailSender._log_email cid kid tid subject body EMAIL_SENT None env w).2
  = email_logs w.
Proof.
  intros [msg Hf].
  unfold AsyncEmailSender._log_email, try_except, mbind, M_bind, utcnow,
    db.insert_one_email_log, db_call.
  simpl. by rewrite Hf.
Qed.

(** Nor is the row of a failed send written when the insert fails. *)
Lemma log_email_failed_insert_fails cid kid tid subject body err env w :
  is_Some (fault env (S (ticks w))) →
  email_logs (AsyncEmailSender._log_email cid kid tid subject body EMAIL_FAILED err env w).2
  = email_logs w.
Proof.
  intros [msg Hf].
  unfold AsyncEmailSender._log_email, try_except, mbind, M_bind, utcnow,
    db.insert_one_email_log, db_call.
  simpl. by rewrite Hf.
Qed.

(** What [send_email] does after a transmission that went through. *)
Lemma real_send_email_transmitted self to_email subject body html log cid kid tid
    env w w1 :
  AsyncEmailSender.transmit self to_email subject body html env w = (Return tt, w1) →
  AsyncEmailSender.send_email self to_email subject body html log cid kid tid env w
  = (Return (true, None),
     if log && truthy cid && truthy kid
     then (AsyncEmailSender._log_email cid kid tid subject body EMAIL_SENT None env w1).2
     else w1).
Proof.
  intros Ht. unfold AsyncEmailSender.send_email, try_except, mbind, M_bind.
  rewrite Ht.
  destruct (log && truthy cid && truthy kid); [|done].
  pose proof (log_email_returns cid kid tid subject body EMAIL_SENT None env w1) as Hl.
  destruct (AsyncEmailSender._log_email _ _ _ _ _ _ _ env w1) as [o w2].
  simpl in Hl. by subst o.
Qed.

(** What [send_email] does after a transmission that raised. *)
Lemma real_send_email_failed self to_email subject body html log cid kid tid
    env w w1 e :
  AsyncEmailSender.transmit self to_email subject body html env w = (Raise e, w1) →
  AsyncEmailSender.send_email self to_email subject body html log cid kid tid env w
  = (Return (false, Some (exn_str e)),
     if log && truthy cid && truthy kid
     then (AsyncEmailSender._log_email cid kid tid subject body EMAIL_FAILED
             (Some (exn_str e)) env w1).2
     else w1).
Proof.
  intros Ht. unfold AsyncEmailSender.send_email, try_except, mbind, M_bind.
  rewrite Ht.
  destruct (log && truthy cid && truthy kid); [|done].
  pose proof (log_email_returns cid kid tid subject body EMAIL_FAILED
                (Some (exn_str e)) env w1) as Hl.
  destruct (AsyncEmailSender._log_email _ _ _ _ _ _ _ env w1) as [o w2].
  simpl in Hl. by subst o.
Qed.

End Transports.


Section DryRun.

Lemma slice_to_short (n : nat) (s : string) :
  (String.length s ≤ n)%nat → slice_to n s = s.
Proof.
  unfold slice_to. revert n. induction s as [|c s IH]; intros [|n] Hlen;
    simpl in *; try done; try lia.
  f_equal. apply IH. lia.
Qed.

(** The null transport always reports success. *)
Lemma null_send_email_returns self to_email subject body html log cid kid tid env w :
  (DryRunEmailSender.send_email self to_email subject body html log cid kid tid env w).1
  = Return (true, None).
Proof.
  unfold DryRunEmailSender.send_email, try_except, mbind, M_bind, utcnow,
    db.insert_one_email_log, db_call.
  destruct (log && truthy cid && truthy kid); simpl; [|done].
  by destruct (fault env (S (S (ticks w)))).
Qed.

(** The null transport sends nothing over the network. *)
Lemma null_send_email_network self to_email subject body html log cid kid tid :
  frame same_network
    (DryRunEmailSender.send_email self to_email subject body html log cid kid tid).
Proof.
  apply frame_null_send_email;
    auto using network_step, network_log with typeclass_instances.
Qed.

End DryRun.

(** C5, as the code has it. For every recipient processed in dry-run mode
    (logging on, campaign and contact ids given), the null transport
    returns [(true, None)] and sends nothing over the network; when the
    insert goes through it writes one row with status sent, which is the
    row a real successful send writes (same ids, subject, status, no error
    message, a sent timestamp) except that its body is cut to the first 500
    characters. The two rows carry the same body when the body has at most
    500 characters. *)
Theorem dry_run_row_truncated dry real to_email subject body html cid kid tid env w :
  truthy cid = true → truthy kid = true →
  let r := DryRunEmailSender.send_email dry to_email subject body html true
             cid kid tid env w in
  r.1 = Return (true, None)
  ∧ network r.2 = network w
  ∧ (fault env (S (S (ticks w))) = None →
     email_logs r.2
     = (email_logs w ++ [sent_row cid kid tid subject (slice_to 500 body)
                           (clock env (ticks w)) (clock env (S (ticks w)))])%list)
  ∧ (∀ w1,
     AsyncEmailSender.transmit real to_email subject body html env w = (Return tt, w1) →
     fault env (S (S (ticks w1))) = None →
     email_logs (AsyncEmailSender.send_email real to_email subject body html true
                   cid kid tid env w).2
     = (email_logs w ++ [sent_row cid kid tid subject body
                           (clock env (ticks w1)) (clock env (S (ticks w1)))])%list)
  ∧ ((String.length body ≤ 500)%nat → slice_to 500 body = body).
Proof.
  intros Hc Hk r. subst r. repeat split.
  - apply null_send_email_returns.
  - apply null_send_email_network.
  - intros Hf.
    unfold DryRunEmailSender.send_email, try_except, mbind, M_bind, utcnow,
      db.insert_one_email_log, db_call.
    rewrite Hc, Hk. simpl. by rewrite Hf.
  - intros w1 Ht Hf.
    rewrite (real_send_email_transmitted _ _ _ _ _ _ _ _ _ _ _ _ Ht).
    rewrite Hc, Hk. simpl.
    rewrite log_email_sent_row by done.
    pose proof (transmit_logs real to_email subject body html env w) as Hl.
    rewrite Ht in Hl. unfold same_logs in Hl. simpl in Hl. by rewrite Hl.
  - apply slice_to_short.
Qed.

(** C5 on a short body: the row of the dry run and the row of the real
    send differ in their clock readings only. *)
Lemma dry_run_row_truncated_witness :
  let dry := DryRunEmailSender.send_email null_sender "ana@example.com" "Hello"
               "Hi Ana" false true (Some id_campaign) (Some id_ana)
               (Some id_template) quiet_env (later_world 0) in
  let real := AsyncEmailSender.send_email default_sender "ana@example.com" "Hello"
               "Hi Ana" false true (Some id_campaign) (Some id_ana)
               (Some id_template) quiet_env (later_world 0) in
  dry.1 = Return (true, None)
  ∧ network dry.2 = []
  ∧ email_logs dry.2
    = [sent_row (Some id_campaign) (Some id_ana) (Some id_template) "Hello"
                "Hi Ana" 0 1]
  ∧ email_logs real.2
    = [sent_row (Some id_campaign) (Some id_ana) (Some id_template) "Hello"
                "Hi Ana" 5 6].
Proof.
  destruct (dry_run_row_truncated null_sender default_sender "ana@example.com"
              "Hello" "Hi Ana" false (Some id_campaign) (Some id_ana)
              (Some id_template) quiet_env (later_world 0) eq_refl eq_refl)
    as (Hret & Hnet & Hdry & Hreal & Hshort).
  split; [exact Hret|]. split; [exact Hnet|]. split.
  - rewrite (Hdry eq_refl). reflexivity.
  - rewrite (Hreal (transmitted_world
                      (mkMessage "Hello" "" "ana@example.com" "Hi Ana" "plain")));
      [reflexivity | vm_compute; reflexivity | reflexivity].
Defined.

(** C5 as stated fails: for a body of 501 characters the row of the dry
    run and the row of a real successful send differ in their body. *)
Lemma dry_run_row_counterexample :
  let dry := DryRunEmailSender.send_email null_sender "ana@example.com" "Hello"
               (filler 501) false true (Some id_campaign) (Some id_ana)
               (Some id_template) quiet_env (later_world 0) in
  let real := AsyncEmailSender.send_email default_sender "ana@example.com" "Hello"
               (filler 501) false true (Some id_campaign) (Some id_ana)
               (Some id_template) quiet_env (later_world 0) in
  dry.1 = Return (true, None)
  ∧ real.1 = Return (true, None)
  ∧ log_body <$> email_logs dry.2 = [filler 500]
  ∧ log_body <$> email_logs real.2 = [filler 501]
  ∧ log_body <$> email_logs dry.2 ≠ log_body <$> email_logs real.2.
Proof.
  repeat split; try (vm_compute; reflexivity).
  vm_compute. discriminate.
Qed.

(** C10. A failing insert of the log row does not change what [send_email]
    returns. After a transmission that went through, the real transport
    returns [(true, None)] although the insert failed and no row was
    written; after a transmission that raised it returns [(false, message)]
    all the same; and the null transport returns [(true, None)]. *)
Theorem log_failure_swallowed to_email subject body html cid kid tid env :
  truthy cid = true → truthy kid = true →
  (∀ self w w1,
     AsyncEmailSender.transmit self to_email subject body html env w = (Return tt, w1) →
     is_Some (fault env (S (S (ticks w1)))) →
     let r := AsyncEmailSender.send_email self to_email subject body html true
                cid kid tid env w in
     r.1 = Return (true, None) ∧ email_logs r.2 = email_logs w)
  ∧ (∀ self w w1 e,
     AsyncEmailSender.transmit self to_email subject body html env w = (Raise e, w1) →
     is_Some (fault env (S (ticks w1))) →
     let r := AsyncEmailSender.send_email self to_email subject body html true
                cid kid tid env w in
     r.1 = Return (false, Some (exn_str e)) ∧ email_logs r.2 = email_logs w)
  ∧ (∀ self w,
     is_Some (fault env (S (S (ticks w)))) →
     let r := DryRunEmailSender.send_email self to_email subject body html true
                cid kid tid env w in
     r.1 = Return (true, None) ∧ email_logs r.2 = email_logs w).
Proof.
  intros Hc Hk. split_and!.
  - intros self w w1 Ht Hf r. subst r.
    rewrite (real_send_email_transmitted _ _ _ _ _ _ _ _ _ _ _ _ Ht).
    rewrite Hc, Hk. simpl. split; [done|].
    rewrite log_email_insert_fails by done.
    pose proof (transmit_logs self to_email subject body html env w) as Hl.
    rewrite Ht in Hl. exact Hl.
  - intros self w w1 e Ht Hf r. subst r.
    rewrite (real_send_email_failed _ _ _ _ _ _ _ _ _ _ _ _ _ Ht).
    rewrite Hc, Hk. simpl. split; [done|].
    rewrite log_email_failed_insert_fails by done.
    pose proof (transmit_logs self to_email subject body html env w) as Hl.
    rewrite Ht in Hl. exact Hl.
  - intros self w [msg Hf] r. subst r. split.
    + apply null_send_email_returns.
    + unfold DryRunEmailSender.send_email, try_except, mbind, M_bind, utcnow,
        db.insert_one_email_log, db_call.
      rewrite Hc, Hk. simpl. by rewrite Hf.
Qed.

(** C10 when everything from the sixth interaction on fails: after a
    transmission that went through, after one whose login failed, and in
    a dry run. *)
Lemma log_failure_swallowed_witness :
  let real := AsyncEmailSender.send_email default_sender "ana@example.com" "Hello"
                "Hi Ana" false true (Some id_campaign) (Some id_ana)
                (Some id_template) (failing_from 5 "outage") (later_world 0) in
  let real_failed := AsyncEmailSender.send_email default_sender "ana@example.com"
                "Hello" "Hi Ana" false true (Some id_campaign) (Some id_ana)
                (Some id_template) (failing_from 5 "outage") (later_world 3) in
  let dry := DryRunEmailSender.send_email null_sender "ana@example.com" "Hello"
               "Hi Ana" false true (Some id_campaign) (Some id_ana)
               (Some id_template) (failing_from 5 "outage") (later_world 5) in
  (real.1 = Return (true, None) ∧ email_logs real.2 = [])
  ∧ (real_failed.1 = Return (false, Some "outage") ∧ email_logs real_failed.2 = [])
  ∧ (dry.1 = Return (true, None) ∧ email_logs dry.2 = []).
Proof.
  destruct (log_failure_swallowed "ana@example.com" "Hello" "Hi Ana" false
              (Some id_campaign) (Some id_ana) (Some id_template)
              (failing_from 5 "outage") eq_refl eq_refl)
    as (Hreal & Hfailed & Hdry).
  split; [|split].
  - apply (Hreal default_sender (later_world 0)
             (transmitted_world
                (mkMessage "Hello" "" "ana@example.com" "Hi Ana" "plain")));
      [vm_compute; reflexivity|].
    exists "outage". reflexivity.
  - refine (Hfailed default_sender (later_world 3) login_failed_world
              (PyError "SMTPException" "outage") _ _);
      [vm_compute; reflexivity|].
    exists "outage". reflexivity.
  - apply (Hdry null_sender (later_world 5)).
    exists "outage". reflexivity.
Defined.

(** * The histories of the campaigns collection *)

Global Instance untouched_preorder : PreOrder untouched.
Proof.
  split.
  - by intros w.
  - intros w1 w2 w3 (?&?&?&?&?&?) (?&?&?&?&?&?). unfold untouched.
    split_and!; congruence.
Qed.

Global Instance same_tasks_preorder : PreOrder same_tasks.
Proof. split; [by intros w | intros w1 w2 w3; unfold same_tasks; congruence]. Qed.

Section RunOutcomes.

(** A run that raises has written no campaign. *)
Lemma run_campaign_raises cid dry env w e w' :
  campaigns_routes.run_campaign cid dry env w = (Raise e, w') →
  campaigns w' = campaigns w.
Proof.
  unfold campaigns_routes.run_campaign, mbind, M_bind, lift.
  destruct (ObjectId cid) as [oid|] eqn:Hoid; [|by intros [= _ <-]].
  unfold db.find_one_campaign at 1, db_call at 1.
  destruct (fault env (ticks w)); [by intros [= _ <-]|]. simpl.
  destruct (campaigns w !! oid) as [c|] eqn:Hc; [|by intros [= _ <-]]. simpl.
  pose proof (ObjectId_of_documents (template_id c) env (step w))
    as (_ & _ & Hcampaigns1).
  destruct (ObjectId_of (template_id c) env (step w)) as [[tid|] w1];
    simpl in Hcampaigns1; [|by intros [= _ <-]].
  unfold db.find_one_template, db_call at 1.
  destruct (fault env (ticks w1)); [by intros [= _ <-]|]. simpl.
  destruct (templates w1 !! tid) as [t|];
    [|destruct dry; by intros [= _ <-]].
  assert (∀ es os,
    (let (o, wl) := campaigns_routes.send_loop es os cid c t (contact_ids c)
                      (0, 0)%Z env (step w1) in
     match o with
     | Return a2 =>
         (let '(sent_count, failed_count) := a2 in
          λ (env0 : Env) (w0 : World),
            db.update_one_campaign oid
              (campaigns_routes.set_completed sent_count failed_count
                 (clock env0 (ticks w0)) (clock env0 (S (ticks w0))))
              env0 (step (step w0))) env wl
     | Raise e => (Raise e, wl)
     end) = (Raise e, w') →
    campaigns w' = campaigns w) as Hloop.
  { intros es os.
    pose proof (send_loop_documents es os cid c t (contact_ids c) (0, 0)%Z
                  env (step w1)) as (_ & _ & Hcampaigns).
    destruct (campaigns_routes.send_loop _ _ _ _ _ _ _ env (step w1))
      as [[[sent failed]|e'] wl]; simpl in Hcampaigns.
    - unfold db.update_one_campaign, db_call. simpl.
      destruct (fault env (S (S (ticks wl)))); [|done].
      intros [= _ <-]. simpl. congruence.
    - intros [= _ <-]. congruence. }
  destruct dry; simpl; destruct (t_use_llm t); simpl; apply Hloop.
Qed.

End RunOutcomes.

Section Untouched.

Lemma untouched_step (w : World) : untouched w (step w).
Proof. done. Qed.

Lemma find_one_contact_untouched oid : frame untouched (db.find_one_contact oid).
Proof. apply frame_find_one_contact; [apply _ | apply untouched_step]. Qed.

Lemma validate_contacts_untouched ids :
  frame untouched (campaigns_routes.validate_contacts ids).
Proof.
  induction ids as [|id ids IH]; simpl.
  - apply frame_ret. apply _.
  - apply frame_bind; [apply _ | | intros contact].
    + apply frame_try_except; [apply _ | | intros e; apply frame_raise; apply _].
      apply frame_bind; [apply _ | apply frame_lift; apply _ | intros oid].
      apply frame_bind; [apply _ | apply find_one_contact_untouched | intros [c|]].
      * apply frame_ret. apply _.
      * apply frame_raise. apply _.
    + apply frame_bind; [apply _ | apply IH | intros cs].
      apply frame_ret. apply _.
Qed.

End Untouched.

(** ** What each route does to the campaigns and to the tasks *)

Lemma untouched_same_tasks (w w' : World) : untouched w w' → same_tasks w w'.
Proof. by intros (_&_&_&_&_&?). Qed.

Lemma validate_contacts_tasks ids :
  frame same_tasks (campaigns_routes.validate_contacts ids).
Proof. intros env w. apply untouched_same_tasks, validate_contacts_untouched. Qed.

Ltac tasks_step :=
  first
    [ frame_step
    | intros ?; reflexivity
    | apply frame_send_loop; [apply _ | intros ?; reflexivity ..]
    | apply validate_contacts_tasks
    | apply frame_ret; apply _
    | apply frame_raise; apply _
    | intros [] ].

Section Effects.

Lemma create_campaign_tasks campaign :
  frame same_tasks (campaigns_routes.create_campaign campaign).
Proof.
  unfold campaigns_routes.create_campaign, campaigns_routes.campaign_response,
    db.find_one_template, db.insert_one_campaign, db.find_one_campaign.
  repeat tasks_step.
Qed.

Lemma update_campaign_tasks campaign_id campaign_update :
  frame same_tasks (campaigns_routes.update_campaign campaign_id campaign_update).
Proof.
  unfold campaigns_routes.update_campaign, campaigns_routes.campaign_response,
    db.update_one_campaign, db.find_one_campaign.
  repeat tasks_step.
Qed.

Lemma delete_campaign_tasks campaign_id :
  frame same_tasks (campaigns_routes.delete_campaign campaign_id).
Proof.
  unfold campaigns_routes.delete_campaign, db.delete_one_campaign,
    db.find_one_campaign.
  repeat tasks_step.
Qed.

Lemma run_tasks campaign_id dry :
  frame same_tasks (campaigns_routes._send_campaign_emails campaign_id dry).
Proof.
  unfold campaigns_routes._send_campaign_emails, campaigns_routes.run_campaign,
    campaigns_routes.subscript, AsyncEmailSender.init, DryRunEmailSender.init,
    OllamaService.init, db.update_one_campaign, db.find_one_campaign,
    db.find_one_template.
  repeat tasks_step.
Qed.

(** [send_campaign] changes nothing, or starts a draft or paused campaign
    and adds its task. *)
Lemma send_campaign_effect campaign_id send_request env w :
  let w' := (campaigns_routes.send_campaign campaign_id send_request env w).2 in
  (campaigns w' = campaigns w ∧ background_tasks w' = background_tasks w)
  ∨ (∃ oid c started updated,
      ObjectId campaign_id = Return oid
      ∧ campaigns w !! oid = Some c
      ∧ status c ∈ [Some DRAFT; Some PAUSED]
      ∧ campaigns w'
        = <[oid := campaigns_routes.set_started started updated c]> (campaigns w)
      ∧ background_tasks w'
        = (background_tasks w ++ [(campaign_id, dry_run send_request)])%list).
Proof.
  unfold campaigns_routes.send_campaign, try_except, mbind, M_bind, lift,
    db.find_one_campaign, db.update_one_campaign, db_call, utcnow,
    campaigns_routes.add_task, raise.
  destruct (ObjectId campaign_id) as [oid|] eqn:Hoid; [|by left].
  destruct (fault env (ticks w)); simpl; [by left|].
  destruct (campaigns w !! oid) as [c|] eqn:Hc; [|by left].
  destruct (bool_decide (status c ∈ [Some DRAFT; Some PAUSED])) eqn:Hst;
    simpl; [|by left].
  apply bool_decide_eq_true_1 in Hst.
  destruct (fault env (S (S (S (ticks w))))); simpl; [by left|].
  right. exists oid, c, (clock env (S (ticks w))), (clock env (S (S (ticks w)))).
  split_and!; try done.
  apply map_eq. intros i. rewrite lookup_alter, lookup_insert.
  case_decide; [subst i; by rewrite Hc | done].
Qed.

(** [update_campaign] changes nothing, or rewrites a campaign that is
    neither in progress nor completed, leaving its counters. *)
Lemma update_campaign_effect campaign_id campaign_update env w :
  let w' := (campaigns_routes.update_campaign campaign_id campaign_update env w).2 in
  campaigns w' = campaigns w
  ∨ (∃ oid c updated,
      campaigns w !! oid = Some c
      ∧ (status c ∉ [Some IN_PROGRESS; Some COMPLETED])
      ∧ campaigns w'
        = <[oid := campaigns_routes.set_update campaign_update updated c]>
            (campaigns w)).
Proof.
  unfold campaigns_routes.update_campaign, try_except, mbind, M_bind, lift,
    db.find_one_campaign, db.update_one_campaign, db_call, utcnow, raise.
  destruct (ObjectId campaign_id) as [oid|] eqn:Hoid; [|by left].
  destruct (fault env (ticks w)); simpl; [by left|].
  destruct (campaigns w !! oid) as [c|] eqn:Hc; [|by left].
  destruct (bool_decide (status c ∈ [Some IN_PROGRESS; Some COMPLETED])) eqn:Hst;
    simpl; [by left|].
  apply bool_decide_eq_false_1 in Hst.
  assert (alter (campaigns_routes.set_update campaign_update
                   (clock env (S (ticks w)))) oid (campaigns w)
          = <[oid := campaigns_routes.set_update campaign_update
                       (clock env (S (ticks w))) c]> (campaigns w)) as Halter.
  { apply map_eq. intros i. rewrite lookup_alter, lookup_insert.
    case_decide; [subst i; by rewrite Hc | done]. }
  destruct (cu_contact_ids campaign_update); simpl; [|by left|];
    (destruct (fault env (S (S (ticks w)))); simpl; [by left|];
     right; exists oid, c, (clock env (S (ticks w)));
     split; [done|]; split; [done|];
     destruct (fault env (S (S (S (ticks w))))); simpl; [exact Halter|];
     rewrite lookup_alter, decide_True by done; rewrite Hc; simpl;
     unfold campaigns_routes.campaign_response;
     repeat match goal with
            | |- context [match ?x with Some _ => _ | None => _ end] =>
                destruct x
            end; exact Halter).
Qed.

(** [delete_campaign] changes nothing, or removes a campaign that is not
    in progress. *)
Lemma delete_campaign_effect campaign_id env w :
  let w' := (campaigns_routes.delete_campaign campaign_id env w).2 in
  campaigns w' = campaigns w
  ∨ (∃ oid c,
      campaigns w !! oid = Some c
      ∧ status c ≠ Some IN_PROGRESS
      ∧ campaigns w' = delete oid (campaigns w)).
Proof.
  unfold campaigns_routes.delete_campaign, try_except, mbind, M_bind, lift,
    db.find_one_campaign, db.delete_one_campaign, db_call, raise.
  destruct (ObjectId campaign_id) as [oid|] eqn:Hoid; [|by left].
  destruct (fault env (ticks w)); simpl; [by left|].
  destruct (campaigns w !! oid) as [c|] eqn:Hc; [|by left].
  destruct (bool_decide (status c = Some IN_PROGRESS)) eqn:Hst; simpl; [by left|].
  apply bool_decide_eq_false_1 in Hst.
  destruct (fault env (S (ticks w))); simpl; [by left|].
  right. by exists oid, c.
Qed.

(** [create_campaign] changes nothing, or adds a draft with both counters
    zero under an id no campaign had. *)
Lemma create_campaign_effect campaign env w :
  let w' := (campaigns_routes.create_campaign campaign env w).2 in
  campaigns w' = campaigns w
  ∨ (∃ oid c,
      campaigns w !! oid = None
      ∧ campaigns w' = <[oid := c]> (campaigns w)
      ∧ status c = Some DRAFT
      ∧ sent_count c = 0%Z ∧ failed_count c = 0%Z).
Proof.
  cbv zeta.
  destruct (campaigns_routes.create_campaign campaign env w) as [o w'] eqn:Hrun.
  simpl. revert Hrun.
  unfold campaigns_routes.create_campaign.
  unfold try_except, mbind at 1, M_bind at 1, mbind at 1, M_bind at 1, lift,
    db.find_one_template, db_call, raise.
  destruct (ObjectId (cc_template_id campaign)) as [tid|];
    [|intros [= _ <-]; by left].
  destruct (fault env (ticks w)); simpl; [intros [= _ <-]; by left|].
  destruct (templates w !! tid) as [t|]; [|intros [= _ <-]; by left].
  pose proof (validate_contacts_untouched (cc_contact_ids campaign) env (step w))
    as (_ & _ & Hcamp & _).
  destruct (campaigns_routes.validate_contacts (cc_contact_ids campaign) env (step w))
    as [[cs|e] w1] eqn:Hv; simpl in Hcamp.
  2: { unfold mbind, M_bind. rewrite Hv. intros [= _ <-]. by left. }
  unfold mbind, M_bind, utcnow, db.insert_one_campaign, db.find_one_campaign,
    db_call.
  rewrite Hv. simpl.
  destruct (fault env (S (S (ticks w1)))); simpl; [intros [= _ <-]; by left|].
  intros Hrun. right. exists (fresh (dom (campaigns w1))).
  exists (mkCampaign (Some (cc_name campaign)) (Some (cc_template_id campaign))
            (cc_contact_ids campaign) (cc_description campaign)
            (cc_scheduled_at campaign) (Some DRAFT)
            (clock env (ticks w1)) (clock env (S (ticks w1))) None None
            (Z.of_nat (length (cc_contact_ids campaign))) 0 0).
  split; [rewrite <- Hcamp; apply not_elem_of_dom, is_fresh|].
  rewrite <- Hcamp.
  split; [|done].
  revert Hrun.
  destruct (fault env (S (S (S (ticks w1))))); simpl; [by intros [= _ <-]|].
  rewrite lookup_insert_eq. simpl. by intros [= _ <-].
Qed.

(** The background run changes nothing, or rewrites the campaign it was
    started for: as completed, or as failed with the counters it had. *)
Lemma run_effect campaign_id dry env w :
  let w' := (campaigns_routes._send_campaign_emails campaign_id dry env w).2 in
  campaigns w' = campaigns w
  ∨ (∃ oid c c',
      ObjectId campaign_id = Return oid
      ∧ campaigns w !! oid = Some c
      ∧ campaigns w' = <[oid := c']> (campaigns w)
      ∧ (status c' = Some COMPLETED
         ∨ (status c' = Some FAILED
            ∧ sent_count c' = sent_count c ∧ failed_count c' = failed_count c))).
Proof.
  unfold campaigns_routes._send_campaign_emails, try_except.
  destruct (campaigns_routes.run_campaign campaign_id dry env w)
    as [[[]|e] w1] eqn:Hrun; simpl.
  - destruct (run_campaign_returns _ _ _ _ _ Hrun)
      as (oid & c & sent & failed & completed & updated & Hoid & Hc & Hw1 & _).
    right. exists oid, c, (campaigns_routes.set_completed sent failed completed updated c).
    split_and!; try done. by left.
  - apply run_campaign_raises in Hrun.
    unfold mbind, M_bind, lift, utcnow, db.update_one_campaign, db_call.
    destruct (ObjectId campaign_id) as [oid|] eqn:Hoid; [|by left].
    simpl. destruct (fault env (S (ticks w1))); simpl; [by left|].
    rewrite Hrun.
    destruct (campaigns w !! oid) as [c|] eqn:Hc.
    + right. exists oid, c, (campaigns_routes.set_failed (clock env (ticks w1)) c).
      split_and!; try done; [|by right].
      apply map_eq. intros i. rewrite lookup_alter, lookup_insert.
      case_decide; [subst i; by rewrite Hc | done].
    + left. apply map_eq. intros i. rewrite lookup_alter.
      case_decide; [subst i; by rewrite Hc | done].
Qed.

End Effects.

(** ** The invariant *)

Section Invariant.

Lemma invariant_same w w' :
  campaigns w' = campaigns w →
  background_tasks w' = background_tasks w →
  run_invariant w → run_invariant w'.
Proof.
  unfold run_invariant, counters_fresh, tasks_in_progress.
  intros -> ->. done.
Qed.

Lemma task_oids_elem oid tasks :
  oid ∈ task_oids tasks ↔ ∃ task, task ∈ tasks ∧ ObjectId task.1 = Return oid.
Proof.
  unfold task_oids. rewrite list_elem_of_omap. split.
  - intros (task & Hin & Hoid). exists task. split; [done|].
    destruct (ObjectId task.1); by simplify_eq.
  - intros (task & Hin & Hoid). exists task. split; [done|]. by rewrite Hoid.
Qed.

(** A campaign that is not in progress has no run to come. *)
Lemma no_task_unless_in_progress w oid :
  tasks_in_progress w →
  (∀ c, campaigns w !! oid = Some c → status c ≠ Some IN_PROGRESS) →
  oid ∉ task_oids (background_tasks w).
Proof.
  intros Htasks Hc Hin. apply task_oids_elem in Hin as (task & Hin & Hoid).
  destruct (Htasks task Hin) as (oid' & c & Hoid' & Hlook & Hst).
  assert (oid' = oid) as -> by congruence.
  by apply (Hc c).
Qed.

(** Fewer runs to come. *)
Lemma invariant_task_gone w w' pre task post :
  campaigns w' = campaigns w →
  background_tasks w = (pre ++ task :: post)%list →
  background_tasks w' = (pre ++ post)%list →
  run_invariant w → run_invariant w'.
Proof.
  intros Hc Hw Hw' (Hfresh & Htasks & Hnodup). split_and!.
  - intros oid c. rewrite Hc. apply Hfresh.
  - intros t Hin. rewrite Hc. apply Htasks. rewrite Hw.
    rewrite Hw' in Hin. apply elem_of_app in Hin as [?|?]; apply elem_of_app;
      [by left | right; by apply list_elem_of_further].
  - rewrite Hw in Hnodup. rewrite Hw'. unfold task_oids in *.
    rewrite omap_app in *. simpl in Hnodup.
    destruct (ObjectId task.1); [|done].
    apply NoDup_app in Hnodup as (Hpre & Hdisj & Hpost).
    apply NoDup_cons in Hpost as [_ Hpost].
    apply NoDup_app. split_and!; try done.
    intros x Hx Hx'. apply (Hdisj x Hx). by apply list_elem_of_further.
Qed.

(** One document written, of a campaign that has no run to come. *)
Lemma invariant_write w w' oid c' :
  run_invariant w →
  oid ∉ task_oids (background_tasks w) →
  campaigns w' = <[oid := c']> (campaigns w) →
  background_tasks w' = background_tasks w →
  (status c' ≠ Some COMPLETED → sent_count c' = 0%Z ∧ failed_count c' = 0%Z) →
  run_invariant w'.
Proof.
  intros (Hfresh & Htasks & Hnodup) Hnot Hc Ht Hc'. split_and!.
  - intros i c. rewrite Hc, lookup_insert. case_decide.
    + intros [= <-]. apply Hc'.
    + apply Hfresh.
  - intros task Hin. rewrite Ht in Hin.
    destruct (Htasks task Hin) as (i & c & Hoid & Hlook & Hst).
    exists i, c. split_and!; try done.
    rewrite Hc, lookup_insert_ne; [done|].
    intros <-. apply Hnot, task_oids_elem. eauto.
  - by rewrite Ht.
Qed.

Lemma invariant_delete w w' oid :
  run_invariant w →
  oid ∉ task_oids (background_tasks w) →
  campaigns w' = delete oid (campaigns w) →
  background_tasks w' = background_tasks w →
  run_invariant w'.
Proof.
  intros (Hfresh & Htasks & Hnodup) Hnot Hc Ht. split_and!.
  - intros i c. rewrite Hc, lookup_delete. case_decide; [done|apply Hfresh].
  - intros task Hin. rewrite Ht in Hin.
    destruct (Htasks task Hin) as (i & c & Hoid & Hlook & Hst).
    exists i, c. split_and!; try done.
    rewrite Hc, lookup_delete_ne; [done|].
    intros <-. apply Hnot, task_oids_elem. eauto.
  - by rewrite Ht.
Qed.

(** A campaign started and its run added. *)
Lemma invariant_start w w' campaign_id dry oid c started updated :
  run_invariant w →
  ObjectId campaign_id = Return oid →
  campaigns w !! oid = Some c →
  status c ∈ [Some DRAFT; Some PAUSED] →
  campaigns w' = <[oid := campaigns_routes.set_started started updated c]> (campaigns w) →
  background_tasks w' = (background_tasks w ++ [(campaign_id, dry)])%list →
  run_invariant w'.
Proof.
  intros (Hfresh & Htasks & Hnodup) Hoid Hlook Hst Hc Ht.
  assert (status c ≠ Some IN_PROGRESS ∧ status c ≠ Some COMPLETED) as [Hnp Hnc].
  { rewrite !elem_of_cons, elem_of_nil in Hst.
    destruct Hst as [->|[->|[]]]; by split. }
  assert (oid ∉ task_oids (background_tasks w)) as Hnot.
  { apply no_task_unless_in_progress; [done|]. intros c0. rewrite Hlook.
    by intros [= <-]. }
  split_and!.
  - intros i c0. rewrite Hc, lookup_insert. case_decide.
    + intros [= <-] _. simpl. by apply (Hfresh oid c).
    + apply Hfresh.
  - intros task Hin. rewrite Ht in Hin. apply elem_of_app in Hin as [Hin|Hin].
    + destruct (Htasks task Hin) as (i & c0 & Hoid0 & Hlook0 & Hst0).
      exists i, c0. split_and!; try done.
      rewrite Hc, lookup_insert_ne; [done|].
      intros <-. apply Hnot, task_oids_elem. eauto.
    + apply list_elem_of_singleton in Hin as ->. simpl.
      exists oid, (campaigns_routes.set_started started updated c).
      split_and!; try done. by rewrite Hc, lookup_insert_eq.
  - rewrite Ht. unfold task_oids. rewrite omap_app. simpl. rewrite Hoid.
    apply NoDup_app. split_and!; [done| |apply NoDup_singleton].
    intros x Hx Hx'. apply list_elem_of_singleton in Hx' as ->. by apply Hnot.
Qed.

Lemma invariant_request r env w :
  run_invariant w → run_invariant (after_request r env w).
Proof.
  intros Hinv. destruct r as [campaign|campaign_id u|campaign_id|campaign_id req];
    simpl.
  - pose proof (create_campaign_tasks campaign env w) as Ht.
    destruct (create_campaign_effect campaign env w)
      as [Hc|(oid & c & Hnone & Hc & Hst & Hs & Hf)].
    + by apply (invariant_same w).
    + apply (invariant_write w _ oid c); try done.
      apply no_task_unless_in_progress; [apply Hinv|]. intros c0.
      by rewrite Hnone.
  - pose proof (update_campaign_tasks campaign_id u env w) as Ht.
    destruct (update_campaign_effect campaign_id u env w)
      as [Hc|(oid & c & updated & Hlook & Hst & Hc)].
    + by apply (invariant_same w).
    + assert (status c ≠ Some IN_PROGRESS ∧ status c ≠ Some COMPLETED)
        as [Hnp Hnc].
      { rewrite !elem_of_cons, elem_of_nil in Hst. split; intros Heq; apply Hst; auto. }
      apply (invariant_write w _ oid (campaigns_routes.set_update u updated c));
        try done.
      * apply no_task_unless_in_progress; [apply Hinv|]. intros c0.
        rewrite Hlook. by intros [= <-].
      * intros _. simpl. by apply (proj1 Hinv oid c).
  - pose proof (delete_campaign_tasks campaign_id env w) as Ht.
    destruct (delete_campaign_effect campaign_id env w)
      as [Hc|(oid & c & Hlook & Hst & Hc)].
    + by apply (invariant_same w).
    + apply (invariant_delete w _ oid); try done.
      apply no_task_unless_in_progress; [apply Hinv|]. intros c0.
      rewrite Hlook. by intros [= <-].
  - destruct (send_campaign_effect campaign_id req env w)
      as [[Hc Ht]|(oid & c & started & updated & Hoid & Hlook & Hst & Hc & Ht)].
    + by apply (invariant_same w).
    + by apply (invariant_start w _ campaign_id (dry_run req) oid c started updated).
Qed.

Lemma invariant_task pre task post env w :
  background_tasks w = (pre ++ task :: post)%list →
  run_invariant w → run_invariant (after_task pre post task env w).
Proof.
  intros Hw Hinv. unfold after_task.
  set (w0 := set_background_tasks (pre ++ post) w).
  assert (run_invariant w0) as Hinv0
    by (by apply (invariant_task_gone w w0 pre task post)).
  destruct Hinv as (Hfresh & Htasks & Hnodup).
  destruct (Htasks task) as (oid & c & Hoid & Hlook & Hst).
  { rewrite Hw. apply elem_of_app. right. apply list_elem_of_here. }
  assert (oid ∉ task_oids (background_tasks w0)) as Hnot.
  { simpl. rewrite Hw in Hnodup. unfold task_oids in *.
    rewrite omap_app in *. simpl in Hnodup. rewrite Hoid in Hnodup.
    apply NoDup_app in Hnodup as (_ & Hdisj & Hpost).
    apply NoDup_cons in Hpost as [Hpost _].
    intros Hin. apply elem_of_app in Hin as [Hin|Hin]; [|done].
    apply (Hdisj oid Hin). apply list_elem_of_here. }
  pose proof (run_tasks task.1 task.2 env w0) as Ht.
  destruct (run_effect task.1 task.2 env w0)
    as [Hc|(oid' & c0 & c' & Hoid' & Hlook' & Hc & Hc')].
  - by apply (invariant_same w0).
  - assert (oid' = oid) as -> by congruence.
    assert (c0 = c) as -> by (simpl in Hlook'; congruence).
    apply (invariant_write w0 _ oid c'); try done.
    destruct Hc' as [->|(_ & -> & ->)]; [done|].
    intros _. apply (Hfresh oid c Hlook). by rewrite Hst.
Qed.

(** Every reachable world satisfies the invariant. *)
Lemma reachable_invariant w : reachable w → run_invariant w.
Proof.
  induction 1 as [w Hc Ht|r env w _ IH|pre task post env w _ IH Hw
                  |w w' _ IH Hc Ht|w w' _ IH Hc Ht].
  - split_and!.
    + intros oid c. by rewrite Hc, lookup_empty.
    + intros task. rewrite Ht. by intros ?%elem_of_nil.
    + rewrite Ht. apply NoDup_nil_2.
  - by apply invariant_request.
  - by apply invariant_task.
  - by apply (invariant_same w).
  - destruct IH as (Hfresh & _ & _). split_and!.
    + intros oid c. rewrite Hc. apply Hfresh.
    + intros task. rewrite Ht. by intros ?%elem_of_nil.
    + rewrite Ht. apply NoDup_nil_2.
Qed.

(** In a reachable world a campaign that is not completed has both
    counters at zero. *)
Lemma reachable_counters_fresh w oid c :
  reachable w → campaigns w !! oid = Some c → status c ≠ Some COMPLETED →
  sent_count c = 0%Z ∧ failed_count c = 0%Z.
Proof. intros Hr. by apply (reachable_invariant w Hr). Qed.

End Invariant.

(** * Starting a send *)

(** Any campaign that is neither draft nor paused is turned away before
    anything is written. *)
Lemma send_rejected campaign_id send_request env w oid c :
  ObjectId campaign_id = Return oid →
  campaigns w !! oid = Some c →
  status c ∉ [Some DRAFT; Some PAUSED] →
  let r := campaigns_routes.send_campaign campaign_id send_request env w in
  (∃ e, r.1 = Raise e)
  ∧ campaigns r.2 = campaigns w
  ∧ background_tasks r.2 = background_tasks w
  ∧ (fault env (ticks w) = None →
     r.1 = Raise (HTTPException 400
                    ("Cannot send campaign with status: "
                     +:+ status_str (status c)))).
Proof.
  intros Hoid Hc Hst r. subst r.
  unfold campaigns_routes.send_campaign, try_except, mbind, M_bind, lift,
    db.find_one_campaign, db_call, raise.
  rewrite Hoid.
  destruct (fault env (ticks w)) as [msg|]; simpl.
  { split_and!; eauto. done. }
  rewrite Hc.
  rewrite (bool_decide_eq_false_2 _ Hst).
  simpl. split_and!; eauto.
Qed.

(** C3. A send-request for a campaign that is not draft, paused or
    scheduled is rejected: [send_campaign] raises, the campaigns collection
    (status, counters and timestamps of every campaign) is left as it was,
    no background run is scheduled, and when the lookup went through the
    error is the 400 that names the current status. *)
Theorem send_rejected_unchanged campaign_id send_request env w oid c :
  ObjectId campaign_id = Return oid →
  campaigns w !! oid = Some c →
  status c ∉ [Some DRAFT; Some PAUSED; Some SCHEDULED] →
  let r := campaigns_routes.send_campaign campaign_id send_request env w in
  (∃ e, r.1 = Raise e)
  ∧ campaigns r.2 = campaigns w
  ∧ background_tasks r.2 = background_tasks w
  ∧ (fault env (ticks w) = None →
     r.1 = Raise (HTTPException 400
                    ("Cannot send campaign with status: "
                     +:+ status_str (status c)))).
Proof.
  intros Hoid Hc Hst. apply (send_rejected _ _ _ _ oid); [done | done |].
  intros Hin. apply Hst.
  rewrite !elem_of_cons in Hin. rewrite !elem_of_cons. tauto.
Qed.

(** C3 on a completed campaign. *)
Lemma send_rejected_unchanged_witness :
  let r := campaigns_routes.send_campaign id_campaign (mkSendRequest false)
             quiet_env (scenario_world welcome (spring COMPLETED 2 1)) in
  (∃ e, r.1 = Raise e)
  ∧ campaigns r.2 = campaigns (scenario_world welcome (spring COMPLETED 2 1))
  ∧ background_tasks r.2 = []
  ∧ r.1 = Raise (HTTPException 400 "Cannot send campaign with status: completed").
Proof.
  destruct (send_rejected_unchanged id_campaign (mkSendRequest false) quiet_env
              (scenario_world welcome (spring COMPLETED 2 1)) 193%N
              (spring COMPLETED 2 1))
    as (Hraise & Hcamp & Htasks & Hmsg).
  - vm_compute. reflexivity.
  - vm_compute. reflexivity.
  - rewrite !elem_of_cons, elem_of_nil. simpl. intros [?|[?|[?|[]]]]; discriminate.
  - intros r. split; [exact Hraise|]. split; [exact Hcamp|].
    split; [exact Htasks|]. apply Hmsg. reflexivity.
Defined.

(** What the request itself writes for a draft or paused campaign (lookup
    and update going through): the status, the start timestamp and the
    update timestamp; every other field of the document, the counters
    among them, is left as it was. *)
Lemma send_campaign_started campaign_id send_request env w oid c :
  ObjectId campaign_id = Return oid →
  campaigns w !! oid = Some c →
  status c ∈ [Some DRAFT; Some PAUSED] →
  fault env (ticks w) = None →
  fault env (S (S (S (ticks w)))) = None →
  let r := campaigns_routes.send_campaign campaign_id send_request env w in
  let c' := campaigns_routes.set_started (clock env (S (ticks w)))
              (clock env (S (S (ticks w)))) c in
  r.1 = Return (mkSendResponse "Campaign started" campaign_id (dry_run send_request))
  ∧ campaigns r.2 = <[oid := c']> (campaigns w)
  ∧ contacts r.2 = contacts w ∧ templates r.2 = templates w
  ∧ background_tasks r.2
    = (background_tasks w ++ [(campaign_id, dry_run send_request)])%list
  ∧ email_logs r.2 = email_logs w
  ∧ network r.2 = network w.
Proof.
  intros Hoid Hc Hst Hf1 Hf2 r c'. subst r c'.
  unfold campaigns_routes.send_campaign, try_except, mbind, M_bind, lift,
    db.find_one_campaign, db.update_one_campaign, db_call, utcnow,
    campaigns_routes.add_task, raise.
  rewrite Hoid, Hf1. simpl. rewrite Hc.
  rewrite (bool_decide_eq_true_2 _ Hst). simpl. rewrite Hf2. simpl.
  split_and!; try done.
  apply map_eq. intros i. rewrite lookup_alter, lookup_insert.
  case_decide; [subst i; by rewrite Hc | done].
Qed.

(** C4. In every world the program reaches, a send-request for a draft or
    paused campaign (lookup and update going through) answers "Campaign
    started", sets the status to in_progress, records the start timestamp,
    and the campaign then has both counters at zero; the background run is
    scheduled and no recipient has been processed: no log row is written
    and nothing is sent. The request writes no counter itself: a campaign
    that is not completed has both counters at zero in every reachable
    world, since they are written together with the status completed only
    and a completed campaign can be neither updated nor sent again. *)
Theorem send_starts_campaign campaign_id send_request env w oid c :
  reachable w →
  ObjectId campaign_id = Return oid →
  campaigns w !! oid = Some c →
  status c ∈ [Some DRAFT; Some PAUSED] →
  fault env (ticks w) = None →
  fault env (S (S (S (ticks w)))) = None →
  ∃ c' w',
    campaigns_routes.send_campaign campaign_id send_request env w
    = (Return (mkSendResponse "Campaign started" campaign_id (dry_run send_request)),
       w')
    ∧ campaigns w' = <[oid := c']> (campaigns w)
    ∧ status c' = Some IN_PROGRESS
    ∧ started_at c' = Some (clock env (S (ticks w)))
    ∧ sent_count c' = 0%Z
    ∧ failed_count c' = 0%Z
    ∧ background_tasks w'
      = (background_tasks w ++ [(campaign_id, dry_run send_request)])%list
    ∧ email_logs w' = email_logs w
    ∧ network w' = network w.
Proof.
  intros Hreach Hoid Hc Hst Hf1 Hf2.
  destruct (send_campaign_started campaign_id send_request env w oid c
              Hoid Hc Hst Hf1 Hf2)
    as (Hret & Hcamp & _ & _ & Htasks & Hlogs & Hnet).
  destruct (reachable_counters_fresh w oid c Hreach Hc) as [Hsent Hfailed].
  { rewrite !elem_of_cons, elem_of_nil in Hst.
    by destruct Hst as [->|[->|[]]]. }
  destruct (campaigns_routes.send_campaign campaign_id send_request env w)
    as [o w'] eqn:Hrun. simpl in *. subst o.
  exists (campaigns_routes.set_started (clock env (S (ticks w)))
            (clock env (S (S (ticks w)))) c), w'.
  split_and!; done.
Qed.

(** C4 on a campaign that was sent, failed, and was set to paused: the
    second send-request finds both counters at zero. *)
Lemma send_starts_campaign_witness :
  ∃ c' w',
    campaigns_routes.send_campaign id_first (mkSendRequest false) quiet_env
      paused_world
    = (Return (mkSendResponse "Campaign started" id_first false), w')
    ∧ campaigns w' = <[0%N := c']> (campaigns paused_world)
    ∧ status c' = Some IN_PROGRESS
    ∧ started_at c' = Some (clock quiet_env (S (ticks paused_world)))
    ∧ sent_count c' = 0%Z
    ∧ failed_count c' = 0%Z
    ∧ background_tasks w'
      = (background_tasks paused_world ++ [(id_first, false)])%list
    ∧ email_logs w' = email_logs paused_world
    ∧ network w' = network paused_world.
Proof.
  apply (send_starts_campaign id_first (mkSendRequest false) quiet_env paused_world
           0%N (mkCampaign (Some "autumn") (Some id_template) [id_ana; id_bob]
                  None None (Some PAUSED) 3 16 (Some 8%Z) None 2 0 0)).
  - apply (reachable_request (UpdateCampaign id_first pause) quiet_env).
    apply (reachable_task [] (id_first, true) []
             (failing_at 12 "connection reset")); [|vm_compute; reflexivity].
    apply (reachable_request (SendCampaign id_first (mkSendRequest true)) quiet_env).
    apply (reachable_request (CreateCampaign autumn) quiet_env).
    apply reachable_start; reflexivity.
  - vm_compute. reflexivity.
  - vm_compute. reflexivity.
  - apply elem_of_cons. right. apply elem_of_cons. by left.
  - reflexivity.
  - reflexivity.
Defined.

(** * The loop of the runner *)

(** C6. When a contact reference of a running campaign resolves to no
    contact (or the lookup itself fails), the iteration adds one to the
    failed tally, leaves the sent tally, writes no log row, sends nothing,
    and the loop goes on with the next reference. *)
Theorem missing_contact_counted_failed es os cid c t kid rest sent failed
    env w oid :
  ObjectId kid = Return oid →
  contacts w !! oid = None →
  campaigns_routes.send_loop es os cid c t (kid :: rest) (sent, failed) env w
  = campaigns_routes.send_loop es os cid c t rest (sent, failed + 1)%Z env (step w)
  ∧ email_logs (step w) = email_logs w
  ∧ network (step w) = network w.
Proof.
  intros Hoid Hc. split; [|done].
  simpl campaigns_routes.send_loop.
  unfold campaigns_routes.send_one, try_except, mbind, M_bind, lift,
    db.find_one_contact, db_call.
  rewrite Hoid.
  destruct (fault env (ticks w)); simpl; [done|].
  by rewrite Hc.
Qed.

(** C6 on the deleted contact of the scenario. *)
Lemma missing_contact_counted_failed_witness :
  campaigns_routes.send_loop (NullSender null_sender) None id_campaign
    (spring IN_PROGRESS 0 0) welcome [id_gone; id_bob] (1, 0)%Z
    quiet_env (later_world 5)
  = campaigns_routes.send_loop (NullSender null_sender) None id_campaign
    (spring IN_PROGRESS 0 0) welcome [id_bob] (1, 1)%Z
    quiet_env (step (later_world 5))
  ∧ email_logs (step (later_world 5)) = email_logs (later_world 5)
  ∧ network (step (later_world 5)) = network (later_world 5).
Proof.
  apply (missing_contact_counted_failed (NullSender null_sender) None id_campaign
           (spring IN_PROGRESS 0 0) welcome id_gone [id_bob] 1 0 quiet_env
           (later_world 5) 162%N).
  - vm_compute. reflexivity.
  - vm_compute. reflexivity.
Defined.

(** C7. On the personalization path (the contact is found and its
    dictionary is built, so that the body is asked of the text-generation
    service), when the text-generation call raises for a recipient, the
    iteration adds one to the failed tally, leaves the sent tally, writes
    no log row, attempts no send (the only traffic is the call to the
    text-generation service), and the loop goes on with the next
    reference. *)
Theorem personalization_failure_counted_failed es svc cid c t kid rest sent failed
    env w oid contact recipient_data msg :
  ObjectId kid = Return oid →
  contacts w !! oid = Some contact →
  campaigns_routes.recipient_data_of contact = Return recipient_data →
  fault env (ticks w) = None →
  fault env (S (ticks w)) = Some msg →
  let w' := set_network
              (network w ++ [OllamaChat (OllamaService.model svc) (t_content t)
                               recipient_data])
              (step (step w)) in
  campaigns_routes.send_loop es (Some svc) cid c t (kid :: rest) (sent, failed) env w
  = campaigns_routes.send_loop es (Some svc) cid c t rest (sent, failed + 1)%Z env w'
  ∧ email_logs w' = email_logs w
  ∧ same_smtp w w'.
Proof.
  intros Hoid Hc Hdata Hf1 Hf2 w'. subst w'. split; [|split; [done|]].
  - simpl campaigns_routes.send_loop.
    unfold campaigns_routes.send_one, OllamaService.generate_email,
      try_except, mbind, M_bind, lift, db.find_one_contact, db_call,
      net_call, raise.
    rewrite Hoid, Hf1. simpl. rewrite Hc, Hdata. simpl. by rewrite Hf2.
  - unfold same_smtp. simpl. rewrite filter_app.
    rewrite (filter_cons_False (λ ev, is_smtp ev = true)) by done.
    by rewrite filter_nil, app_nil_r.
Qed.

(** C7 when the text-generation service refuses the first call. *)
Lemma personalization_failure_counted_failed_witness :
  let w' := set_network
              [OllamaChat "llama2" (t_content welcome_llm) ana_data]
              (step (step (later_world 0))) in
  campaigns_routes.send_loop (NullSender null_sender)
    (Some (OllamaService.mk "llama2" None)) id_campaign
    (spring IN_PROGRESS 0 0) welcome_llm [id_ana; id_bob] (0, 0)%Z
    (failing_at 1 "connection refused") (later_world 0)
  = campaigns_routes.send_loop (NullSender null_sender)
    (Some (OllamaService.mk "llama2" None)) id_campaign
    (spring IN_PROGRESS 0 0) welcome_llm [id_bob] (0, 1)%Z
    (failing_at 1 "connection refused") w'
  ∧ email_logs w' = []
  ∧ same_smtp (later_world 0) w'.
Proof.
  apply (personalization_failure_counted_failed (NullSender null_sender)
           (OllamaService.mk "llama2" None) id_campaign (spring IN_PROGRESS 0 0)
           welcome_llm id_ana [id_bob] 0 0 (failing_at 1 "connection refused")
           (later_world 0) 161%N ana ana_data "connection refused").
  - vm_compute. reflexivity.
  - vm_compute. reflexivity.
  - reflexivity.
  - reflexivity.
  - reflexivity.
Defined.

(** * Template records *)

Section TemplateRecords.

(** [create_template] stores the placeholders extracted from the content,
    whatever list the request carried. *)
Lemma create_template_placeholders template env w :
  fault env (S (S (ticks w))) = None →
  fault env (S (S (S (ticks w)))) = None →
  let r := templates_routes.create_template template env w in
  ∃ oid d, r.1 = Return (oid, d)
         ∧ templates w !! oid = None
         ∧ templates r.2 !! oid = Some d
         ∧ t_content d = tc_content template
         ∧ t_placeholders d = TemplateService.extract_placeholders (t_content d).
Proof.
  intros Hf1 Hf2 r. subst r.
  unfold templates_routes.create_template, mbind, M_bind, utcnow,
    db.insert_one_template, db.find_one_template, db_call,
    templates_routes.response_of.
  simpl. rewrite Hf1. simpl. rewrite Hf2. simpl.
  rewrite lookup_insert_eq. simpl.
  eexists _, _. split_and!; try done.
  - apply not_elem_of_dom, is_fresh.
  - apply lookup_insert_eq.
Qed.

(** [update_template] with a new content stores the placeholders extracted
    from it, whatever list the request carried. *)
Lemma update_template_content_placeholders template_id template_update content
    env w oid existing :
  ObjectId template_id = Return oid →
  templates w !! oid = Some existing →
  tu_content template_update = Some content →
  fault env (ticks w) = None →
  fault env (S (S (ticks w))) = None →
  fault env (S (S (S (ticks w)))) = None →
  let r := templates_routes.update_template template_id template_update env w in
  ∃ d, r.1 = Return (oid, d)
     ∧ templates r.2 !! oid = Some d
     ∧ t_content d = content
     ∧ t_placeholders d = TemplateService.extract_placeholders (t_content d).
Proof.
  intros Hoid Ht Hcontent Hf1 Hf2 Hf3 r. subst r.
  unfold templates_routes.update_template, try_except, mbind, M_bind, lift,
    utcnow, db.update_one_template, db.find_one_template, db_call,
    templates_routes.response_of.
  rewrite Hoid, Hf1. simpl. rewrite Ht. simpl. rewrite Hf2. simpl.
  rewrite Hf3. simpl.
  rewrite lookup_alter, decide_True by done. rewrite Ht. simpl.
  rewrite Hcontent.
  eexists. split_and!; try done.
  - by rewrite lookup_alter, decide_True, Ht.
  - unfold templates_routes.set_fields. simpl. by rewrite Hcontent.
  - unfold templates_routes.set_fields. simpl. by rewrite Hcontent.
Qed.

End TemplateRecords.

(** C8 fails on the code. An update request that sets the placeholder list
    and not the content is stored as sent: the template keeps its body
    ["Hi $first_name, from $company"], and its stored placeholder list
    becomes the hand-edited [["bogus"]], which is not the list extracted
    from the body (in any order). Before the update the record held the
    extracted list. *)
Theorem update_template_hand_edited_placeholders :
  let w := scenario_world welcome (spring DRAFT 0 0) in
  let r := templates_routes.update_template id_template
             (placeholders_only ["bogus"]) quiet_env w in
  (∃ d0, templates w !! 177%N = Some d0
       ∧ t_placeholders d0 = TemplateService.extract_placeholders (t_content d0))
  ∧ ∃ d, r.1 = Return (177%N, d)
       ∧ templates r.2 !! 177%N = Some d
       ∧ t_content d = "Hi $first_name, from $company"
       ∧ t_placeholders d = ["bogus"]
       ∧ ¬ (t_placeholders d ≡ₚ TemplateService.extract_placeholders (t_content d)).
Proof.
  split.
  - exists welcome. split; vm_compute; reflexivity.
  - exists (templates_routes.set_fields (placeholders_only ["bogus"]) 1 welcome).
    split_and!; try (vm_compute; reflexivity).
    intros Hperm. apply Permutation_length in Hperm.
    vm_compute in Hperm. discriminate.
Qed.

(** * More on the template service *)

Section Extraction.

Lemma findall_identifiers (skip : nat) (s : string) :
  Forall is_identifier (TemplateService.findall_from skip s).
Proof.
  revert skip. induction s as [|c s IH]; intros skip; simpl; [constructor|].
  destruct skip; [|apply IH].
  destruct (Ascii.eqb c "$"); [|apply IH].
  unfold TemplateService.placeholder_at.
  destruct (match_id _) as [name|] eqn:Hm; [|apply IH].
  destruct (starts_with "}" _); (constructor; [|apply IH]);
    by apply match_id_identifier in Hm.
Qed.

Lemma id_char_not_delimiter (c : ascii) : is_id_char c = true → c ≠ "$"%char.
Proof. intros H ->. by vm_compute in H. Qed.

Lemma prefix_dollar_free_id_tail (s : string) :
  prefix_dollar_free (String.length (id_tail s)) s.
Proof.
  induction s as [|c s IH]; simpl; [done|].
  destruct (is_id_char c) eqn:E; simpl; [|done].
  split; [by apply id_char_not_delimiter | exact IH].
Qed.

Lemma prefix_dollar_free_match_id (s name : string) :
  match_id s = Some name → prefix_dollar_free (String.length name) s.
Proof.
  destruct s as [|c s]; simpl; [done|].
  destruct (is_id_start c) eqn:E; [|done].
  intros [= <-]. simpl. split.
  - apply id_char_not_delimiter. unfold is_id_char. by rewrite E.
  - apply prefix_dollar_free_id_tail.
Qed.

Lemma prefix_dollar_free_succ (n : nat) (s : string) :
  prefix_dollar_free n s →
  starts_with "}" (drop_chars n s) = true →
  prefix_dollar_free (S n) s.
Proof.
  revert s. induction n as [|n IH]; intros [|c s]; simpl; try done.
  - intros _ ->%Ascii.eqb_eq. done.
  - intros [Hc Hs] Hd. split; [done|]. by apply IH.
Qed.

(** A match of the extraction pattern covers no further delimiter. *)
Lemma placeholder_at_dollar_free (rest name : string) (n : nat) :
  TemplateService.placeholder_at rest = Some (name, n) →
  prefix_dollar_free n rest.
Proof.
  unfold TemplateService.placeholder_at.
  destruct (starts_with "{" rest) eqn:Hb.
  - apply starts_with_true in Hb.
    destruct (match_id (drop_chars 1 rest)) as [name'|] eqn:Hm; [|done].
    assert (prefix_dollar_free (1 + String.length name') rest) as Hfree.
    { rewrite Hb. simpl. split; [done|]. by apply prefix_dollar_free_match_id. }
    destruct (starts_with "}" _) eqn:Hc; intros [= <- <-]; [|done].
    by apply prefix_dollar_free_succ.
  - simpl. destruct (match_id rest) as [name'|] eqn:Hm; [|done].
    pose proof (prefix_dollar_free_match_id _ _ Hm) as Hfree.
    destruct (starts_with "}" _) eqn:Hc; intros [= <- <-]; [|done].
    by apply prefix_dollar_free_succ.
Qed.

(** The extraction scan tries its pattern at every delimiter. *)
Lemma findall_finds (s : string) :
  ∀ skip p r name n,
    prefix_dollar_free skip s →
    s = p +:+ String "$" r →
    TemplateService.placeholder_at r = Some (name, n) →
    name ∈ TemplateService.findall_from skip s.
Proof.
  induction s as [|c s IH]; intros skip p r name n Hfree Hs Hat.
  { destruct p; discriminate. }
  destruct p as [|c' p].
  - rewrite append_nil in Hs. injection Hs as -> ->.
    destruct skip as [|k]; [|by destruct Hfree].
    simpl. rewrite Hat. apply list_elem_of_here.
  - rewrite append_cons in Hs. injection Hs as -> ->.
    simpl. destruct skip as [|k].
    + destruct (Ascii.eqb c' "$"); [|by eapply (IH 0%nat)].
      destruct (TemplateService.placeholder_at (p +:+ String "$" r))
        as [[name' n']|] eqn:Hat'; [|by eapply (IH 0%nat)].
      apply list_elem_of_further.
      eapply (IH n'); [|done|done].
      by apply (placeholder_at_dollar_free _ name').
    + destruct Hfree as [_ Hfree]. by eapply (IH k).
Qed.

(** A placeholder of the renderer sits at a delimiter. *)
Lemma segments_from_placeholder (s : string) :
  ∀ skip seg,
    seg ∈ segments_from skip s →
    (∃ name, seg = Named name ∨ seg = Braced name) →
    ∃ p r, s = p +:+ String "$" r ∧ segment_of (Template.match_at r) = seg.
Proof.
  induction s as [|c s IH]; intros skip seg Hin Hseg; simpl in Hin.
  { by apply elem_of_nil in Hin. }
  assert (∀ k, seg ∈ segments_from k s →
               ∃ p r, String c s = p +:+ String "$" r
                      ∧ segment_of (Template.match_at r) = seg) as Hrest.
  { intros k Hk. destruct (IH k seg Hk Hseg) as (p & r & -> & Hr).
    exists (String c p), r. by rewrite append_cons. }
  destruct skip as [|k]; [|by apply (Hrest k)].
  destruct (Ascii.eqb c "$") eqn:E.
  - apply Ascii.eqb_eq in E as ->.
    apply elem_of_cons in Hin as [->|Hin]; [|by eapply Hrest].
    by exists "", s.
  - apply elem_of_cons in Hin as [->|Hin]; [|by eapply Hrest].
    destruct Hseg as [name [?|?]]; discriminate.
Qed.

(** Where the renderer sees a placeholder, the extraction pattern matches
    with the same name. *)
Lemma match_at_placeholder_at (r name : string) :
  segment_of (Template.match_at r) = Named name
  ∨ segment_of (Template.match_at r) = Braced name →
  ∃ n, TemplateService.placeholder_at r = Some (name, n).
Proof.
  unfold Template.match_at, TemplateService.placeholder_at.
  destruct (starts_with "$" r) eqn:Hd.
  { intros [?|?]; discriminate. }
  destruct (match_id r) as [name'|] eqn:Hn.
  - unfold segment_of. simpl. intros [[= ->]|?]; [|discriminate].
    destruct r as [|c r]; [done|]. simpl in Hn |- *.
    destruct (is_id_start c) eqn:Hc; [|done].
    destruct (id_start_not_delimiter c Hc) as [_ ->]. simpl.
    rewrite Hc. injection Hn as <-.
    destruct (starts_with "}" _); eauto.
  - destruct (starts_with "{" r) eqn:Hb;
      [|unfold segment_of; simpl; intros [?|?]; discriminate].
    destruct (match_id (drop_chars 1 r)) as [name'|] eqn:Hm;
      [|unfold segment_of; simpl; intros [?|?]; discriminate].
    destruct (starts_with "}" (drop_chars (1 + String.length name') r)) eqn:Hc;
      unfold segment_of; simpl; intros [?|[= ->]]; try discriminate.
    eauto.
Qed.

Lemma placeholder_names_elem (segs : list segment) (name : string) :
  name ∈ placeholder_names segs ↔ Named name ∈ segs ∨ Braced name ∈ segs.
Proof.
  unfold placeholder_names. rewrite list_elem_of_omap. split.
  - intros (seg & Hin & Hseg). destruct seg; simplify_eq; auto.
  - intros [H|H]; eexists; (split; [exact H | done]).
Qed.

End Extraction.

(** X1. [extract_placeholders] gives each name once, and every name it
    gives is an identifier. *)
Theorem extract_placeholders_distinct_identifiers (template_content : string) :
  NoDup (TemplateService.extract_placeholders template_content)
  ∧ Forall is_identifier (TemplateService.extract_placeholders template_content).
Proof.
  unfold TemplateService.extract_placeholders. split; [apply NoDup_elements|].
  apply Forall_forall. intros name Hin.
  apply elem_of_elements, elem_of_list_to_set in Hin.
  pose proof (findall_identifiers 0 template_content) as Hall.
  rewrite Forall_forall in Hall. by apply Hall.
Qed.

(** A placeholder segment of the renderer is a match of the extraction. *)
Lemma segment_name_extracted (template_content name : string) (seg : segment) :
  seg ∈ segments template_content →
  seg = Named name ∨ seg = Braced name →
  name ∈ TemplateService.extract_placeholders template_content.
Proof.
  intros Hseg Hname.
  unfold TemplateService.extract_placeholders.
  apply elem_of_elements, elem_of_list_to_set.
  destruct (segments_from_placeholder template_content 0 seg Hseg)
    as (p & r & Hs & Hr); [eauto|].
  destruct (match_at_placeholder_at r name) as [n Hat].
  { destruct Hname as [->| ->]; auto. }
  by eapply (findall_finds template_content 0 p r name n).
Qed.

(** X2. Every placeholder [render_template] can substitute in a template
    ([$name] or [${name}] as the renderer reads them) is among the names
    [extract_placeholders] lists for it. *)
Theorem rendered_placeholders_are_extracted (template_content name : string) :
  name ∈ placeholder_names (segments template_content) →
  name ∈ TemplateService.extract_placeholders template_content.
Proof.
  rewrite placeholder_names_elem.
  intros [Hin|Hin]; eapply segment_name_extracted; eauto.
Qed.

Lemma rendered_placeholders_are_extracted_witness :
  "first_name" ∈ TemplateService.extract_placeholders "Hi ${first_name}, from $company".
Proof.
  apply rendered_placeholders_are_extracted.
  vm_compute. apply list_elem_of_here.
Defined.

Section RenderingValues.

Lemma sub_from_ext (f g : Template.match_obj → outcome string) (skip : nat) (s : string) :
  (∀ mo, f mo = g mo) → Template.sub_from f skip s = Template.sub_from g skip s.
Proof.
  intros Hfg. revert skip. induction s as [|c s IH]; intros skip; simpl; [done|].
  destruct skip; [|apply IH].
  destruct (Ascii.eqb c "$"); [|by rewrite IH].
  rewrite Hfg. destruct (g _); simpl; [|done]. by rewrite IH.
Qed.

(** [safe_substitute] sees the values only through [str]. *)
Lemma convert_through_str (variables : gmap string pyval) (mo : Template.match_obj) :
  Template.convert variables mo
  = Template.convert (PyStr <$> (py_str <$> variables)) mo.
Proof.
  unfold Template.convert. destruct (Template.named_or_braced mo) as [name|]; [|done].
  rewrite !lookup_fmap. by destruct (variables !! name).
Qed.

(** [render_template] never raises, whatever the values are. *)
Lemma render_template_body (template_content : string) (variables : gmap string pyval) :
  TemplateService.render_template template_content variables
  = Return (render_body template_content variables).
Proof.
  unfold TemplateService.render_template, Template.safe_substitute, Template.sub.
  rewrite (sub_from_ext _ _ _ _ (convert_through_str variables)).
  by rewrite sub_from_segments.
Qed.

Lemma sub_from_dollar_free (repl : Template.match_obj → outcome string) (s : string) :
  dollar_free s → Template.sub_from repl 0 s = Return s.
Proof.
  induction s as [|c s IH]; simpl; [done|]. intros [Hc Hs].
  apply Ascii.eqb_neq in Hc as ->. by rewrite IH.
Qed.

Lemma findall_dollar_free (s : string) :
  dollar_free s → TemplateService.findall_from 0 s = [].
Proof.
  induction s as [|c s IH]; simpl; [done|]. intros [Hc Hs].
  apply Ascii.eqb_neq in Hc as ->. by apply IH.
Qed.

End RenderingValues.

(** X3. The rendering of a template depends on the variables only through
    the names [extract_placeholders] lists for it: two dictionaries that
    agree on those names give the same text. *)
Theorem render_template_only_reads_placeholders (template_content : string)
    (variables variables' : gmap string pyval) :
  (∀ name, name ∈ TemplateService.extract_placeholders template_content →
           variables !! name = variables' !! name) →
  TemplateService.render_template template_content variables
  = TemplateService.render_template template_content variables'.
Proof.
  intros Hagree. rewrite !render_template_body. f_equal.
  unfold render_body. f_equal.
  apply list_fmap_ext. intros i seg Hseg.
  apply list_elem_of_lookup_2 in Hseg.
  assert (∀ name, seg = Named name ∨ seg = Braced name →
                  (py_str <$> variables) !! name = (py_str <$> variables') !! name)
    as Hname.
  { intros name Hn. rewrite !lookup_fmap, Hagree; [done|].
    eapply segment_name_extracted; eauto. }
  destruct seg; simpl; try done; by rewrite Hname by auto.
Qed.

Lemma render_template_only_reads_placeholders_witness :
  TemplateService.render_template "Hi $first_name"
    {[ "first_name" := PyStr "Ana"; "company" := PyStr "Acme" ]}
  = TemplateService.render_template "Hi $first_name"
    {[ "first_name" := PyStr "Ana" ]}.
Proof.
  apply render_template_only_reads_placeholders.
  intros name Hin.
  replace (TemplateService.extract_placeholders "Hi $first_name")
    with ["first_name"] in Hin by (vm_compute; reflexivity).
  apply list_elem_of_singleton in Hin as ->.
  vm_compute. reflexivity.
Defined.

(** X4. A template without any [$] has no placeholders and is rendered as
    it stands, whatever the variables. *)
Theorem plain_text_unchanged (template_content : string)
    (variables : gmap string pyval) :
  dollar_free template_content →
  TemplateService.render_template template_content variables
    = Return template_content
  ∧ TemplateService.extract_placeholders template_content = [].
Proof.
  intros Hfree. split.
  - unfold TemplateService.render_template, Template.safe_substitute, Template.sub.
    by rewrite sub_from_dollar_free.
  - unfold TemplateService.extract_placeholders.
    rewrite findall_dollar_free by done. simpl. apply elements_empty.
Qed.

Lemma plain_text_unchanged_witness :
  TemplateService.render_template "Dear customer, 5% off." {[ "x" := PyStr "y" ]}
    = Return "Dear customer, 5% off."
  ∧ TemplateService.extract_placeholders "Dear customer, 5% off." = [].
Proof.
  apply plain_text_unchanged. simpl. repeat split; discriminate.
Defined.

Section RecipientData.

Lemma recipient_data_custom (contact : Contact) fields (name v : string) :
  custom_fields contact = Some fields →
  fields !! name = Some v →
  ∃ data, campaigns_routes.recipient_data_of contact = Return data
          ∧ data !! name = Some (PyStr v).
Proof.
  intros Hf Hc. unfold campaigns_routes.recipient_data_of. rewrite Hf.
  eexists. split; [reflexivity|].
  apply lookup_union_Some_l. by rewrite lookup_fmap, Hc.
Qed.

Lemma recipient_data_first_name (contact : Contact) fields :
  custom_fields contact = Some fields →
  fields !! "first_name" = None →
  ∃ data, campaigns_routes.recipient_data_of contact = Return data
          ∧ data !! "first_name" = Some (first_name contact).
Proof.
  intros Hf Hc. unfold campaigns_routes.recipient_data_of. rewrite Hf.
  eexists. split; [reflexivity|].
  rewrite lookup_union_r by (by rewrite lookup_fmap, Hc).
  rewrite lookup_insert_ne by done. by rewrite lookup_insert_eq.
Qed.

(** Rendering a named placeholder at the head of a template. *)
Lemma render_body_named (variables : gmap string pyval) (name s : string) (v : pyval) :
  is_identifier name → ends_identifier s → variables !! name = Some v →
  render_body ("$" +:+ name +:+ s) variables
  = py_str v +:+ render_body s variables.
Proof.
  intros Hn Hs Hv. unfold render_body.
  rewrite segments_named by done. rewrite fmap_cons. simpl.
  by rewrite lookup_fmap, Hv.
Qed.

End RecipientData.

(** X5. A contact stored without a first name (the field holds [None]) and
    without a custom field of that name gets the text [None] wherever the
    template says [$first_name]: the default empty string of
    [contact.get("first_name", "")] is not used, the key is there. *)
Theorem missing_first_name_renders_None (contact : Contact) fields (s : string) :
  first_name contact = PyNone →
  custom_fields contact = Some fields →
  fields !! "first_name" = None →
  ends_identifier s →
  ∃ data,
    campaigns_routes.recipient_data_of contact = Return data
    ∧ TemplateService.render_template ("$first_name" +:+ s) data
      = Return ("None" +:+ render_body s data).
Proof.
  intros Hnone Hfields Hcustom Hs.
  destruct (recipient_data_first_name contact fields Hfields Hcustom)
    as (data & Hdata & Hfirst).
  exists data. split; [done|].
  rewrite render_template_body. f_equal.
  change ("$first_name" +:+ s) with ("$" +:+ "first_name" +:+ s).
  rewrite (render_body_named _ "first_name" s PyNone); try done.
  by rewrite Hfirst, Hnone.
Qed.

Lemma missing_first_name_renders_None_witness :
  ∃ data,
    campaigns_routes.recipient_data_of nameless = Return data
    ∧ TemplateService.render_template ("$first_name" +:+ ", hello") data
      = Return ("None" +:+ render_body ", hello" data).
Proof.
  apply (missing_first_name_renders_None nameless ∅); vm_compute; reflexivity.
Defined.

(** X6. A custom field of a contact wins over the reserved keys [email],
    [first_name] and [last_name]: where the template names it, the custom
    value is what the recipient gets. *)
Theorem custom_field_shadows_reserved_key (contact : Contact) fields
    (name v s : string) :
  custom_fields contact = Some fields →
  fields !! name = Some v →
  is_identifier name → ends_identifier s →
  ∃ data,
    campaigns_routes.recipient_data_of contact = Return data
    ∧ TemplateService.render_template ("$" +:+ name +:+ s) data
      = Return (v +:+ render_body s data).
Proof.
  intros Hfields Hcustom Hn Hs.
  destruct (recipient_data_custom contact fields name v Hfields Hcustom)
    as (data & Hdata & Hname).
  exists data. split; [done|].
  rewrite render_template_body. f_equal.
  by rewrite (render_body_named _ name s (PyStr v)).
Qed.

Lemma custom_field_shadows_reserved_key_witness :
  ∃ data,
    campaigns_routes.recipient_data_of shadowed = Return data
    ∧ TemplateService.render_template ("$" +:+ "email" +:+ " is yours") data
      = Return ("custom@example.com" +:+ render_body " is yours" data).
Proof.
  apply (custom_field_shadows_reserved_key shadowed
           {[ "email" := "custom@example.com" ]});
    vm_compute; reflexivity.
Defined.

(** * More on the campaign routes *)

Section CampaignRoutes.

Lemma resolve_one_cases w id :
  (∃ oid c, ObjectId id = Return oid ∧ contacts w !! oid = Some c
            ∧ campaigns_routes.resolve w [id] = [c])
  ∨ ((∀ oid, ObjectId id = Return oid → contacts w !! oid = None)
     ∧ campaigns_routes.resolve w [id] = []).
Proof.
  unfold campaigns_routes.resolve. simpl.
  destruct (ObjectId id) as [oid|e]; [|right; by split].
  destruct (contacts w !! oid) as [c|] eqn:Hc.
  - left. eauto.
  - right. split; [|done]. by intros ? [= <-].
Qed.

Lemma resolve_app w ids ids' :
  campaigns_routes.resolve w (ids ++ ids')
  = (campaigns_routes.resolve w ids ++ campaigns_routes.resolve w ids')%list.
Proof. unfold campaigns_routes.resolve. apply omap_app. Qed.

(** One pass of the validation loop over a reference that resolves. *)
Lemma validate_one_ok env w id oid c rest :
  healthy env → ObjectId id = Return oid → contacts w !! oid = Some c →
  campaigns_routes.validate_contacts (id :: rest) env w
  = (contacts ← campaigns_routes.validate_contacts rest; mret (c :: contacts))
      env (step w).
Proof.
  intros Hh Hoid Hc. simpl.
  unfold try_except, mbind at 1, M_bind at 1, mbind at 1, M_bind at 1, lift,
    db.find_one_contact, db_call.
  rewrite Hoid. unfold mbind at 1, M_bind at 1. rewrite Hh. simpl.
  by rewrite Hc.
Qed.

(** One pass over a reference that does not: the 404 of the source never
    leaves the loop. *)
Lemma validate_one_bad env w id rest :
  healthy env → campaigns_routes.resolve w [id] = [] →
  ∃ w', campaigns_routes.validate_contacts (id :: rest) env w
        = (Raise (HTTPException 400 ("Invalid contact ID: " +:+ id)), w')
      ∧ untouched w w'.
Proof.
  intros Hh Hbad. simpl.
  unfold try_except, mbind, M_bind, lift, db.find_one_contact, db_call, raise.
  destruct (resolve_one_cases w id) as [(oid & c & _ & _ & Hres)|[Hnone _]];
    [congruence|].
  destruct (ObjectId id) as [oid|e]; [|by eexists].
  rewrite Hh. simpl. rewrite (Hnone oid eq_refl). by eexists.
Qed.

Lemma validate_contacts_ok env ids : ∀ w,
  healthy env →
  length (campaigns_routes.resolve w ids) = length ids →
  ∃ w', campaigns_routes.validate_contacts ids env w
        = (Return (campaigns_routes.resolve w ids), w')
      ∧ untouched w w'.
Proof.
  induction ids as [|id ids IH]; intros w Hh Hlen.
  { by exists w. }
  change (id :: ids) with ([id] ++ ids)%list in Hlen |- *.
  rewrite resolve_app, length_app in Hlen. rewrite resolve_app.
  pose proof (resolve_le w ids) as Hle.
  destruct (resolve_one_cases w id) as [(oid & c & Hoid & Hc & Hres)|[_ Hres]];
    rewrite Hres in Hlen |- *; simpl in Hlen; [|lia].
  simpl app. rewrite (validate_one_ok env w id oid c ids) by done.
  destruct (IH (step w) Hh) as (w' & Hv & Hun).
  { rewrite (resolve_same_contacts w (step w)) by done. lia. }
  unfold mbind, M_bind. rewrite Hv. simpl.
  rewrite (resolve_same_contacts w (step w)) by done.
  exists w'. split; [done|]. etrans; [apply untouched_step | done].
Qed.

Lemma validate_contacts_bad env pre bad post : ∀ w,
  healthy env →
  length (campaigns_routes.resolve w pre) = length pre →
  campaigns_routes.resolve w [bad] = [] →
  ∃ w', campaigns_routes.validate_contacts (pre ++ bad :: post) env w
        = (Raise (HTTPException 400 ("Invalid contact ID: " +:+ bad)), w')
      ∧ untouched w w'.
Proof.
  induction pre as [|id pre IH]; intros w Hh Hlen Hbad.
  { by apply validate_one_bad. }
  change (id :: pre) with ([id] ++ pre)%list in Hlen.
  rewrite resolve_app, length_app in Hlen.
  pose proof (resolve_le w pre) as Hle.
  destruct (resolve_one_cases w id) as [(oid & c & Hoid & Hc & Hres)|[_ Hres]];
    rewrite Hres in Hlen; simpl in Hlen; [|lia].
  rewrite <- app_comm_cons.
  rewrite (validate_one_ok env w id oid c _) by done.
  destruct (IH (step w) Hh) as (w' & Hv & Hun).
  { rewrite (resolve_same_contacts w (step w)) by done. lia. }
  { by rewrite (resolve_same_contacts w (step w)). }
  unfold mbind, M_bind. rewrite Hv.
  exists w'. split; [done|]. etrans; [apply untouched_step | done].
Qed.

End CampaignRoutes.

(** X7. [create_campaign] turns a request away with 400 "Invalid contact
    ID: ..." at the first contact reference that resolves to no contact,
    whether the id is malformed or the contact does not exist (the 404 the
    code raises for a missing contact is caught by its own [except
    Exception]); nothing is written. *)
Theorem create_campaign_unresolved_contact campaign env w tid t pre bad post :
  healthy env →
  ObjectId (cc_template_id campaign) = Return tid →
  templates w !! tid = Some t →
  cc_contact_ids campaign = (pre ++ bad :: post)%list →
  length (campaigns_routes.resolve w pre) = length pre →
  campaigns_routes.resolve w [bad] = [] →
  ∃ w', campaigns_routes.create_campaign campaign env w
        = (Raise (HTTPException 400 ("Invalid contact ID: " +:+ bad)), w')
      ∧ untouched w w'.
Proof.
  intros Hh Htid Ht Hids Hpre Hbad.
  unfold campaigns_routes.create_campaign.
  unfold try_except, mbind at 1, M_bind at 1, mbind at 1, M_bind at 1, lift,
    db.find_one_template, db_call.
  rewrite Htid, Hh. simpl. rewrite Ht. rewrite Hids.
  destruct (validate_contacts_bad env pre bad post (step w) Hh) as (w' & Hv & Hun).
  { by rewrite (resolve_same_contacts w (step w)). }
  { by rewrite (resolve_same_contacts w (step w)). }
  unfold mbind, M_bind. rewrite Hv. exists w'. split; [done|].
  etrans; [apply untouched_step | done].
Qed.

Lemma create_campaign_unresolved_contact_witness :
  ∃ w', campaigns_routes.create_campaign
          (mkCampaignCreate "spring" id_template [id_ana; id_gone; id_bob]
                            None None)
          quiet_env (later_world 0)
        = (Raise (HTTPException 400 ("Invalid contact ID: " +:+ id_gone)), w')
      ∧ untouched (later_world 0) w'.
Proof.
  apply (create_campaign_unresolved_contact _ quiet_env (later_world 0) 177%N
           welcome [id_ana] id_gone [id_bob]);
    vm_compute; reflexivity.
Defined.

Section GetCampaign.

(** [get_campaign] on a stored campaign. *)
Lemma campaign_response_presentable oid c env w :
  presentable c →
  campaigns_routes.campaign_response oid (Some c) env w = (Return (oid, c), w).
Proof.
  intros ([? Hn] & [? Ht] & [? Hs]). unfold campaigns_routes.campaign_response.
  by rewrite Hn, Ht, Hs.
Qed.

Lemma get_campaign_found campaign_id env w oid c :
  healthy env → ObjectId campaign_id = Return oid → campaigns w !! oid = Some c →
  presentable c →
  campaigns_routes.get_campaign campaign_id env w = (Return (oid, c), step w).
Proof.
  intros Hh Hoid Hc Hp.
  unfold campaigns_routes.get_campaign, try_except, mbind, M_bind, lift,
    db.find_one_campaign, db_call.
  rewrite Hoid, Hh. simpl. rewrite Hc.
  by apply campaign_response_presentable.
Qed.

(** [get_campaign] on an id no campaign has. *)
Lemma get_campaign_missing campaign_id env w oid :
  healthy env → ObjectId campaign_id = Return oid → campaigns w !! oid = None →
  campaigns_routes.get_campaign campaign_id env w
  = (Raise (HTTPException 404 "Campaign not found"), step w).
Proof.
  intros Hh Hoid Hc.
  unfold campaigns_routes.get_campaign, try_except, mbind, M_bind, lift,
    db.find_one_campaign, db_call, raise.
  rewrite Hoid, Hh. simpl. by rewrite Hc.
Qed.

End GetCampaign.

(** X8. When the template exists and every contact reference resolves,
    [create_campaign] stores one new campaign under an id no campaign had:
    a draft with the request's template and references, [total_emails]
    the number of references, both counters zero and no start or
    completion time; every other campaign is left as it was, and
    [get_campaign] on that id gives the campaign back. *)
Theorem create_campaign_stores_draft campaign env w tid t :
  healthy env →
  ObjectId (cc_template_id campaign) = Return tid →
  templates w !! tid = Some t →
  length (campaigns_routes.resolve w (cc_contact_ids campaign))
  = length (cc_contact_ids campaign) →
  ∃ oid c w',
    campaigns_routes.create_campaign campaign env w = (Return (oid, c), w')
    ∧ campaigns w !! oid = None
    ∧ campaigns w' = <[oid := c]> (campaigns w)
    ∧ status c = Some DRAFT
    ∧ template_id c = Some (cc_template_id campaign)
    ∧ contact_ids c = cc_contact_ids campaign
    ∧ total_emails c = Z.of_nat (length (cc_contact_ids campaign))
    ∧ sent_count c = 0%Z ∧ failed_count c = 0%Z
    ∧ started_at c = None ∧ completed_at c = None
    ∧ (∀ campaign_id, ObjectId campaign_id = Return oid →
         (campaigns_routes.get_campaign campaign_id env w').1 = Return (oid, c)).
Proof.
  intros Hh Htid Ht Hlen.
  unfold campaigns_routes.create_campaign.
  unfold try_except, mbind at 1, M_bind at 1, mbind at 1, M_bind at 1, lift,
    db.find_one_template, db_call.
  rewrite Htid, Hh. simpl. rewrite Ht.
  destruct (validate_contacts_ok env (cc_contact_ids campaign) (step w) Hh)
    as (w1 & Hv & Hun).
  { by rewrite (resolve_same_contacts w (step w)). }
  assert (campaigns w1 = campaigns w) as Hcamp by (by destruct Hun as (_&_&?&_)).
  unfold mbind, M_bind, utcnow, db.insert_one_campaign, db.find_one_campaign,
    db_call, campaigns_routes.campaign_response.
  rewrite Hv. simpl. rewrite !Hh. simpl. rewrite lookup_insert_eq. simpl.
  rewrite Hcamp.
  eexists _, _, _. split; [reflexivity|]. simpl.
  split_and!; try done.
  - apply not_elem_of_dom, is_fresh.
  - intros campaign_id Hoid.
    erewrite get_campaign_found; [done | done | done | |].
    + simpl. apply lookup_insert_eq.
    + by split_and!.
Qed.

Lemma create_campaign_stores_draft_witness :
  ∃ oid c w',
    campaigns_routes.create_campaign
      (mkCampaignCreate "autumn" id_template [id_ana; id_bob] None None)
      quiet_env (later_world 0) = (Return (oid, c), w')
    ∧ campaigns (later_world 0) !! oid = None
    ∧ campaigns w' = <[oid := c]> (campaigns (later_world 0))
    ∧ status c = Some DRAFT
    ∧ template_id c = Some id_template
    ∧ contact_ids c = [id_ana; id_bob]
    ∧ total_emails c = 2%Z
    ∧ sent_count c = 0%Z ∧ failed_count c = 0%Z
    ∧ started_at c = None ∧ completed_at c = None
    ∧ (∀ campaign_id, ObjectId campaign_id = Return oid →
         (campaigns_routes.get_campaign campaign_id quiet_env w').1 = Return (oid, c)).
Proof.
  apply (create_campaign_stores_draft
           (mkCampaignCreate "autumn" id_template [id_ana; id_bob] None None)
           quiet_env (later_world 0) 177%N welcome);
    vm_compute; reflexivity.
Defined.

(** * The invariant of [total_emails] *)

Global Instance keeps_totals_preorder : PreOrder keeps_totals.
Proof. split; unfold keeps_totals; [by intros w | intros w1 w2 w3; tauto]. Qed.

Section Totals.

Lemma keeps_totals_same (w w' : World) :
  campaigns w' = campaigns w → keeps_totals w w'.
Proof. intros Hc Hw oid c. rewrite Hc. apply Hw. Qed.

Lemma keeps_totals_step (w : World) : keeps_totals w (step w).
Proof. by apply keeps_totals_same. Qed.

Lemma keeps_totals_network ev (w : World) :
  keeps_totals w (set_network (network w ++ [ev]) w).
Proof. by apply keeps_totals_same. Qed.

Lemma keeps_totals_log row (w : World) :
  keeps_totals w (set_email_logs (email_logs w ++ [row]) w).
Proof. by apply keeps_totals_same. Qed.

Lemma keeps_totals_find_campaign oid : frame keeps_totals (db.find_one_campaign oid).
Proof.
  apply frame_db_call; [apply _ | apply keeps_totals_step |].
  intros w. by apply keeps_totals_same.
Qed.

Lemma keeps_totals_find_template oid : frame keeps_totals (db.find_one_template oid).
Proof.
  apply frame_db_call; [apply _ | apply keeps_totals_step |].
  intros w. by apply keeps_totals_same.
Qed.

(** An update that leaves [total_emails] the number of references. *)
Lemma keeps_totals_update oid (set : CampaignDoc → CampaignDoc) :
  (∀ c, total_emails c = Z.of_nat (length (contact_ids c)) →
        total_emails (set c) = Z.of_nat (length (contact_ids (set c)))) →
  frame keeps_totals (db.update_one_campaign oid set).
Proof.
  intros Hset. apply frame_db_call; [apply _ | apply keeps_totals_step |].
  intros w Hw i c'. simpl. rewrite lookup_alter.
  case_decide; [subst i|apply Hw].
  destruct (campaigns w !! oid) as [c0|] eqn:Hc0; simpl; [|done].
  intros [= <-]. apply Hset. by apply (Hw oid).
Qed.

Lemma keeps_totals_insert c :
  total_emails c = Z.of_nat (length (contact_ids c)) →
  frame keeps_totals (db.insert_one_campaign c).
Proof.
  intros Hc. apply frame_db_call; [apply _ | apply keeps_totals_step |].
  intros w Hw i c'. simpl. rewrite lookup_insert.
  case_decide; [by intros [= <-] | apply Hw].
Qed.

Lemma keeps_totals_delete oid : frame keeps_totals (db.delete_one_campaign oid).
Proof.
  apply frame_db_call; [apply _ | apply keeps_totals_step |].
  intros w Hw i c. simpl. rewrite lookup_delete.
  case_decide; [done | apply Hw].
Qed.

Lemma keeps_totals_validate ids :
  frame keeps_totals (campaigns_routes.validate_contacts ids).
Proof.
  intros env w.
  destruct (validate_contacts_untouched ids env w) as (_&_&Hc&_).
  by apply keeps_totals_same.
Qed.

Lemma keeps_totals_send_loop es os cid c t ids counts :
  frame keeps_totals (campaigns_routes.send_loop es os cid c t ids counts).
Proof.
  intros env w.
  destruct (send_loop_documents es os cid c t ids counts env w) as (_&_&Hc).
  by apply keeps_totals_same.
Qed.

Ltac totals_step :=
  first
    [ frame_step
    | apply keeps_totals_find_campaign
    | apply keeps_totals_find_template
    | apply keeps_totals_validate
    | apply keeps_totals_send_loop
    | apply keeps_totals_delete
    | apply keeps_totals_step
    | apply keeps_totals_insert; reflexivity
    | apply keeps_totals_update; intros ? ?; assumption
    | apply frame_ret; apply _
    | apply frame_raise; apply _
    | intros [] ].

Lemma keeps_totals_create campaign :
  frame keeps_totals (campaigns_routes.create_campaign campaign).
Proof.
  unfold campaigns_routes.create_campaign, campaigns_routes.campaign_response.
  repeat totals_step.
Qed.

Lemma keeps_totals_update_campaign campaign_id campaign_update :
  frame keeps_totals (campaigns_routes.update_campaign campaign_id campaign_update).
Proof.
  unfold campaigns_routes.update_campaign, campaigns_routes.campaign_response.
  repeat totals_step.
  apply keeps_totals_update. intros doc Hdoc.
  unfold campaigns_routes.set_update. simpl.
  by destruct (cu_contact_ids campaign_update).
Qed.

Lemma keeps_totals_delete_campaign campaign_id :
  frame keeps_totals (campaigns_routes.delete_campaign campaign_id).
Proof. unfold campaigns_routes.delete_campaign. repeat totals_step. Qed.

Lemma keeps_totals_send_campaign campaign_id send_request :
  frame keeps_totals (campaigns_routes.send_campaign campaign_id send_request).
Proof.
  unfold campaigns_routes.send_campaign. repeat totals_step.
Qed.

Lemma keeps_totals_run campaign_id dry :
  frame keeps_totals (campaigns_routes._send_campaign_emails campaign_id dry).
Proof.
  unfold campaigns_routes._send_campaign_emails, campaigns_routes.run_campaign,
    campaigns_routes.subscript, AsyncEmailSender.init, DryRunEmailSender.init,
    OllamaService.init.
  repeat totals_step.
Qed.

End Totals.

(** X9. If [total_emails] is the number of contact references for every
    stored campaign, it still is after any of [create_campaign],
    [update_campaign], [delete_campaign], [send_campaign] and the background
    run, whatever the request and whatever fails on the way. *)
Theorem total_emails_invariant env w :
  totals_consistent w →
  (∀ campaign,
     totals_consistent (campaigns_routes.create_campaign campaign env w).2)
  ∧ (∀ campaign_id campaign_update,
     totals_consistent
       (campaigns_routes.update_campaign campaign_id campaign_update env w).2)
  ∧ (∀ campaign_id,
     totals_consistent (campaigns_routes.delete_campaign campaign_id env w).2)
  ∧ (∀ campaign_id send_request,
     totals_consistent
       (campaigns_routes.send_campaign campaign_id send_request env w).2)
  ∧ (∀ campaign_id dry,
     totals_consistent
       (campaigns_routes._send_campaign_emails campaign_id dry env w).2).
Proof.
  intros Hw. split_and!; intros.
  - by apply keeps_totals_create.
  - by apply keeps_totals_update_campaign.
  - by apply keeps_totals_delete_campaign.
  - by apply keeps_totals_send_campaign.
  - by apply keeps_totals_run.
Qed.

Lemma total_emails_invariant_witness :
  (∀ campaign,
     totals_consistent
       (campaigns_routes.create_campaign campaign quiet_env (later_world 0)).2)
  ∧ (∀ campaign_id campaign_update,
     totals_consistent
       (campaigns_routes.update_campaign campaign_id campaign_update
          quiet_env (later_world 0)).2)
  ∧ (∀ campaign_id,
     totals_consistent
       (campaigns_routes.delete_campaign campaign_id quiet_env (later_world 0)).2)
  ∧ (∀ campaign_id send_request,
     totals_consistent
       (campaigns_routes.send_campaign campaign_id send_request
          quiet_env (later_world 0)).2)
  ∧ (∀ campaign_id dry,
     totals_consistent
       (campaigns_routes._send_campaign_emails campaign_id dry
          quiet_env (later_world 0)).2).
Proof.
  apply total_emails_invariant.
  intros oid c Hc. unfold later_world in Hc. simpl in Hc.
  apply lookup_singleton_Some in Hc as [_ <-]. reflexivity.
Defined.

(** X10. After a run that terminates normally on a campaign whose
    [total_emails] is the number of its contact references, the counters
    written add up to [total_emails]. *)
Theorem normal_run_adds_up_to_total campaign_id dry env w :
  totals_consistent w →
  terminates_normally campaign_id dry env w →
  ∃ oid c',
    ObjectId campaign_id = Return oid
    ∧ campaigns (campaigns_routes._send_campaign_emails campaign_id dry env w).2 !! oid
      = Some c'
    ∧ status c' = Some COMPLETED
    ∧ (sent_count c' + failed_count c' = total_emails c')%Z.
Proof.
  intros Hw. unfold terminates_normally, campaigns_routes._send_campaign_emails,
    try_except.
  destruct (campaigns_routes.run_campaign campaign_id dry env w)
    as [[[]|e] w'] eqn:Hrun; simpl; [intros _ | done].
  destruct (run_campaign_returns _ _ _ _ _ Hrun)
    as (oid & c & sent & failed & completed & updated
        & Hoid & Hc & Hw' & Hsum & Hsent).
  exists oid, (campaigns_routes.set_completed sent failed completed updated c).
  rewrite Hw', lookup_insert_eq. split_and!; try done.
  simpl. rewrite (Hw oid c Hc). exact Hsum.
Qed.

Lemma normal_run_adds_up_to_total_witness :
  ∃ oid c',
    ObjectId id_campaign = Return oid
    ∧ campaigns (campaigns_routes._send_campaign_emails id_campaign false quiet_env
                   (later_world 0)).2 !! oid = Some c'
    ∧ status c' = Some COMPLETED
    ∧ (sent_count c' + failed_count c' = total_emails c')%Z.
Proof.
  apply normal_run_adds_up_to_total.
  - intros oid c Hc. unfold later_world in Hc. simpl in Hc.
    apply lookup_singleton_Some in Hc as [_ <-]. reflexivity.
  - vm_compute. reflexivity.
Defined.

(** X11. [update_campaign] on a campaign that is in progress or completed
    is rejected with 400 and nothing is written. *)
Theorem update_campaign_locked campaign_id campaign_update env w oid c :
  ObjectId campaign_id = Return oid →
  campaigns w !! oid = Some c →
  status c ∈ [Some IN_PROGRESS; Some COMPLETED] →
  fault env (ticks w) = None →
  campaigns_routes.update_campaign campaign_id campaign_update env w
  = (Raise (HTTPException 400
              "Cannot update campaign that is in progress or completed"),
     step w).
Proof.
  intros Hoid Hc Hst Hf.
  unfold campaigns_routes.update_campaign, try_except, mbind, M_bind, lift,
    db.find_one_campaign, db_call, raise.
  rewrite Hoid, Hf. simpl. rewrite Hc.
  by rewrite (bool_decide_eq_true_2 _ Hst).
Qed.

Lemma update_campaign_locked_witness :
  campaigns_routes.update_campaign id_campaign
    (mkCampaignUpdate Unset Unset (SetTo []) Unset Unset (SetTo DRAFT))
    quiet_env (later_world 0)
  = (Raise (HTTPException 400
              "Cannot update campaign that is in progress or completed"),
     step (later_world 0)).
Proof.
  apply (update_campaign_locked id_campaign _ quiet_env (later_world 0) 193%N
           (spring IN_PROGRESS 0 0)).
  - vm_compute. reflexivity.
  - vm_compute. reflexivity.
  - apply elem_of_cons. by left.
  - reflexivity.
Defined.

(** X12. [delete_campaign] on a campaign that is in progress is rejected
    with 400; the campaign stays and nothing else is written. *)
Theorem delete_campaign_in_progress campaign_id env w oid c :
  ObjectId campaign_id = Return oid →
  campaigns w !! oid = Some c →
  status c = Some IN_PROGRESS →
  fault env (ticks w) = None →
  campaigns_routes.delete_campaign campaign_id env w
  = (Raise (HTTPException 400 "Cannot delete campaign that is in progress"),
     step w).
Proof.
  intros Hoid Hc Hst Hf.
  unfold campaigns_routes.delete_campaign, try_except, mbind, M_bind, lift,
    db.find_one_campaign, db_call, raise.
  rewrite Hoid, Hf. simpl. rewrite Hc.
  by rewrite (bool_decide_eq_true_2 _ Hst).
Qed.

Lemma delete_campaign_in_progress_witness :
  campaigns_routes.delete_campaign id_campaign quiet_env (later_world 0)
  = (Raise (HTTPException 400 "Cannot delete campaign that is in progress"),
     step (later_world 0)).
Proof.
  apply (delete_campaign_in_progress id_campaign quiet_env (later_world 0)
           193%N (spring IN_PROGRESS 0 0)); vm_compute; reflexivity.
Defined.

(** X13. [delete_campaign] on a campaign that is not in progress (the
    database answering) removes that campaign and no other document, and
    [get_campaign] on the same id then answers 404. *)
Theorem delete_campaign_then_get campaign_id env w oid c :
  healthy env →
  ObjectId campaign_id = Return oid →
  campaigns w !! oid = Some c →
  status c ≠ Some IN_PROGRESS →
  ∃ w',
    campaigns_routes.delete_campaign campaign_id env w = (Return tt, w')
    ∧ campaigns w' = delete oid (campaigns w)
    ∧ contacts w' = contacts w ∧ templates w' = templates w
    ∧ email_logs w' = email_logs w
    ∧ (campaigns_routes.get_campaign campaign_id env w').1
      = Raise (HTTPException 404 "Campaign not found").
Proof.
  intros Hh Hoid Hc Hst.
  unfold campaigns_routes.delete_campaign, try_except, mbind, M_bind, lift,
    db.find_one_campaign, db.delete_one_campaign, db_call, raise.
  rewrite Hoid, !Hh. simpl. rewrite Hc.
  rewrite (bool_decide_eq_false_2 _ Hst). simpl. rewrite Hh. simpl.
  eexists. split; [reflexivity|]. split_and!; try done.
  erewrite get_campaign_missing; [done | done | done |].
  simpl. apply lookup_delete_eq.
Qed.

Lemma delete_campaign_then_get_witness :
  ∃ w',
    campaigns_routes.delete_campaign id_campaign quiet_env
      (scenario_world welcome (spring COMPLETED 2 1)) = (Return tt, w')
    ∧ campaigns w'
      = delete 193%N (campaigns (scenario_world welcome (spring COMPLETED 2 1)))
    ∧ contacts w' = contacts (scenario_world welcome (spring COMPLETED 2 1))
    ∧ templates w' = templates (scenario_world welcome (spring COMPLETED 2 1))
    ∧ email_logs w' = email_logs (scenario_world welcome (spring COMPLETED 2 1))
    ∧ (campaigns_routes.get_campaign id_campaign quiet_env w').1
      = Raise (HTTPException 404 "Campaign not found").
Proof.
  apply (delete_campaign_then_get id_campaign quiet_env
           (scenario_world welcome (spring COMPLETED 2 1)) 193%N
           (spring COMPLETED 2 1)); try (vm_compute; reflexivity).
  discriminate.
Defined.

(** * More on the background run *)


(** The outer [try] block of a campaign whose template is gone: it reads
    the campaign and looks for the template, then [template.get] raises. *)
Lemma run_without_template campaign_id dry env w oid c tref tid :
  healthy env →
  ObjectId campaign_id = Return oid →
  campaigns w !! oid = Some c →
  template_id c = Some tref →
  ObjectId tref = Return tid →
  templates w !! tid = None →
  campaigns_routes.run_campaign campaign_id dry env w
  = (Raise (PyError "AttributeError" "'NoneType' object has no attribute 'get'"),
     step (step w)).
Proof.
  intros Hh Hoid Hc Href Htid Ht.
  unfold campaigns_routes.run_campaign, campaigns_routes.subscript,
    mbind, M_bind, lift, db.find_one_campaign, db.find_one_template, db_call.
  rewrite Hoid, !Hh. simpl. rewrite Hc. simpl. rewrite Href. simpl.
  unfold lift. rewrite Htid, !Hh. simpl.
  rewrite Ht. by destruct dry.
Qed.

(** X14. When the template of a campaign no longer exists, the background
    run sends nothing and writes no log row; it marks the campaign failed
    and leaves its counters and every other field but the update time as
    they were. *)
Theorem run_without_template_fails campaign_id dry env w oid c tref tid :
  healthy env →
  ObjectId campaign_id = Return oid →
  campaigns w !! oid = Some c →
  template_id c = Some tref →
  ObjectId tref = Return tid →
  templates w !! tid = None →
  ∃ w' c',
    campaigns_routes._send_campaign_emails campaign_id dry env w = (Return tt, w')
    ∧ campaigns w' = <[oid := c']> (campaigns w)
    ∧ c' = campaigns_routes.set_failed (clock env (S (S (ticks w)))) c
    ∧ status c' = Some FAILED
    ∧ sent_count c' = sent_count c ∧ failed_count c' = failed_count c
    ∧ email_logs w' = email_logs w
    ∧ network w' = network w.
Proof.
  intros Hh Hoid Hc Href Htid Ht.
  unfold campaigns_routes._send_campaign_emails, try_except.
  rewrite (run_without_template _ dry _ _ _ _ _ _ Hh Hoid Hc Href Htid Ht).
  unfold mbind, M_bind, lift, utcnow, db.update_one_campaign, db_call.
  rewrite Hoid, !Hh. simpl.
  eexists _, _. split; [reflexivity|]. split_and!; try done.
  apply map_eq. intros i. simpl. rewrite lookup_alter, lookup_insert.
  case_decide; [subst i; by rewrite Hc | done].
Qed.

Lemma run_without_template_fails_witness :
  ∃ w' c',
    campaigns_routes._send_campaign_emails id_campaign false quiet_env
      (scenario_world welcome orphan) = (Return tt, w')
    ∧ campaigns w' = <[193%N := c']> (campaigns (scenario_world welcome orphan))
    ∧ c' = campaigns_routes.set_failed
             (clock quiet_env (S (S (ticks (scenario_world welcome orphan)))))
             orphan
    ∧ status c' = Some FAILED
    ∧ sent_count c' = sent_count orphan ∧ failed_count c' = failed_count orphan
    ∧ email_logs w' = email_logs (scenario_world welcome orphan)
    ∧ network w' = network (scenario_world welcome orphan).
Proof.
  apply (run_without_template_fails id_campaign false quiet_env
           (scenario_world welcome orphan) 193%N orphan id_gone 162%N);
    vm_compute; reflexivity.
Defined.

(** X15. Whenever the background run returns, the campaign it was started
    for is completed or failed: no returning run leaves it in progress. *)
Theorem run_returns_in_terminal_status campaign_id dry env w oid c w' :
  ObjectId campaign_id = Return oid →
  campaigns w !! oid = Some c →
  campaigns_routes._send_campaign_emails campaign_id dry env w = (Return tt, w') →
  ∃ c', campaigns w' !! oid = Some c' ∧ status c' ∈ [Some COMPLETED; Some FAILED].
Proof.
  intros Hoid Hc. unfold campaigns_routes._send_campaign_emails, try_except.
  destruct (campaigns_routes.run_campaign campaign_id dry env w)
    as [[[]|e] w1] eqn:Hrun.
  - intros [= <-].
    destruct (run_campaign_returns _ _ _ _ _ Hrun)
      as (oid' & c0 & sent & failed & completed & updated
          & Hoid' & Hc0 & Hw1 & _).
    assert (oid' = oid) as -> by congruence.
    eexists. rewrite Hw1, lookup_insert_eq. split; [done|].
    simpl. apply elem_of_cons. by left.
  - apply run_campaign_raises in Hrun.
    unfold mbind, M_bind, lift, utcnow, db.update_one_campaign, db_call.
    rewrite Hoid. simpl.
    destruct (fault env (S (ticks w1))); [done|]. intros [= <-]. simpl.
    rewrite Hrun, lookup_alter, decide_True, Hc by done. simpl.
    eexists. split; [done|]. simpl. apply elem_of_cons. right.
    apply elem_of_cons. by left.
Qed.

Lemma run_returns_in_terminal_status_witness :
  ∃ c', campaigns
          (campaigns_routes._send_campaign_emails id_campaign false
             (failing_at 1 "template lookup failed") (later_world 0)).2
        !! 193%N = Some c'
      ∧ status c' ∈ [Some COMPLETED; Some FAILED].
Proof.
  apply (run_returns_in_terminal_status id_campaign false
           (failing_at 1 "template lookup failed") (later_world 0) 193%N
           (spring IN_PROGRESS 0 0)); vm_compute; reflexivity.
Defined.

(** X16. [delete_template] removes a template without looking at the
    campaigns that use it and leaves them as they were; the next run of
    such a campaign sends nothing, writes no log row and marks the campaign
    failed. *)
Theorem delete_template_then_run campaign_id dry env w oid c tref tid t :
  healthy env →
  ObjectId campaign_id = Return oid →
  campaigns w !! oid = Some c →
  template_id c = Some tref →
  ObjectId tref = Return tid →
  templates w !! tid = Some t →
  ∃ w1 w2 c',
    templates_routes.delete_template tref env w = (Return tt, w1)
    ∧ templates w1 = delete tid (templates w)
    ∧ campaigns w1 = campaigns w
    ∧ campaigns_routes._send_campaign_emails campaign_id dry env w1 = (Return tt, w2)
    ∧ campaigns w2 !! oid = Some c'
    ∧ status c' = Some FAILED
    ∧ email_logs w2 = email_logs w
    ∧ network w2 = network w.
Proof.
  intros Hh Hoid Hc Href Htid Ht.
  assert (templates_routes.delete_template tref env w
          = (Return tt, set_templates (delete tid (templates w)) (step w))) as Hdel.
  { unfold templates_routes.delete_template, try_except, mbind, M_bind, lift,
      db.delete_one_template, db_call.
    rewrite Htid, Hh. simpl. by rewrite Ht. }
  exists (set_templates (delete tid (templates w)) (step w)).
  unfold campaigns_routes._send_campaign_emails, try_except.
  rewrite (run_without_template campaign_id dry env
             (set_templates (delete tid (templates w)) (step w)) oid c tref tid
             Hh Hoid Hc Href Htid (lookup_delete_eq _ _)).
  unfold mbind, M_bind, lift, utcnow, db.update_one_campaign, db_call.
  rewrite Hoid, !Hh. simpl.
  eexists _, _. split; [exact Hdel|]. split; [done|]. split; [done|].
  split; [reflexivity|]. split.
  { simpl. rewrite lookup_alter, decide_True, Hc by done. reflexivity. }
  split_and!; done.
Qed.

Lemma delete_template_then_run_witness :
  ∃ w1 w2 c',
    templates_routes.delete_template id_template quiet_env
      (scenario_world welcome (spring DRAFT 0 0)) = (Return tt, w1)
    ∧ templates w1
      = delete 177%N (templates (scenario_world welcome (spring DRAFT 0 0)))
    ∧ campaigns w1 = campaigns (scenario_world welcome (spring DRAFT 0 0))
    ∧ campaigns_routes._send_campaign_emails id_campaign true quiet_env w1
      = (Return tt, w2)
    ∧ campaigns w2 !! 193%N = Some c'
    ∧ status c' = Some FAILED
    ∧ email_logs w2 = email_logs (scenario_world welcome (spring DRAFT 0 0))
    ∧ network w2 = network (scenario_world welcome (spring DRAFT 0 0)).
Proof.
  apply (delete_template_then_run id_campaign true quiet_env
           (scenario_world welcome (spring DRAFT 0 0)) 193%N
           (spring DRAFT 0 0) id_template 177%N welcome);
    vm_compute; reflexivity.
Defined.

(** * Dry runs *)

Section DryRuns.

Lemma smtp_step (w : World) : same_smtp w (step w).
Proof. done. Qed.

Lemma smtp_log row (w : World) :
  same_smtp w (set_email_logs (email_logs w ++ [row]) w).
Proof. done. Qed.

Lemma smtp_chat model template data (w : World) :
  same_smtp w (set_network (network w ++ [OllamaChat model template data]) w).
Proof.
  unfold same_smtp. simpl. rewrite filter_app.
  rewrite (filter_cons_False (λ ev, is_smtp ev = true)) by done.
  by rewrite filter_nil, app_nil_r.
Qed.

Lemma smtp_same_network (w w' : World) : network w' = network w → same_smtp w w'.
Proof. unfold same_smtp. by intros ->. Qed.

Lemma generate_email_smtp svc template data :
  frame same_smtp (OllamaService.generate_email svc template data).
Proof.
  unfold OllamaService.generate_email.
  apply frame_try_except; [apply _ | | intros e; apply frame_raise; apply _].
  apply frame_bind; [apply _ | | intros n; by intros env w].
  apply frame_net_call; [apply _ | apply smtp_step |].
  intros w. apply smtp_chat.
Qed.

Lemma null_send_email_smtp self to_email subject body html log cid kid tid :
  frame same_smtp
    (DryRunEmailSender.send_email self to_email subject body html log cid kid tid).
Proof.
  intros env w. apply smtp_same_network. apply null_send_email_network.
Qed.

Lemma null_send_one_smtp s os cid c t kid counts :
  frame same_smtp (campaigns_routes.send_one (NullSender s) os cid c t kid counts).
Proof.
  unfold campaigns_routes.send_one.
  apply frame_bind; [apply _ | apply frame_lift; apply _ | intros oid].
  apply frame_bind; [apply _ | | intros contact].
  { apply frame_find_one_contact; [apply _ | apply smtp_step]. }
  destruct contact as [contact|]; [|apply frame_ret; apply _].
  apply frame_bind; [apply _ | apply frame_lift; apply _ | intros recipient_data].
  apply frame_bind; [apply _ | | intros body].
  - destruct os; [apply generate_email_smtp | apply frame_lift; apply _].
  - apply frame_bind; [apply _ | apply null_send_email_smtp | intros [[] err]];
      apply frame_ret; apply _.
Qed.

Lemma null_send_loop_smtp s os cid c t ids counts :
  frame same_smtp (campaigns_routes.send_loop (NullSender s) os cid c t ids counts).
Proof.
  revert counts. induction ids as [|kid ids IH]; intros counts; simpl.
  - apply frame_ret. apply _.
  - apply frame_bind; [apply _ | | intros counts'; apply IH].
    apply frame_try_except;
      [apply _ | apply null_send_one_smtp | intros e; apply frame_ret; apply _].
Qed.

Lemma smtp_db_call {A} (act : World → A * World) :
  (∀ w, network (act w).2 = network w) → frame same_smtp (db_call act).
Proof.
  intros Hact. apply frame_db_call; [apply _ | apply smtp_step |].
  intros w. by apply smtp_same_network.
Qed.

End DryRuns.

(** X17. A dry run of a campaign never talks to the mail server: whatever
    the campaign and the template are and whatever fails, the SMTP traffic
    after the run is the SMTP traffic before it. *)
Theorem dry_run_campaign_no_smtp campaign_id env w :
  filter (λ ev, is_smtp ev = true)
    (network (campaigns_routes._send_campaign_emails campaign_id true env w).2)
  = filter (λ ev, is_smtp ev = true) (network w).
Proof.
  change (same_smtp w (campaigns_routes._send_campaign_emails campaign_id true env w).2).
  revert env w.
  change (frame same_smtp (campaigns_routes._send_campaign_emails campaign_id true)).
  unfold campaigns_routes._send_campaign_emails, campaigns_routes.run_campaign,
    campaigns_routes.subscript, DryRunEmailSender.init, OllamaService.init,
    db.find_one_campaign, db.find_one_template, db.update_one_campaign.
  repeat first
    [ apply null_send_loop_smtp
    | apply smtp_db_call; intros ?; reflexivity
    | apply frame_ret; apply _
    | apply frame_raise; apply _
    | apply frame_lift; apply _
    | apply frame_get_settings; apply _
    | apply frame_utcnow; first [apply _ | apply smtp_step]
    | apply frame_ObjectId_of; first [apply _ | apply smtp_step]
    | match goal with
      | |- frame ?R ((mret ?a ≫= ?k1) ≫= ?k2) =>
          change (frame R (k1 a ≫= k2)); cbv beta
      | |- frame ?R (mret ?a ≫= ?k) => change (frame R (k a)); cbv beta
      end
    | apply frame_bind; [apply _ | | intros ?]
    | apply frame_try_except; [apply _ | | intros ?]
    | match goal with |- frame _ (match ?x with _ => _ end) => destruct x end
    | match goal with |- frame _ (if ?x then _ else _) => destruct x end ].
Qed.

Section HealthyDryRun.

Lemma ObjectId_truthy (s : string) (n : N) :
  ObjectId s = Return n → truthy (Some s) = true.
Proof. unfold ObjectId. by destruct s. Qed.

Lemma served_same_contacts w w' ids :
  contacts w' = contacts w → served w' ids = served w ids.
Proof. unfold served. by intros ->. Qed.

Lemma length_omap_le {A B} (f : A → option B) (l : list A) :
  (length (omap f l) ≤ length l)%nat.
Proof.
  induction l as [|a l IH]; [done|].
  simpl. destruct (f a); simpl; [apply le_n_S | apply le_S]; exact IH.
Qed.

Lemma served_le w ids : (length (served w ids) ≤ length ids)%nat.
Proof. apply length_omap_le. Qed.

Variables (env : Env) (s : DryRunEmailSender.t) (cid : string)
          (c : CampaignDoc) (t : TemplateDoc).
Hypothesis env_healthy : healthy env.
Hypothesis cid_truthy : truthy (Some cid) = true.

Let handler (counts : Z * Z) : exn → M (Z * Z) :=
  λ e, mret (counts.1, counts.2 + 1)%Z.

Lemma dry_iteration_invalid kid e a b w :
  ObjectId kid = Raise e →
  try_except (campaigns_routes.send_one (NullSender s) None cid c t kid (a, b))
             (handler (a, b)) env w
  = (Return (a, b + 1)%Z, w).
Proof.
  intros Hoid. unfold try_except, campaigns_routes.send_one, mbind, M_bind, lift.
  by rewrite Hoid.
Qed.

Lemma dry_iteration_missing kid oid a b w :
  ObjectId kid = Return oid → contacts w !! oid = None →
  try_except (campaigns_routes.send_one (NullSender s) None cid c t kid (a, b))
             (handler (a, b)) env w
  = (Return (a, b + 1)%Z, step w).
Proof.
  intros Hoid Hc.
  unfold try_except, campaigns_routes.send_one, mbind, M_bind, lift,
    db.find_one_contact, db_call.
  rewrite Hoid, env_healthy. simpl. by rewrite Hc.
Qed.

Lemma dry_iteration_null kid oid contact e a b w :
  ObjectId kid = Return oid → contacts w !! oid = Some contact →
  campaigns_routes.recipient_data_of contact = Raise e →
  try_except (campaigns_routes.send_one (NullSender s) None cid c t kid (a, b))
             (handler (a, b)) env w
  = (Return (a, b + 1)%Z, step w).
Proof.
  intros Hoid Hc Hdata.
  unfold try_except, campaigns_routes.send_one, mbind, M_bind, lift,
    db.find_one_contact, db_call.
  rewrite Hoid, env_healthy. simpl. by rewrite Hc, Hdata.
Qed.

Lemma dry_iteration_found kid oid contact data a b w :
  ObjectId kid = Return oid → contacts w !! oid = Some contact →
  campaigns_routes.recipient_data_of contact = Return data →
  try_except (campaigns_routes.send_one (NullSender s) None cid c t kid (a, b))
             (handler (a, b)) env w
  = (Return (a + 1, b)%Z,
     set_email_logs
       (email_logs w ++
        [sent_row (Some cid) (Some kid) (template_id c) (t_subject t)
           (slice_to 500 (render_body (t_content t) data))
           (clock env (S (ticks w))) (clock env (S (S (ticks w))))])
       (step (step (step (step w))))).
Proof.
  intros Hoid Hc Hdata.
  unfold try_except, campaigns_routes.send_one, mbind, M_bind, lift,
    db.find_one_contact, db_call.
  rewrite Hoid, env_healthy. simpl. rewrite Hc, Hdata.
  rewrite render_template_body.
  unfold email_sender_send_email, DryRunEmailSender.send_email, try_except,
    mbind, M_bind, utcnow, db.insert_one_email_log, db_call.
  rewrite cid_truthy, (ObjectId_truthy _ _ Hoid). simpl.
  by rewrite env_healthy.
Qed.

Lemma dry_loop_healthy ids : ∀ a b w,
  ∃ sent failed w',
    campaigns_routes.send_loop (NullSender s) None cid c t ids (a, b) env w
    = (Return (sent, failed), w')
    ∧ sent = (a + Z.of_nat (length (served w ids)))%Z
    ∧ failed = (b + Z.of_nat (length ids - length (served w ids)))%Z
    ∧ contacts w' = contacts w ∧ campaigns w' = campaigns w
    ∧ network w' = network w
    ∧ row_summary <$> email_logs w'
      = ((row_summary <$> email_logs w)
         ++ (dry_summary cid t <$> served w ids))%list.
Proof.
  induction ids as [|kid ids IH]; intros a b w.
  { exists a, b, w. simpl. rewrite app_nil_r. split_and!; try done; lia. }
  simpl campaigns_routes.send_loop. unfold mbind, M_bind.
  fold (handler (a, b)).
  pose proof (served_le w ids) as Hle.
  destruct (ObjectId kid) as [oid|e] eqn:Hoid.
  - destruct (contacts w !! oid) as [contact|] eqn:Hc;
      [destruct (campaigns_routes.recipient_data_of contact) as [data|e] eqn:Hdata|].
    + rewrite (dry_iteration_found kid oid contact data) by done.
      match goal with |- context [campaigns_routes.send_loop _ _ _ _ _ _ _ _ ?w1] =>
        destruct (IH (a + 1)%Z b w1)
          as (sent & failed & w' & Hrun & Hs & Hf & Hco & Hca & Hnet & Hlogs);
        rewrite (served_same_contacts w w1) in Hs, Hf, Hlogs by done
      end.
      rewrite Hrun. exists sent, failed, w'.
      assert (served w (kid :: ids) = (kid, data) :: served w ids)
        as -> by (unfold served; simpl; by rewrite Hoid, Hc, Hdata).
      split_and!; try done;
        try (rewrite Hs; cbn [length]; lia);
        try (rewrite Hf; cbn [length]; lia).
      rewrite Hlogs. simpl. rewrite fmap_app. simpl.
      by rewrite <- app_assoc.
    + rewrite (dry_iteration_null kid oid contact e) by done.
      destruct (IH a (b + 1)%Z (step w))
        as (sent & failed & w' & Hrun & Hs & Hf & Hco & Hca & Hnet & Hlogs).
      rewrite (served_same_contacts w (step w)) in Hs, Hf, Hlogs by done.
      rewrite Hrun. exists sent, failed, w'.
      assert (served w (kid :: ids) = served w ids)
        as -> by (unfold served; simpl; by rewrite Hoid, Hc, Hdata).
      split_and!; try done;
        try (rewrite Hs; cbn [length]; lia);
        try (rewrite Hf; cbn [length]; lia).
    + rewrite (dry_iteration_missing kid oid) by done.
      destruct (IH a (b + 1)%Z (step w))
        as (sent & failed & w' & Hrun & Hs & Hf & Hco & Hca & Hnet & Hlogs).
      rewrite (served_same_contacts w (step w)) in Hs, Hf, Hlogs by done.
      rewrite Hrun. exists sent, failed, w'.
      assert (served w (kid :: ids) = served w ids)
        as -> by (unfold served; simpl; by rewrite Hoid, Hc).
      split_and!; try done;
        try (rewrite Hs; cbn [length]; lia);
        try (rewrite Hf; cbn [length]; lia).
  - rewrite (dry_iteration_invalid kid e) by done.
    destruct (IH a (b + 1)%Z w)
      as (sent & failed & w' & Hrun & Hs & Hf & Hco & Hca & Hnet & Hlogs).
    rewrite Hrun. exists sent, failed, w'.
    assert (served w (kid :: ids) = served w ids)
      as -> by (unfold served; simpl; by rewrite Hoid).
    split_and!; try done;
      try (rewrite Hs; cbn [length]; lia);
      try (rewrite Hf; cbn [length]; lia).
Qed.

End HealthyDryRun.

(** X18. A dry run of a campaign with a plain (not personalized) template,
    with the database answering, logs exactly one row per contact reference
    it can serve (the reference resolves to a contact whose custom fields
    are a dictionary, not null), in reference order, each with status sent
    and the first 500 characters of the template rendered for that contact;
    it ends completed with [sent_count] the number of those references and
    [failed_count] the number of the others, and sends nothing over the
    network. *)
Theorem dry_run_logs_one_row_per_recipient campaign_id env w oid c tref tid t :
  healthy env →
  ObjectId campaign_id = Return oid →
  campaigns w !! oid = Some c →
  template_id c = Some tref →
  ObjectId tref = Return tid →
  templates w !! tid = Some t →
  t_use_llm t = false →
  ∃ w' c',
    campaigns_routes._send_campaign_emails campaign_id true env w = (Return tt, w')
    ∧ campaigns w' !! oid = Some c'
    ∧ status c' = Some COMPLETED
    ∧ sent_count c' = Z.of_nat (length (served w (contact_ids c)))
    ∧ failed_count c'
      = Z.of_nat (length (contact_ids c) - length (served w (contact_ids c)))
    ∧ row_summary <$> email_logs w'
      = ((row_summary <$> email_logs w)
         ++ (dry_summary campaign_id t <$> served w (contact_ids c)))%list
    ∧ network w' = network w.
Proof.
  intros Hh Hoid Hc Href Htid Ht Hllm.
  unfold campaigns_routes._send_campaign_emails, campaigns_routes.run_campaign,
    campaigns_routes.subscript, DryRunEmailSender.init, try_except,
    mbind, M_bind, lift, db.find_one_campaign, db.find_one_template, db_call.
  rewrite Hoid, !Hh. simpl. rewrite Hc. simpl. rewrite Href. simpl.
  unfold lift. rewrite Htid, !Hh. simpl.
  rewrite Ht. simpl. rewrite Hllm. simpl.
  destruct (dry_loop_healthy env (DryRunEmailSender.mk "test@example.com")
              campaign_id c t Hh (ObjectId_truthy _ _ Hoid) (contact_ids c)
              0%Z 0%Z (step (step w)))
    as (sent & failed & wl & Hrun & Hs & Hf & Hco & Hca & Hnet & Hlogs).
  rewrite Hrun. simpl.
  unfold utcnow, db.update_one_campaign, db_call. simpl. rewrite Hh. simpl.
  eexists _, _. split; [reflexivity|]. simpl.
  rewrite Hca. simpl. rewrite lookup_alter, decide_True, Hc by done. simpl.
  split_and!; try done.
Qed.

(** X18 on a campaign whose second contact had its custom fields set to
    null: two rows, two sent, one failed. *)
Lemma dry_run_logs_one_row_per_recipient_witness :
  ∃ w' c',
    campaigns_routes._send_campaign_emails id_campaign true quiet_env
      nulled_world = (Return tt, w')
    ∧ campaigns w' !! 193%N = Some c'
    ∧ status c' = Some COMPLETED
    ∧ sent_count c'
      = Z.of_nat (length (served nulled_world
                            (contact_ids (spring IN_PROGRESS 0 0))))
    ∧ failed_count c'
      = Z.of_nat (length (contact_ids (spring IN_PROGRESS 0 0))
                  - length (served nulled_world
                              (contact_ids (spring IN_PROGRESS 0 0))))
    ∧ row_summary <$> email_logs w'
      = ((row_summary <$> email_logs nulled_world)
         ++ (dry_summary id_campaign welcome
             <$> served nulled_world
                   (contact_ids (spring IN_PROGRESS 0 0))))%list
    ∧ network w' = network nulled_world.
Proof.
  apply (dry_run_logs_one_row_per_recipient id_campaign quiet_env nulled_world
           193%N (spring IN_PROGRESS 0 0) id_template 177%N welcome);
    vm_compute; reflexivity.
Defined.

(** * More on the transports *)

Global Instance nothing_delivered_preorder : PreOrder nothing_delivered.
Proof.
  split; [by intros w|].
  intros w1 w2 w3 [? ?] [? ?]. unfold nothing_delivered. split; congruence.
Qed.

Section Senders.

Lemma nothing_delivered_step (w : World) : nothing_delivered w (step w).
Proof. done. Qed.

Lemma nothing_delivered_event ev (w : World) :
  (∀ msg, ev ≠ SmtpSendMessage msg) →
  nothing_delivered w (set_network (network w ++ [ev]) w).
Proof.
  intros Hev. split; [|done]. unfold messages_sent. simpl.
  rewrite omap_app. simpl. destruct ev; try by rewrite app_nil_r.
  by destruct (Hev msg).
Qed.

Lemma test_connection_delivers_nothing self :
  frame nothing_delivered (AsyncEmailSender.test_connection self).
Proof.
  unfold AsyncEmailSender.test_connection, AsyncEmailSender.with_SMTP.
  assert (∀ cls ev, (∀ msg, ev ≠ SmtpSendMessage msg) →
                    frame nothing_delivered (net_call cls ev)) as Hnet.
  { intros cls ev Hev. apply frame_net_call;
      [apply _ | apply nothing_delivered_step |].
    intros w. by apply nothing_delivered_event. }
  apply frame_try_except; [apply _ | | intros e; apply frame_ret; apply _].
  apply frame_bind; [apply _ | | intros []; apply frame_ret; apply _].
  apply frame_bind; [apply _ | by apply Hnet | intros n].
  apply frame_quit_after;
    [apply _ | apply nothing_delivered_step | |
     intros w; by apply nothing_delivered_event].
  apply frame_bind; [apply _ | | intros []].
  - destruct (AsyncEmailSender.use_tls self); [|apply frame_ret; apply _].
    apply frame_bind; [apply _ | by apply Hnet | intros ?; apply frame_ret; apply _].
  - apply frame_bind; [apply _ | by apply Hnet | intros ?; apply frame_ret; apply _].
Qed.

End Senders.

(** X19. With logging switched off, or without a campaign id or a contact
    id (absent or empty), [send_email] writes no log row, on either
    transport and whether or not the transmission goes through. *)
Theorem send_email_without_ids_logs_nothing real null to_email subject body html
    log cid kid tid env w :
  log && truthy cid && truthy kid = false →
  email_logs (AsyncEmailSender.send_email real to_email subject body html log
                cid kid tid env w).2 = email_logs w
  ∧ email_logs (DryRunEmailSender.send_email null to_email subject body html log
                  cid kid tid env w).2 = email_logs w.
Proof.
  intros Hoff. split.
  - pose proof (transmit_logs real to_email subject body html env w) as Hl.
    destruct (AsyncEmailSender.transmit real to_email subject body html env w)
      as [[[]|e] w1] eqn:Ht.
    + rewrite (real_send_email_transmitted _ _ _ _ _ _ _ _ _ _ _ _ Ht).
      by rewrite Hoff.
    + rewrite (real_send_email_failed _ _ _ _ _ _ _ _ _ _ _ _ _ Ht).
      by rewrite Hoff.
  - unfold DryRunEmailSender.send_email. rewrite Hoff. done.
Qed.

Lemma send_email_without_ids_logs_nothing_witness :
  email_logs (AsyncEmailSender.send_email default_sender "ana@example.com" "Hello"
                "Hi Ana" false true (Some id_campaign) (Some "") None
                quiet_env (later_world 0)).2 = email_logs (later_world 0)
  ∧ email_logs (DryRunEmailSender.send_email null_sender "ana@example.com" "Hello"
                  "Hi Ana" false true (Some id_campaign) (Some "") None
                  quiet_env (later_world 0)).2 = email_logs (later_world 0).
Proof.
  apply send_email_without_ids_logs_nothing. reflexivity.
Defined.

(** X20. When the transmission raises and the insert goes through, the real
    transport returns [(false, message)] and writes exactly one row: status
    failed, the message of the exception as error message, no sent
    timestamp, and the full body. *)
Theorem failed_send_logs_failed_row self to_email subject body html cid kid tid
    env w w1 e :
  truthy cid = true → truthy kid = true →
  AsyncEmailSender.transmit self to_email subject body html env w = (Raise e, w1) →
  fault env (S (ticks w1)) = None →
  ∃ w2,
    AsyncEmailSender.send_email self to_email subject body html true cid kid tid env w
    = (Return (false, Some (exn_str e)), w2)
    ∧ email_logs w2
      = (email_logs w ++
         [mkEmailLog cid kid tid subject body EMAIL_FAILED None
                     (Some (exn_str e)) (clock env (ticks w1))])%list.
Proof.
  intros Hc Hk Ht Hf.
  rewrite (real_send_email_failed _ _ _ _ _ _ _ _ _ _ _ _ _ Ht).
  rewrite Hc, Hk. simpl. eexists. split; [reflexivity|].
  pose proof (transmit_logs self to_email subject body html env w) as Hl.
  rewrite Ht in Hl. unfold same_logs in Hl. simpl in Hl.
  unfold AsyncEmailSender._log_email, try_except, mbind, M_bind, utcnow,
    db.insert_one_email_log, db_call.
  simpl. rewrite Hf. simpl. by rewrite Hl.
Qed.

Lemma failed_send_logs_failed_row_witness :
  ∃ w2,
    AsyncEmailSender.send_email default_sender "ana@example.com" "Hello" "Hi Ana"
      false true (Some id_campaign) (Some id_ana) (Some id_template)
      (failing_at 2 "535 bad credentials") (later_world 0)
    = (Return (false, Some (exn_str (PyError "SMTPAuthenticationError"
                                          "535 bad credentials"))), w2)
    ∧ email_logs w2
      = (email_logs (later_world 0) ++
         [mkEmailLog (Some id_campaign) (Some id_ana) (Some id_template)
                     "Hello" "Hi Ana" EMAIL_FAILED None
                     (Some (exn_str (PyError "SMTPAuthenticationError"
                                             "535 bad credentials")))
                     (clock (failing_at 2 "535 bad credentials")
                        (ticks (set_network
                                  [SmtpConnect "smtp.gmail.com" 587; SmtpStartTls;
                                   SmtpLogin "" ""; SmtpQuit]
                                  (later_world 4))))])%list.
Proof.
  apply (failed_send_logs_failed_row default_sender "ana@example.com" "Hello"
           "Hi Ana" false (Some id_campaign) (Some id_ana) (Some id_template)
           (failing_at 2 "535 bad credentials") (later_world 0)
           (set_network [SmtpConnect "smtp.gmail.com" 587; SmtpStartTls;
                         SmtpLogin "" ""; SmtpQuit] (later_world 4))
           (PyError "SMTPAuthenticationError" "535 bad credentials"));
    vm_compute; reflexivity.
Defined.

(** X21. [test_connection] of the real transport never raises: it answers
    [True] or [False]. It hands no message to the mail server and writes
    no log row, and when nothing fails it answers [True]. The dry-run
    transport answers [True] without touching anything. *)
Theorem test_connection_is_harmless self null env w :
  (∃ ok, (AsyncEmailSender.test_connection self env w).1 = Return ok)
  ∧ nothing_delivered w (AsyncEmailSender.test_connection self env w).2
  ∧ (healthy env → (AsyncEmailSender.test_connection self env w).1 = Return true)
  ∧ DryRunEmailSender.test_connection null env w = (Return true, w).
Proof.
  split_and!.
  - unfold AsyncEmailSender.test_connection, try_except.
    match goal with |- context [match ?m env w with _ => _ end] =>
      destruct (m env w) as [[ok|e] w1] end; eauto.
  - apply test_connection_delivers_nothing.
  - intros Hh.
    unfold AsyncEmailSender.test_connection, AsyncEmailSender.with_SMTP,
      AsyncEmailSender.quit_after, try_except, mbind, M_bind, net_call.
    rewrite !Hh. destruct (AsyncEmailSender.use_tls self); simpl;
      by repeat (rewrite !Hh; simpl).
  - done.
Qed.

Lemma test_connection_is_harmless_witness :
  (AsyncEmailSender.test_connection default_sender quiet_env (later_world 0)).1
  = Return true.
Proof.
  destruct (test_connection_is_harmless default_sender null_sender quiet_env
              (later_world 0)) as (_ & _ & Hok & _).
  apply Hok. intros n. reflexivity.
Defined.

(** * More on the template and campaign routes *)

(** X22. [create_template] (the database answering) stores the template
    under an id no template had, with the placeholders extracted from its
    content whatever list the request carried, and [get_template] on that
    id gives the stored template back. *)
Theorem create_template_then_get template env w :
  healthy env →
  ∃ oid d w',
    templates_routes.create_template template env w = (Return (oid, d), w')
    ∧ templates w !! oid = None
    ∧ templates w' = <[oid := d]> (templates w)
    ∧ t_content d = tc_content template
    ∧ t_placeholders d = TemplateService.extract_placeholders (tc_content template)
    ∧ (∀ template_id, ObjectId template_id = Return oid →
         (templates_routes.get_template template_id env w').1 = Return (oid, d)).
Proof.
  intros Hh.
  unfold templates_routes.create_template, mbind, M_bind, utcnow,
    db.insert_one_template, db.find_one_template, db_call,
    templates_routes.response_of.
  simpl. rewrite !Hh. simpl. rewrite lookup_insert_eq. simpl.
  eexists _, _, _. split; [reflexivity|]. simpl. split_and!; try done.
  - apply not_elem_of_dom, is_fresh.
  - intros template_id Hoid.
    unfold templates_routes.get_template, try_except, mbind, M_bind, lift,
      db.find_one_template, db_call, templates_routes.response_of.
    rewrite Hoid, Hh. simpl. by rewrite lookup_insert_eq.
Qed.

Lemma create_template_then_get_witness :
  ∃ oid d w',
    templates_routes.create_template
      (mkTemplateCreate "bye" "Bye" "Bye $first_name" None ["bogus"] false)
      quiet_env (later_world 0) = (Return (oid, d), w')
    ∧ templates (later_world 0) !! oid = None
    ∧ templates w' = <[oid := d]> (templates (later_world 0))
    ∧ t_content d = "Bye $first_name"
    ∧ t_placeholders d = TemplateService.extract_placeholders "Bye $first_name"
    ∧ (∀ template_id, ObjectId template_id = Return oid →
         (templates_routes.get_template template_id quiet_env w').1 = Return (oid, d)).
Proof.
  apply (create_template_then_get
           (mkTemplateCreate "bye" "Bye" "Bye $first_name" None ["bogus"] false)
           quiet_env (later_world 0)).
  intros n. reflexivity.
Defined.

(** X23. [delete_template] answers 400 on an id [ObjectId] rejects, and 404
    on an id it accepts (24 characters that [bytes.fromhex] reads, so also
    one with whitespace between the pairs of digits) that no template has;
    in both cases nothing is written. *)
Theorem delete_template_unknown template_id env w :
  (∀ oid, ObjectId template_id = Return oid → templates w !! oid = None) →
  fault env (ticks w) = None →
  ∃ w',
    templates_routes.delete_template template_id env w
    = (Raise (match ObjectId template_id with
              | Return _ => HTTPException 404 "Template not found"
              | Raise _ => HTTPException 400 "Invalid template ID"
              end), w')
    ∧ untouched w w'.
Proof.
  intros Hnone Hf.
  unfold templates_routes.delete_template, try_except, mbind, M_bind, lift,
    db.delete_one_template, db_call, raise.
  destruct (ObjectId template_id) as [oid|e]; [|by eexists].
  rewrite Hf. simpl. rewrite (Hnone oid eq_refl). simpl.
  eexists. split; [reflexivity|].
  unfold untouched. simpl. split_and!; try done.
  apply delete_id. by apply Hnone.
Qed.

(** X23 on an id with whitespace: accepted, and no template has it. *)
Lemma delete_template_unknown_witness :
  ∃ w',
    templates_routes.delete_template id_spaced quiet_env (later_world 0)
    = (Raise (match ObjectId id_spaced with
              | Return _ => HTTPException 404 "Template not found"
              | Raise _ => HTTPException 400 "Invalid template ID"
              end), w')
    ∧ untouched (later_world 0) w'.
Proof.
  apply delete_template_unknown; [|reflexivity].
  intros oid Hoid. vm_compute in Hoid. injection Hoid as <-.
  vm_compute. reflexivity.
Defined.

Section UpdateCampaign.

Lemma campaign_response_rejects oid c env w :
  ¬ presentable c →
  campaigns_routes.campaign_response oid (Some c) env w
  = (Raise (PyError "ValidationError" "CampaignResponse"), w).
Proof.
  unfold presentable, campaigns_routes.campaign_response. intros Hno.
  destruct (c_name c), (template_id c), (status c); try done.
  destruct Hno. by split_and!.
Qed.

(** The route up to its answer, on a campaign that may be updated. *)
Lemma update_campaign_writes campaign_id u env w oid c :
  healthy env →
  ObjectId campaign_id = Return oid →
  campaigns w !! oid = Some c →
  status c ∉ [Some IN_PROGRESS; Some COMPLETED] →
  cu_contact_ids u ≠ SetNull →
  let c' := campaigns_routes.set_update u (clock env (S (ticks w))) c in
  let w' := set_campaigns (<[oid := c']> (campaigns w))
              (step (step (step (step w)))) in
  campaigns_routes.update_campaign campaign_id u env w
  = campaigns_routes.campaign_response oid (Some c') env w'.
Proof.
  intros Hh Hoid Hc Hst Hids c' w'. subst c' w'.
  unfold campaigns_routes.update_campaign, try_except, mbind, M_bind, lift,
    utcnow, db.find_one_campaign, db.update_one_campaign, db_call.
  rewrite Hoid, !Hh. simpl. rewrite Hc.
  rewrite (bool_decide_eq_false_2 _ Hst).
  assert (alter (campaigns_routes.set_update u (clock env (S (ticks w)))) oid
            (campaigns w)
          = <[oid := campaigns_routes.set_update u (clock env (S (ticks w))) c]>
              (campaigns w)) as Halter.
  { apply map_eq. intros i. rewrite lookup_alter, lookup_insert.
    case_decide; [subst i; by rewrite Hc | done]. }
  destruct (cu_contact_ids u) eqn:Hu; [|done|];
    (simpl; rewrite !Hh; simpl;
     rewrite lookup_alter, decide_True, Hc by done; simpl;
     unfold set_campaigns, step; simpl; by rewrite Halter).
Qed.

End UpdateCampaign.

(** X24. [update_campaign] on a campaign that is neither in progress nor
    completed, the database answering. With [contact_ids] set to null it
    raises [TypeError] and writes nothing. Otherwise it stores the
    document with every field the request sets replaced (by null where the
    request says null), [total_emails] becoming the number of the new
    contact references when the request sets them, [updated_at] the time
    of the update, and the counters and the creation, start and completion
    times as they were; no other document is touched. The answer is the
    stored document when none of its name, template id and status is null,
    and a [ValidationError] after the write otherwise. *)
Theorem update_campaign_stores_request campaign_id u env w oid c :
  healthy env →
  ObjectId campaign_id = Return oid →
  campaigns w !! oid = Some c →
  status c ∉ [Some IN_PROGRESS; Some COMPLETED] →
  (cu_contact_ids u = SetNull →
   campaigns_routes.update_campaign campaign_id u env w
   = (Raise (PyError "TypeError" "object of type 'NoneType' has no len()"), step w))
  ∧ (cu_contact_ids u ≠ SetNull →
     ∃ c' w',
       (campaigns_routes.update_campaign campaign_id u env w).2 = w'
       ∧ campaigns w' = <[oid := c']> (campaigns w)
       ∧ contacts w' = contacts w ∧ templates w' = templates w
       ∧ email_logs w' = email_logs w ∧ network w' = network w
       ∧ c_name c' = set_nullable (cu_name u) (c_name c)
       ∧ template_id c' = set_nullable (cu_template_id u) (template_id c)
       ∧ c_description c' = set_nullable (cu_description u) (c_description c)
       ∧ scheduled_at c' = set_nullable (cu_scheduled_at u) (scheduled_at c)
       ∧ status c' = set_nullable (cu_status u) (status c)
       ∧ (∀ ids, cu_contact_ids u = SetTo ids →
                 contact_ids c' = ids ∧ total_emails c' = Z.of_nat (length ids))
       ∧ (cu_contact_ids u = Unset →
          contact_ids c' = contact_ids c ∧ total_emails c' = total_emails c)
       ∧ updated_at c' = clock env (S (ticks w))
       ∧ sent_count c' = sent_count c ∧ failed_count c' = failed_count c
       ∧ created_at c' = created_at c ∧ started_at c' = started_at c
       ∧ completed_at c' = completed_at c
       ∧ (presentable c' →
          (campaigns_routes.update_campaign campaign_id u env w).1 = Return (oid, c'))
       ∧ (¬ presentable c' →
          (campaigns_routes.update_campaign campaign_id u env w).1
          = Raise (PyError "ValidationError" "CampaignResponse"))).
Proof.
  intros Hh Hoid Hc Hst. split.
  - intros Hnull.
    unfold campaigns_routes.update_campaign, try_except, mbind, M_bind, lift,
      db.find_one_campaign, db_call.
    rewrite Hoid, !Hh. simpl. rewrite Hc.
    rewrite (bool_decide_eq_false_2 _ Hst). by rewrite Hnull.
  - intros Hids.
    rewrite (update_campaign_writes campaign_id u env w oid c Hh Hoid Hc Hst Hids).
    set (c' := campaigns_routes.set_update u (clock env (S (ticks w))) c).
    set (w' := set_campaigns (<[oid := c']> (campaigns w))
                 (step (step (step (step w))))).
    exists c', w'. split.
    { destruct (decide (presentable c')) as [Hp|Hp].
      - by rewrite campaign_response_presentable.
      - by rewrite campaign_response_rejects. }
    split_and!; try done.
    + intros ids Hset. subst c'. unfold campaigns_routes.set_update. simpl.
      by rewrite Hset.
    + intros Hunset. subst c'. unfold campaigns_routes.set_update. simpl.
      by rewrite Hunset.
    + intros Hp. by rewrite campaign_response_presentable.
    + intros Hp. by rewrite campaign_response_rejects.
Qed.

(** X24 on a request that sets the contact references only. *)
Lemma update_campaign_stores_request_witness :
  (cu_contact_ids only_bob = SetNull →
   campaigns_routes.update_campaign id_campaign only_bob quiet_env
     (scenario_world welcome (spring DRAFT 0 0))
   = (Raise (PyError "TypeError" "object of type 'NoneType' has no len()"),
      step (scenario_world welcome (spring DRAFT 0 0))))
  ∧ (cu_contact_ids only_bob ≠ SetNull →
     ∃ c' w',
       (campaigns_routes.update_campaign id_campaign only_bob quiet_env
          (scenario_world welcome (spring DRAFT 0 0))).2 = w'
       ∧ campaigns w'
         = <[193%N := c']> (campaigns (scenario_world welcome (spring DRAFT 0 0)))
       ∧ contacts w' = contacts (scenario_world welcome (spring DRAFT 0 0))
       ∧ templates w' = templates (scenario_world welcome (spring DRAFT 0 0))
       ∧ email_logs w' = email_logs (scenario_world welcome (spring DRAFT 0 0))
       ∧ network w' = network (scenario_world welcome (spring DRAFT 0 0))
       ∧ c_name c' = set_nullable (cu_name only_bob) (c_name (spring DRAFT 0 0))
       ∧ template_id c'
         = set_nullable (cu_template_id only_bob) (template_id (spring DRAFT 0 0))
       ∧ c_description c'
         = set_nullable (cu_description only_bob) (c_description (spring DRAFT 0 0))
       ∧ scheduled_at c'
         = set_nullable (cu_scheduled_at only_bob) (scheduled_at (spring DRAFT 0 0))
       ∧ status c' = set_nullable (cu_status only_bob) (status (spring DRAFT 0 0))
       ∧ (∀ ids, cu_contact_ids only_bob = SetTo ids →
                 contact_ids c' = ids ∧ total_emails c' = Z.of_nat (length ids))
       ∧ (cu_contact_ids only_bob = Unset →
          contact_ids c' = contact_ids (spring DRAFT 0 0)
          ∧ total_emails c' = total_emails (spring DRAFT 0 0))
       ∧ updated_at c'
         = clock quiet_env (S (ticks (scenario_world welcome (spring DRAFT 0 0))))
       ∧ sent_count c' = sent_count (spring DRAFT 0 0)
       ∧ failed_count c' = failed_count (spring DRAFT 0 0)
       ∧ created_at c' = created_at (spring DRAFT 0 0)
       ∧ started_at c' = started_at (spring DRAFT 0 0)
       ∧ completed_at c' = completed_at (spring DRAFT 0 0)
       ∧ (presentable c' →
          (campaigns_routes.update_campaign id_campaign only_bob quiet_env
             (scenario_world welcome (spring DRAFT 0 0))).1 = Return (193%N, c'))
       ∧ (¬ presentable c' →
          (campaigns_routes.update_campaign id_campaign only_bob quiet_env
             (scenario_world welcome (spring DRAFT 0 0))).1
          = Raise (PyError "ValidationError" "CampaignResponse"))).
Proof.
  apply (update_campaign_stores_request id_campaign only_bob quiet_env
           (scenario_world welcome (spring DRAFT 0 0)) 193%N (spring DRAFT 0 0));
    try (vm_compute; reflexivity).
  rewrite !elem_of_cons, elem_of_nil. intros [?|[?|[]]]; discriminate.
Defined.

(** * Log rows and counters *)

Section RowsAndCounters.

Lemma log_email_delta cid kid tid subject body st err env w :
  at_most_one_row st w
    (AsyncEmailSender._log_email cid kid tid subject body st err env w).2.
Proof.
  unfold at_most_one_row, AsyncEmailSender._log_email, try_except, mbind, M_bind,
    utcnow, db.insert_one_email_log, db_call.
  destruct (decide (st = EMAIL_SENT)); simpl;
    match goal with |- context [fault env ?n] => destruct (fault env n) end;
    simpl; eauto.
Qed.

Lemma real_send_delta self to_email subject body html log cid kid tid env w :
  ∃ ok err w1,
    AsyncEmailSender.send_email self to_email subject body html log cid kid tid env w
    = (Return (ok, err), w1)
    ∧ at_most_one_row (if ok then EMAIL_SENT else EMAIL_FAILED) w w1.
Proof.
  pose proof (transmit_logs self to_email subject body html env w) as Hl.
  destruct (AsyncEmailSender.transmit self to_email subject body html env w)
    as [[[]|e] w0] eqn:Ht; unfold same_logs in Hl; simpl in Hl.
  - rewrite (real_send_email_transmitted _ _ _ _ _ _ _ _ _ _ _ _ Ht).
    eexists true, _, _. split; [reflexivity|].
    destruct (log && truthy cid && truthy kid); [|by left].
    pose proof (log_email_delta cid kid tid subject body EMAIL_SENT None env w0) as Hd.
    unfold at_most_one_row in *. by rewrite <- Hl.
  - rewrite (real_send_email_failed _ _ _ _ _ _ _ _ _ _ _ _ _ Ht).
    eexists false, _, _. split; [reflexivity|].
    destruct (log && truthy cid && truthy kid); [|by left].
    pose proof (log_email_delta cid kid tid subject body EMAIL_FAILED
                  (Some (exn_str e)) env w0) as Hd.
    unfold at_most_one_row in *. by rewrite <- Hl.
Qed.

Lemma null_send_delta self to_email subject body html log cid kid tid env w :
  ∃ ok err w1,
    DryRunEmailSender.send_email self to_email subject body html log cid kid tid env w
    = (Return (ok, err), w1)
    ∧ at_most_one_row (if ok then EMAIL_SENT else EMAIL_FAILED) w w1.
Proof.
  unfold at_most_one_row, DryRunEmailSender.send_email, try_except, mbind, M_bind,
    utcnow, db.insert_one_email_log, db_call.
  destruct (log && truthy cid && truthy kid); simpl.
  - destruct (fault env (S (S (ticks w)))); simpl;
      eexists true, _, _; (split; [reflexivity|]); simpl; eauto.
  - eexists true, _, _. split; [reflexivity|]. by left.
Qed.

Lemma send_email_delta es to_email subject body html log cid kid tid env w :
  ∃ ok err w1,
    email_sender_send_email es to_email subject body html log cid kid tid env w
    = (Return (ok, err), w1)
    ∧ at_most_one_row (if ok then EMAIL_SENT else EMAIL_FAILED) w w1.
Proof. destruct es; [apply real_send_delta | apply null_send_delta]. Qed.

Lemma rows_with_same st w w' :
  email_logs w' = email_logs w → rows_with st w' = rows_with st w.
Proof. unfold rows_with. by intros ->. Qed.

Lemma rows_with_delta st st' w w' :
  at_most_one_row st w w' →
  (rows_with st' w ≤ rows_with st' w' ≤ rows_with st' w + 1)%nat
  ∧ (st' ≠ st → rows_with st' w' = rows_with st' w).
Proof.
  unfold rows_with. intros [->|(row & -> & Hst)]; [split; [lia|done]|].
  rewrite filter_app, length_app, filter_cons, filter_nil.
  destruct (decide (log_status row = st')) as [Heq|Hne]; simpl.
  - split; [lia|]. intros Hdiff. congruence.
  - split; lia.
Qed.

Lemma body_logs os t data :
  frame same_logs
    (match os with
     | Some svc => OllamaService.generate_email svc (t_content t) data
     | None => lift (TemplateService.render_template (t_content t) data)
     end).
Proof.
  destruct os.
  - apply frame_generate_email; [apply _ | apply logs_step | apply logs_network].
  - apply frame_lift. apply _.
Qed.

(** One iteration with its handler: it counts the recipient once, and the
    log gets at most one row, of the status that was counted. *)
Lemma iteration_rows es os cid c t kid (counts : Z * Z) env w :
  ∃ counts' w1,
    try_except (campaigns_routes.send_one es os cid c t kid counts)
               (λ e, mret (counts.1, counts.2 + 1)%Z) env w = (Return counts', w1)
    ∧ ((counts' = (counts.1 + 1, counts.2)%Z ∧ at_most_one_row EMAIL_SENT w w1)
       ∨ (counts' = (counts.1, counts.2 + 1)%Z ∧ at_most_one_row EMAIL_FAILED w w1)).
Proof.
  unfold try_except, campaigns_routes.send_one, mbind, M_bind, lift,
    db.find_one_contact, db_call.
  destruct (ObjectId kid) as [oid|] eqn:Hoid;
    [|eexists _, _; split; [reflexivity|]; right; split; [done|by left]].
  destruct (fault env (ticks w));
    [eexists _, _; split; [reflexivity|]; right; split; [done|by left]|].
  simpl.
  destruct (contacts w !! oid) as [contact|];
    [|eexists _, _; split; [reflexivity|]; right; split; [done|by left]].
  destruct (campaigns_routes.recipient_data_of contact) as [data|];
    [|eexists _, _; split; [reflexivity|]; right; split; [done|by left]].
  pose proof (body_logs os t data env (step w)) as Hbody.
  unfold lift in Hbody.
  destruct (match os with
            | Some svc => OllamaService.generate_email svc (t_content t) data
            | None =>
                λ _ w0, (TemplateService.render_template (t_content t) data, w0)
            end env (step w))
    as [[body|e] w2]; unfold same_logs in Hbody; simpl in Hbody;
    [|eexists _, _; split; [reflexivity|]; right; split; [done|by left]].
  destruct (send_email_delta es (email contact) (t_subject t) body false true
              (Some cid) (Some kid) (template_id c) env w2)
    as (ok & err & w3 & Hsend & Hdelta).
  rewrite Hsend.
  assert (∀ st, at_most_one_row st w2 w3 → at_most_one_row st w w3) as Hshift.
  { unfold at_most_one_row. intros st. by rewrite Hbody. }
  destruct ok; eexists _, _; (split; [reflexivity|]); [left|right];
    (split; [done|by apply Hshift]).
Qed.

(** The loop: the rows of each status grow by no more than the tally of
    that status. *)
Lemma send_loop_rows es os cid c t ids : ∀ (counts : Z * Z) env w,
  ∃ counts' w',
    campaigns_routes.send_loop es os cid c t ids counts env w = (Return counts', w')
    ∧ (Z.of_nat (rows_with EMAIL_SENT w) ≤ Z.of_nat (rows_with EMAIL_SENT w')
       ≤ Z.of_nat (rows_with EMAIL_SENT w) + (counts'.1 - counts.1))%Z
    ∧ (Z.of_nat (rows_with EMAIL_FAILED w) ≤ Z.of_nat (rows_with EMAIL_FAILED w')
       ≤ Z.of_nat (rows_with EMAIL_FAILED w) + (counts'.2 - counts.2))%Z.
Proof.
  induction ids as [|kid ids IH]; intros counts env w.
  { exists counts, w. split; [done|]. lia. }
  simpl campaigns_routes.send_loop. unfold mbind, M_bind.
  destruct (iteration_rows es os cid c t kid counts env w)
    as (c1 & w1 & Hit & Hcase).
  rewrite Hit.
  destruct (IH c1 env w1) as (c2 & w' & Hrun & Hs & Hf).
  rewrite Hrun. exists c2, w'. split; [done|].
  destruct Hcase as [(-> & Hd)|(-> & Hd)]; simpl in Hs, Hf.
  - destruct (rows_with_delta _ EMAIL_SENT _ _ Hd) as [Hs1 _].
    destruct (rows_with_delta _ EMAIL_FAILED _ _ Hd) as [_ Hf1].
    rewrite Hf1 in Hf by done. lia.
  - destruct (rows_with_delta _ EMAIL_FAILED _ _ Hd) as [Hf1 _].
    destruct (rows_with_delta _ EMAIL_SENT _ _ Hd) as [_ Hs1].
    rewrite Hs1 in Hs by done. lia.
Qed.

Lemma run_campaign_rows cid dry env w w' :
  campaigns_routes.run_campaign cid dry env w = (Return tt, w') →
  ∃ oid c sent failed completed updated,
    ObjectId cid = Return oid ∧ campaigns w !! oid = Some c
    ∧ campaigns w' !! oid
      = Some (campaigns_routes.set_completed sent failed completed updated c)
    ∧ (Z.of_nat (rows_with EMAIL_SENT w) ≤ Z.of_nat (rows_with EMAIL_SENT w')
       ≤ Z.of_nat (rows_with EMAIL_SENT w) + sent)%Z
    ∧ (Z.of_nat (rows_with EMAIL_FAILED w) ≤ Z.of_nat (rows_with EMAIL_FAILED w')
       ≤ Z.of_nat (rows_with EMAIL_FAILED w) + failed)%Z.
Proof.
  unfold campaigns_routes.run_campaign, mbind, M_bind, lift.
  destruct (ObjectId cid) as [oid|] eqn:Hoid; [|done].
  unfold db.find_one_campaign at 1, db_call at 1.
  destruct (fault env (ticks w)); [done|]. simpl.
  destruct (campaigns w !! oid) as [c|] eqn:Hc; [|done]. simpl.
  pose proof (ObjectId_of_documents (template_id c) env (step w))
    as (_ & _ & Hcampaigns1).
  pose proof (frame_ObjectId_of same_logs logs_step (template_id c) env (step w))
    as Hlogs1.
  destruct (ObjectId_of (template_id c) env (step w)) as [[tid|] w1]; [|done].
  unfold same_logs in Hlogs1. simpl in Hcampaigns1, Hlogs1.
  unfold db.find_one_template, db_call at 1.
  destruct (fault env (ticks w1)); [done|]. simpl.
  destruct (templates w1 !! tid) as [t|]; [|by destruct dry].
  assert (∀ es os,
    (let (o, wl) := campaigns_routes.send_loop es os cid c t (contact_ids c)
                      (0, 0)%Z env (step w1) in
     match o with
     | Return a2 =>
         (let '(sent_count, failed_count) := a2 in
          λ (env0 : Env) (w0 : World),
            db.update_one_campaign oid
              (campaigns_routes.set_completed sent_count failed_count
                 (clock env0 (ticks w0)) (clock env0 (S (ticks w0))))
              env0 (step (step w0))) env wl
     | Raise e => (Raise e, wl)
     end) = (Return tt, w') →
    ∃ oid0 c0 sent failed completed updated,
      Return oid = Return oid0 ∧ campaigns w !! oid0 = Some c0
      ∧ campaigns w' !! oid0
        = Some (campaigns_routes.set_completed sent failed completed updated c0)
      ∧ (Z.of_nat (rows_with EMAIL_SENT w) ≤ Z.of_nat (rows_with EMAIL_SENT w')
         ≤ Z.of_nat (rows_with EMAIL_SENT w) + sent)%Z
      ∧ (Z.of_nat (rows_with EMAIL_FAILED w) ≤ Z.of_nat (rows_with EMAIL_FAILED w')
         ≤ Z.of_nat (rows_with EMAIL_FAILED w) + failed)%Z)
    as Hloop.
  { intros es os.
    destruct (send_loop_rows es os cid c t (contact_ids c) (0, 0)%Z env (step w1))
      as ([sent failed] & wl & Hrun & Hs & Hf).
    pose proof (send_loop_documents es os cid c t (contact_ids c) (0, 0)%Z
                  env (step w1)) as (_ & _ & Hcampaigns).
    rewrite Hrun in Hcampaigns |- *. simpl in Hcampaigns, Hs, Hf.
    unfold db.update_one_campaign, db_call. simpl.
    destruct (fault env (S (S (ticks wl)))); [done|].
    intros [= <-].
    exists oid, c, sent, failed, (clock env (ticks wl)), (clock env (S (ticks wl))).
    split; [done|]. split; [done|]. split.
    - simpl. rewrite Hcampaigns, Hcampaigns1, lookup_alter.
      rewrite decide_True by done. by rewrite Hc.
    - unfold rows_with in *. simpl in *. rewrite Hlogs1 in Hs, Hf. split; lia. }
  destruct dry; simpl; destruct (t_use_llm t); simpl; apply Hloop.
Qed.

End RowsAndCounters.

(** X25. After a run that terminates normally the log never shows more
    than the counters: the rows with status sent written during the run are
    at most [sent_count], those with status failed at most [failed_count],
    and the rows of either status do not get fewer. *)
Theorem log_rows_within_counters campaign_id dry env w :
  terminates_normally campaign_id dry env w →
  ∃ oid c' w',
    campaigns_routes._send_campaign_emails campaign_id dry env w = (Return tt, w')
    ∧ ObjectId campaign_id = Return oid
    ∧ campaigns w' !! oid = Some c'
    ∧ (Z.of_nat (rows_with EMAIL_SENT w) ≤ Z.of_nat (rows_with EMAIL_SENT w')
       ≤ Z.of_nat (rows_with EMAIL_SENT w) + sent_count c')%Z
    ∧ (Z.of_nat (rows_with EMAIL_FAILED w) ≤ Z.of_nat (rows_with EMAIL_FAILED w')
       ≤ Z.of_nat (rows_with EMAIL_FAILED w) + failed_count c')%Z.
Proof.
  unfold terminates_normally, campaigns_routes._send_campaign_emails, try_except.
  destruct (campaigns_routes.run_campaign campaign_id dry env w)
    as [[[]|e] w'] eqn:Hrun; simpl; [intros _ | done].
  destruct (run_campaign_rows _ _ _ _ _ Hrun)
    as (oid & c & sent & failed & completed & updated & Hoid & Hc & Hc' & Hs & Hf).
  exists oid, (campaigns_routes.set_completed sent failed completed updated c), w'.
  split_and!; try done; simpl; lia.
Qed.

Lemma log_rows_within_counters_witness :
  ∃ oid c' w',
    campaigns_routes._send_campaign_emails id_campaign true quiet_env (later_world 0)
    = (Return tt, w')
    ∧ ObjectId id_campaign = Return oid
    ∧ campaigns w' !! oid = Some c'
    ∧ (Z.of_nat (rows_with EMAIL_SENT (later_world 0))
       ≤ Z.of_nat (rows_with EMAIL_SENT w')
       ≤ Z.of_nat (rows_with EMAIL_SENT (later_world 0)) + sent_count c')%Z
    ∧ (Z.of_nat (rows_with EMAIL_FAILED (later_world 0))
       ≤ Z.of_nat (rows_with EMAIL_FAILED w')
       ≤ Z.of_nat (rows_with EMAIL_FAILED (later_world 0)) + failed_count c')%Z.
Proof.
  apply (log_rows_within_counters id_campaign true quiet_env (later_world 0)).
  vm_compute. reflexivity.
Defined.

(** * What a reported success stands for *)

Section HandedOver.

Lemma messages_sent_event ev (w w' : World) :
  network w' = (network w ++ [ev])%list →
  messages_sent w'
  = (messages_sent w ++ match ev with
                        | SmtpSendMessage msg => [msg]
                        | _ => []
                        end)%list.
Proof.
  unfold messages_sent. intros ->. rewrite omap_app. by destruct ev.
Qed.

Lemma log_email_messages cid kid tid subject body st err env w :
  messages_sent (AsyncEmailSender._log_email cid kid tid subject body st err env w).2
  = messages_sent w.
Proof.
  unfold AsyncEmailSender._log_email, try_except, mbind, M_bind,
    utcnow, db.insert_one_email_log, db_call.
  destruct (decide (st = EMAIL_SENT)); simpl;
    match goal with |- context [fault env ?n] => destruct (fault env n) end;
    reflexivity.
Qed.

(** A transmission that returns has handed over exactly one message. *)
Lemma transmit_returned self to_email subject body html env w w' :
  AsyncEmailSender.transmit self to_email subject body html env w = (Return tt, w') →
  messages_sent w'
  = (messages_sent w
     ++ [mkMessage subject (AsyncEmailSender.from_email self) to_email body
           (if html then "html" else "plain")])%list.
Proof.
  unfold AsyncEmailSender.transmit, AsyncEmailSender.with_SMTP,
    AsyncEmailSender.quit_after, mbind, M_bind, net_call, raise.
  destruct (AsyncEmailSender.use_tls self); simpl;
    repeat match goal with
           | |- context [fault env ?n] => destruct (fault env n); simpl
           end;
    intros [= <-]; unfold messages_sent; simpl;
    rewrite !omap_app; simpl; by rewrite ?app_nil_r.
Qed.

End HandedOver.

(** X26. When the real transport reports success, exactly one message was
    handed to the mail server during the call: the one with the given
    subject, body and recipient, from the sender's address, of type html or
    plain as asked for; and no error message is returned. *)
Theorem reported_success_was_handed_over self to_email subject body html log
    cid kid tid env w err w' :
  AsyncEmailSender.send_email self to_email subject body html log cid kid tid env w
  = (Return (true, err), w') →
  err = None
  ∧ messages_sent w'
    = (messages_sent w
       ++ [mkMessage subject (AsyncEmailSender.from_email self) to_email body
             (if html then "html" else "plain")])%list.
Proof.
  destruct (AsyncEmailSender.transmit self to_email subject body html env w)
    as [[[]|e] w0] eqn:Ht.
  - rewrite (real_send_email_transmitted _ _ _ _ _ _ _ _ _ _ _ _ Ht).
    intros [= <- <-]. split; [done|].
    rewrite <- (transmit_returned _ _ _ _ _ _ _ _ Ht).
    destruct (log && truthy cid && truthy kid); [|done].
    apply log_email_messages.
  - rewrite (real_send_email_failed _ _ _ _ _ _ _ _ _ _ _ _ _ Ht). discriminate.
Qed.

Lemma reported_success_was_handed_over_witness :
  (None : option string) = None
  ∧ messages_sent
      (transmitted_world
         (mkMessage "Hello" (AsyncEmailSender.from_email default_sender)
            "ana@example.com" "Hi Ana" "plain"))
    = (messages_sent (scenario_world welcome (spring IN_PROGRESS 0 0))
       ++ [mkMessage "Hello" (AsyncEmailSender.from_email default_sender)
             "ana@example.com" "Hi Ana" "plain"])%list.
Proof.
  apply (reported_success_was_handed_over default_sender "ana@example.com" "Hello"
           "Hi Ana" false false None None None
           quiet_env (scenario_world welcome (spring IN_PROGRESS 0 0)) None
           (transmitted_world
              (mkMessage "Hello" (AsyncEmailSender.from_email default_sender)
                 "ana@example.com" "Hi Ana" "plain"))).
  vm_compute. reflexivity.
Defined.
